(** * Agostle converter: content-type resolution, converter dispatch and the
    PDF split / merge / clean / form-fill pipeline.

    The Go package [converter] is embedded shallowly.  Go [string] values are
    Rocq [string]s, Go [[]byte] values are [list byte], Go maps are stdpp
    [gmap]s, and code that touches the disk, the clean memo or external
    processes is written in a small state monad over an explicit [World]. *)

From Stdlib Require Import ZArith Lia Bool List.
From Stdlib.Strings Require Import Ascii String Byte.
From stdpp Require Import base option list gmap strings sorting.

Local Open Scope string_scope.
Local Open Scope Z_scope.

(** ** Package [strings] and [path/filepath] on Go strings *)

Module GoString.

Definition len (s : string) : Z := Z.of_nat (String.length s).

(** [strings.HasPrefix(s, prefix)] *)
Definition HasPrefix (s pre : string) : bool := String.prefix pre s.

(** [s[i:]] for [0 <= i <= len(s)] *)
Definition slice_from (s : string) (i : nat) : string :=
  String.substring i (String.length s - i) s.

(** [s[:i]] for [0 <= i <= len(s)] *)
Definition slice_to (s : string) (i : nat) : string :=
  String.substring 0 i s.

(** [strings.HasSuffix(s, suffix)]:
    [len(s) >= len(suffix) && s[len(s)-len(suffix):] == suffix] *)
Definition HasSuffix (s suf : string) : bool :=
  (String.length suf <=? String.length s)%nat &&
  String.eqb (slice_from s (String.length s - String.length suf)) suf.

(** [strings.Index(s, substr)]: first position of [substr] in [s], or -1 *)
Definition Index (s substr : string) : Z :=
  match String.index 0 substr s with
  | Some n => Z.of_nat n
  | None => -1
  end.

(** [filepath.Ext(path)] on Unix:
    [for i := len(path) - 1; i >= 0 && path[i] != '/'; i-- {
       if path[i] == '.' { return path[i:] } }
     return ""].
    The argument [n] of the loop is [i + 1]. *)
Fixpoint Ext_loop (path : string) (n : nat) : string :=
  match n with
  | O => ""
  | S i =>
      match String.get i path with
      | Some c =>
          if Ascii.eqb c "/" then ""
          else if Ascii.eqb c "." then slice_from path i
          else Ext_loop path i
      | None => ""
      end
  end.

Definition Ext (path : string) : string := Ext_loop path (String.length path).

(** [filepath.IsAbs(path)] on Unix: [strings.HasPrefix(path, "/")] *)
Definition IsAbs (path : string) : bool := HasPrefix path "/".

(** No byte of [s] is a dot or a path separator. *)
Fixpoint plain (s : string) : bool :=
  match s with
  | EmptyString => true
  | String c s' => negb (Ascii.eqb c "/") && negb (Ascii.eqb c ".") && plain s'
  end.

End GoString.

(** ** Package [bytes] on byte slices *)

Module GoBytes.
Local Open Scope list_scope.

#[global] Instance byte_eq_dec : EqDecision byte := Byte.byte_eq_dec.

Definition len (s : list byte) : Z := Z.of_nat (length s).

(** [[]byte(s)] and [string(b)] *)
Definition of_string (s : string) : list byte := String.list_byte_of_string s.
Definition to_string (b : list byte) : string := String.string_of_list_byte b.

(** [bytes.HasPrefix(s, prefix)] *)
Fixpoint HasPrefix (s pre : list byte) : bool :=
  match pre, s with
  | [], _ => true
  | p :: pre', c :: s' => Byte.eqb p c && HasPrefix s' pre'
  | _ :: _, [] => false
  end.

(** The first position at which [sep] occurs in [s]. *)
Fixpoint index_from (s sep : list byte) : option nat :=
  match s with
  | [] => if HasPrefix [] sep then Some O else None
  | _ :: s' => if HasPrefix s sep then Some O else S <$> index_from s' sep
  end.

(** [bytes.Index(s, sep)]: the first position of [sep] in [s], or -1 *)
Definition Index (s sep : list byte) : Z :=
  match index_from s sep with
  | Some n => Z.of_nat n
  | None => -1
  end.

(** [bytes.IndexByte(s, c)] *)
Definition IndexByte (s : list byte) (c : byte) : Z := Index s [c].

(** [bytes.Contains(s, sub)] *)
Definition Contains (s sub : list byte) : bool := 0 <=? Index s sub.

(** [s[lo:]], [s[:hi]] and [s[lo:hi]] for indexes within bounds *)
Definition slice_from (s : list byte) (lo : Z) : list byte := drop (Z.to_nat lo) s.
Definition slice_to (s : list byte) (hi : Z) : list byte := take (Z.to_nat hi) s.
Definition slice (s : list byte) (lo hi : Z) : list byte :=
  take (Z.to_nat (hi - lo)) (drop (Z.to_nat lo) s).

(** [bytes.Trim(s, cutset)] for an ASCII cutset: leading and trailing bytes
    of the cutset are dropped. *)
Definition in_cutset (cutset : list byte) (c : byte) : bool :=
  existsb (Byte.eqb c) cutset.

Fixpoint TrimLeft (s cutset : list byte) : list byte :=
  match s with
  | [] => []
  | c :: s' => if in_cutset cutset c then TrimLeft s' cutset else s
  end.

Definition TrimRight (s cutset : list byte) : list byte :=
  rev (TrimLeft (rev s) cutset).

Definition Trim (s cutset : list byte) : list byte :=
  TrimRight (TrimLeft s cutset) cutset.

(** [bytes.Count(s, sep)] for a non-empty [sep]: the number of
    non-overlapping instances of [sep] in [s], counted from the left.
    [fuel] bounds the scan; [length s] always suffices. *)
Fixpoint count_loop (fuel : nat) (s sep : list byte) : nat :=
  match fuel with
  | O => O
  | S fuel' =>
      let i := Index s sep in
      if i <? 0 then O
      else S (count_loop fuel' (slice_from s (i + len sep)) sep)
  end.

Definition Count (s sep : list byte) : nat := count_loop (length s) s sep.

(** [bytes.Join(parts, sep)] *)
Fixpoint Join (parts : list (list byte)) (sep : list byte) : list byte :=
  match parts with
  | [] => []
  | [p] => p
  | p :: rest => p ++ sep ++ Join rest sep
  end.

(** [byte(x)] of an unsigned integer: the low eight bits *)
Definition byte_of_Z (x : Z) : byte :=
  default x00%byte (Byte.of_N (Z.to_N (Z.land x 255))).

End GoBytes.

(** ** Go errors *)

Module GoError.

(** Go [error] values, as far as the package tells them apart: a fresh
    error, a wrapped one, the [*os.PathError] of a file operation, the
    failure of a child process, and a run-time panic where a call does not
    return at all. *)
Inductive error : Type :=
| errors_New (msg : string)
| errors_Wrapf (cause : error) (msg : string)
| PathError (op path : string)
| ExitError (prog : string)
| RuntimePanic (msg : string).

(** [if err != nil { err = errors.Wrapf(err, msg) }] *)
Definition wrap (msg : string) (err : option error) : option error :=
  match err with
  | Some e => Some (errors_Wrapf e msg)
  | None => None
  end.

End GoError.

(** ** FDF templates: [fieldParts], [splitFdf], [Set], [WriteTo] *)

Module Fdf.
Import GoBytes GoError.
Local Open Scope list_scope.

(** [type fieldParts struct { Parts [][]byte; Fields []string;
    Values map[string]string }] *)
Record fieldParts : Type := mkFieldParts {
  Parts : list (list byte);
  Fields : list string;
  Values : gmap string string
}.

(** [var fieldPartV = []byte("\n<<\n/V ()\n")] *)
Definition fieldPartV : list byte :=
  [x0a; x3c; x3c; x0a; x2f; x56; x20; x28; x29; x0a]%byte.

(** [[]byte("/T (")] and [[]byte(")\n>>")] *)
Definition field_open : list byte := [x2f; x54; x20; x28]%byte.
Definition field_close : list byte := [x29; x0a; x3e; x3e]%byte.

(** The first [for] loop of [splitFdf]: cut [fdf] at every marker.
    [parts] is [fp.Parts] so far; the loop body runs at most once per byte
    of [fdf] plus once, which [fuel] bounds. *)
Fixpoint split_loop (fuel : nat) (fdf : list byte) (parts : list (list byte))
    : list (list byte) :=
  match fuel with
  | O => parts
  | S fuel' =>
      let i := Index fdf fieldPartV in
      if i <? 0 then parts ++ [fdf]
      else split_loop fuel' (slice_from fdf (i + len fieldPartV))
                      (parts ++ [slice_to fdf i])
  end.

(** The body of the second loop: the field name of one part, if it has
    one ([None] is [continue]). *)
Definition field_key (part : list byte) : option string :=
  let i := Index part field_open in
  if i <? 0 then None
  else
    let j := Index (slice_from part i) field_close in
    if j <? 0 then None
    else
      let j := j + i in
      Some (to_string (slice part (i + 4) j)).

(** The second loop of [splitFdf], over [fp.Parts]. *)
Fixpoint collect_fields (parts : list (list byte)) (fields : list string)
    (values : gmap string string) : list string * gmap string string :=
  match parts with
  | [] => (fields, values)
  | part :: rest =>
      match field_key part with
      | None => collect_fields rest fields values
      | Some key => collect_fields rest (fields ++ [key]) (<[key := ""]> values)
      end
  end.

(** [func splitFdf(fdf []byte) fieldParts] *)
Definition splitFdf (fdf : list byte) : fieldParts :=
  let parts := split_loop (S (length fdf)) fdf [] in
  let '(fields, values) := collect_fields parts [] ∅ in
  mkFieldParts parts fields values.

(** [func (fp fieldParts) Set(key, value string) error].  The receiver is a
    value, but [Values] is a map: the assignment is seen by the caller. *)
Definition Set_ (fp : fieldParts) (key value : string) : fieldParts * option error :=
  match Values fp !! key with
  | None => (fp, Some (errors_New ("field " +:+ key +:+ " not exist")))
  | Some _ => (mkFieldParts (Parts fp) (Fields fp) (<[key := value]> (Values fp)), None)
  end.

Section WriteTo.
(** [utf16.Encode([]rune(val))] of the Go runtime: the UTF-16 code units of
    a string. *)
Variable utf16_Encode : string -> list Z.

(** What one field contributes after its part: the empty marker, or the
    marker with the value in UTF-16BE behind a byte-order mark. *)
Definition field_bytes (val : string) : list byte :=
  let length := len fieldPartV in
  let fpv1 := slice_to fieldPartV (length - 2) in
  let fpv2 := slice_from fieldPartV (length - 2) in
  if GoString.len val =? 0 then fieldPartV
  else
    fpv1 ++ [xfe; xff]%byte
    ++ flat_map (fun u => [byte_of_Z (Z.shiftr u 8); byte_of_Z (Z.land u 255)])
                (utf16_Encode val)
    ++ fpv2.

(** The [for i, part := range fp.Parts] loop of [WriteTo]; [None] is the
    run-time panic of an index out of range. *)
Fixpoint write_loop (fp : fieldParts) (length : Z) (i : nat)
    (parts : list (list byte)) (buf : list byte) : option (list byte) :=
  match parts with
  | [] => Some buf
  | part :: rest =>
      if Z.of_nat i =? length then Some buf
      else
        match Fields fp !! i with
        | None => None
        | Some field =>
            let val := default "" (Values fp !! field) in
            write_loop fp length (S i) rest (buf ++ part ++ field_bytes val)
        end
  end.

(** [func (fp fieldParts) WriteTo(w io.Writer) (n int64, err error)] into a
    [bytes.Buffer], which never fails: the result is the buffer's content,
    or [None] when the call panics. *)
Definition WriteTo (fp : fieldParts) : option (list byte) :=
  let length := Z.of_nat (length (Parts fp)) - 1 in
  match write_loop fp length 0 (Parts fp) [] with
  | None => None
  | Some buf =>
      if length <? 0 then None
      else
        match Parts fp !! Z.to_nat length with
        | None => None
        | Some last => Some (buf ++ last)
        end
  end.
End WriteTo.

End Fdf.

(** ** Content types: [fixCT], [GetConverter], [FixContentType] *)

Module ContentType.
Import GoString.

(** The converters a content type can be dispatched to.  Go's [nil]
    converter is [None] at type [option Converter]. *)
Inductive Converter : Type :=
| PdfToPdf
| OfficeToPdf
| TextToPdf
| NewTextConverter (charset : string)
| HTMLToPdf
| MailToPdfZip
| MPRelatedToPdf
| Skip
| ImageToPdf.

(** [var ExtContentType = map[string]string{...}] *)
Definition ExtContentType : gmap string string :=
  list_to_map
    [ ("doc", "application/vnd.ms-word");
      ("docx", "application/vnd.openxmlformats-officedocument.wordprocessingml.document");
      ("dotx", "application/vnd.openxmlformats-officedocument.wordprocessingml.template");
      ("xls", "application/vnd.ms-excel");
      ("xlsx", "application/vnd.openxmlformats-officedocument.spreadsheetml.sheet");
      ("xltx", "application/vnd.openxmlformats-officedocument.spreadsheetml.template");
      ("ppt", "application/vnd.ms-powerpoint");
      ("pptx", "application/vnd.openxmlformats-officedocument.presentationml.presentation");
      ("ppsx", "application/vnd.openxmlformats-officedocument.presentationml.slideshow");
      ("potx", "application/vnd.openxmlformats-officedocument.presentationml.template");
      ("odg", "application/vnd.oasis.opendocument.graphics");
      ("otg", "application/vnd.oasis.opendocument.graphics-template");
      ("otp", "application/vnd.oasis.opendocument.presentation-template");
      ("odp", "application/vnd.oasis.opendocument.presentation");
      ("odm", "application/vnd.oasis.opendocument.text-master");
      ("odt", "application/vnd.oasis.opendocument.text");
      ("oth", "application/vnd.oasis.opendocument.text-web");
      ("ott", "application/vnd.oasis.opendocument.text-template");
      ("ods", "application/vnd.oasis.spreadsheet");
      ("ots", "application/vnd.oasis.spreadsheet-template");
      ("odc", "application/vnd.oasis.chart");
      ("odf", "application/vnd.oasis.formula");
      ("odb", "application/vnd.oasis.database");
      ("odi", "application/vnd.oasis.image");
      ("txt", "text/plain");
      ("msg", "application/x-ole-storage");
      ("jpg", "image/jpeg");
      ("jpeg", "image/jpeg");
      ("gif", "image/gif");
      ("png", "image/png") ].

Definition ct_docx : string :=
  "application/vnd.openxmlformats-officedocument.wordprocessingml.document".
Definition ct_xlsx : string :=
  "application/vnd.openxmlformats-officedocument.spreadsheetml.sheet".
Definition ct_pptx : string :=
  "application/vnd.openxmlformats-officedocument.presentationml.presentation".

(** [func fixCT(contentType, fileName string) (ct string)] *)
Definition fixCT (contentType fileName : string) : string :=
  if String.eqb contentType "application/zip"
     || String.eqb contentType "application/x-zip-compressed"
  then
    let ext := Ext fileName in
    if 3 <? len ext then
      if String.eqb ext ".docx" then ct_docx
      else if String.eqb ext ".xlsx" then ct_xlsx
      else if String.eqb ext ".pptx" then ct_pptx
      else "application/zip"
    else "application/zip"
  else if String.eqb contentType "application/x-rar-compressed"
          || String.eqb contentType "application/x-rar"
  then "application/rar"
  else if String.eqb contentType "image/pdf" then "application/pdf"
  else contentType.

(** The vendor-prefix test of [GetConverter]'s [default:] branch. *)
Definition office_like (contentType : string) : bool :=
  HasPrefix contentType "application/vnd.oasis."
  || HasPrefix contentType "application/vnd.openxmlformats-officedocument."
  || HasPrefix contentType "application/vnd.ms-word"
  || HasPrefix contentType "application/vnd.ms-excel"
  || HasPrefix contentType "application/vnd.ms-powerpoint"
  || String.eqb contentType "application/x-ole-storage"
  || HasPrefix contentType "application/vnd.sun.xml."
  || HasPrefix contentType "application/vnd.stardivision."
  || HasPrefix contentType "application/x-star."
  || String.eqb contentType "application/msword".

(** The inner [switch contentType[:i]] on the major type. *)
Definition by_major_type (contentType : string) : option Converter :=
  let i := Index contentType "/" in
  if 0 <? i then
    let major := slice_to contentType (Z.to_nat i) in
    if String.eqb major "image" then Some ImageToPdf
    else if String.eqb major "text" then Some TextToPdf
    else if String.eqb major "audio" || String.eqb major "video" then None
    else None
  else None.

(** [func GetConverter(contentType string, mediaType map[string]string)
    (converter Converter)]; a [nil] media-type map is [None]. *)
Definition GetConverter (contentType : string)
    (mediaType : option (gmap string string)) : option Converter :=
  if String.eqb contentType "application/pdf" then Some PdfToPdf
  else if String.eqb contentType "application/rtf" then Some OfficeToPdf
  else if String.eqb contentType "text/plain" then
    match mediaType with
    | Some mt =>
        match mt !! "charset" with
        | Some cs => if negb (String.eqb cs "") then Some (NewTextConverter cs)
                     else Some TextToPdf
        | None => Some TextToPdf
        end
    | None => Some TextToPdf
    end
  else if String.eqb contentType "text/html" then Some HTMLToPdf
  else if String.eqb contentType "message/rfc822" then Some MailToPdfZip
  else if String.eqb contentType "multipart/related" then Some MPRelatedToPdf
  else if String.eqb contentType "application/x-pkcs7-signature" then Some Skip
  else if office_like contentType then Some OfficeToPdf
  else by_major_type contentType.

(** The exact-match cases of the outer [switch]. *)
Definition exact_cases : list string :=
  [ "application/pdf"; "application/rtf"; "text/plain"; "text/html";
    "message/rfc822"; "multipart/related"; "application/x-pkcs7-signature" ].

(** The major type [contentType[:i]], when there is one ([i > 0]). *)
Definition major_type (contentType : string) : option string :=
  let i := Index contentType "/" in
  if 0 <? i then Some (slice_to contentType (Z.to_nat i)) else None.

(** A content type the dispatcher has no rule for: none of the exact
    cases, none of the office vendor prefixes, and a major type (if any)
    other than image, text, audio and video. *)
Definition unknown_type (contentType : string) : Prop :=
  (contentType ∉ exact_cases) /\
  office_like contentType = false /\
  forall m, major_type contentType = Some m ->
            m ∉ ["image"; "text"; "audio"; "video"].

(** The declared types [fixCT] replaces by another spelling. *)
Definition aliases : list string :=
  [ "application/x-zip-compressed"; "application/x-rar-compressed";
    "application/x-rar"; "image/pdf" ].

Section Resolve.
(** [mimemagic.Match(guess, data)] of the content-sniffing library and
    [mime.TypeByExtension(ext)] of the Go runtime lie outside the package;
    [FixContentType] is parametric in them. *)
Variable mimemagic_Match : string -> list byte -> string.
Variable mime_TypeByExtension : string -> string.

(** [c == nil] *)
Definition is_nil (c : option Converter) : bool :=
  match c with
  | None => true
  | Some _ => false
  end.

(** The tail of [FixContentType]: the extension tables, consulted when the
    declared type is empty, generic or has no converter. *)
Definition by_extension (contentType fileName : string) (c : option Converter)
    : string :=
  if negb (String.eqb fileName "")
     && (String.eqb contentType ""
         || String.eqb contentType "application/octet-stream"
         || is_nil c)
  then
    let ext := Ext fileName in
    if 3 <? len ext then
      match ExtContentType !! slice_from ext 1 with
      | Some nct => fixCT nct fileName
      | None =>
          let nct := mime_TypeByExtension ext in
          if negb (String.eqb nct "") then fixCT nct fileName
          else contentType
      end
    else contentType
  else contentType.

(** [func FixContentType(body []byte, contentType, fileName string)
    (ct string)].  The sniffer is a function: asking it twice about the
    same hint and bytes, as the source does when [useMagic] holds and the
    type has no converter, gives the same answer twice. *)
Definition FixContentType (body : list byte) (contentType fileName : string)
    : string :=
  let contentType := fixCT contentType fileName in
  let ext := Ext fileName in
  let useMagic :=
    String.eqb ext ".pdf" && negb (String.eqb contentType "application/pdf") in
  if useMagic && negb (String.eqb (mimemagic_Match contentType body) "")
  then fixCT (mimemagic_Match contentType body) fileName
  else
    let c := GetConverter contentType None in
    if is_nil c && negb (String.eqb (mimemagic_Match contentType body) "")
    then fixCT (mimemagic_Match contentType body) fileName
    else by_extension contentType fileName c.

(** [FixContentType] after the leading [fixCT] normalisation. *)
Definition resolve_fixed (body : list byte) (ct1 fileName : string) : string :=
  let useMagic :=
    String.eqb (Ext fileName) ".pdf" && negb (String.eqb ct1 "application/pdf") in
  if useMagic && negb (String.eqb (mimemagic_Match ct1 body) "")
  then fixCT (mimemagic_Match ct1 body) fileName
  else
    let c := GetConverter ct1 None in
    if is_nil c && negb (String.eqb (mimemagic_Match ct1 body) "")
    then fixCT (mimemagic_Match ct1 body) fileName
    else by_extension ct1 fileName c.

(** How one resolution step ends. *)
Inductive resolved (body : list byte) (ct1 fileName : string) : string -> Prop :=
| res_sniffed :
    mimemagic_Match ct1 body <> "" ->
    resolved body ct1 fileName (fixCT (mimemagic_Match ct1 body) fileName)
| res_kept :
    resolved body ct1 fileName ct1
| res_table nct :
    mimemagic_Match ct1 body = "" ->
    (forall r c, by_extension r fileName c = r \/
                 by_extension r fileName c = fixCT nct fileName) ->
    resolved body ct1 fileName (fixCT nct fileName).

(** Content sniffing of [body] is stable for the file name: a verdict, once
    reached, is reached again when its corrected form is the hint, and a
    failure to recognise the bytes does not depend on the hint. *)
Definition sniff_stable (body : list byte) (fileName : string) : Prop :=
  (forall g, mimemagic_Match g body <> "" ->
     mimemagic_Match (fixCT (mimemagic_Match g body) fileName) body
     = mimemagic_Match g body) /\
  (forall g g', mimemagic_Match g body = "" -> mimemagic_Match g' body = "").

End Resolve.

End ContentType.

(** ** The PDF pipeline: page count, split, merge, clean, form fill *)

Module Pdf.
Import GoError Fdf.
Local Open Scope list_scope.

(** [*exec.Cmd]: program, arguments, working directory and standard input *)
Record Cmd : Type := mkCmd {
  Path : string;
  Args : list string;
  Dir : string;
  Stdin : list byte
}.

(** [exec.Command(name, arg...)] *)
Definition Command (name : string) (args : list string) : Cmd :=
  mkCmd name args "" [].

(** The disk: the content of every file, by path. *)
Abbreviation Disk := (gmap string (list byte)).

(** What a call leaves behind, in order: a page-count probe of a file was
    started, a clean pass of a file was started, a child process was run. *)
Inductive Event : Type :=
| EvProbe (srcfn : string)
| EvClean (fn : string)
| EvRun (c : Cmd).

(** The state the package works on: the disk, the package variables
    [alreadyCleaned] and [pdfCleanStatus], the state of [math/rand], and
    the record of what has happened. *)
Record World : Type := mkWorld {
  files : Disk;
  alreadyCleaned : gmap string bool;
  pdfCleanStatus : Z;
  seed : nat;
  trace : list Event
}.

Definition set_files (d : Disk) (w : World) : World :=
  mkWorld d (alreadyCleaned w) (pdfCleanStatus w) (seed w) (trace w).
Definition set_alreadyCleaned (m : gmap string bool) (w : World) : World :=
  mkWorld (files w) m (pdfCleanStatus w) (seed w) (trace w).
Definition set_pdfCleanStatus (s : Z) (w : World) : World :=
  mkWorld (files w) (alreadyCleaned w) s (seed w) (trace w).
Definition set_seed (n : nat) (w : World) : World :=
  mkWorld (files w) (alreadyCleaned w) (pdfCleanStatus w) n (trace w).
Definition set_trace (t : list Event) (w : World) : World :=
  mkWorld (files w) (alreadyCleaned w) (pdfCleanStatus w) (seed w) t.

(** What lies outside the package: child processes, the configuration,
    the Go runtime and libraries, and helpers of the package whose source is
    in other files. *)
Record Env : Type := mkEnv {
  (** running a child process to its end: the disk it leaves, its combined
      output and its error *)
  run : Cmd -> Disk -> Disk * (list byte * option error);
  (** [popplerOk[name]], [""] when the tool is not usable *)
  popplerOk : string -> string;
  ConfPdftk : string;
  ConfPdfClean : string;
  ConfMutool : string;
  ConfGs : string;
  Workdir : string;
  LeaveTempFiles : bool;
  (** [exec.LookPath(file)] finds the program *)
  LookPath : string -> bool;
  (** [filepath.Abs], [filepath.Base], [filepath.Join] *)
  filepath_Abs : string -> string * option error;
  filepath_Base : string -> string;
  filepath_Join : string -> string -> string;
  (** [strconv.Itoa(rand.Int())] in the given state of the generator *)
  rand_Int : nat -> string;
  (** [strings.Replace(s, old, new, -1)] and [sort.Strings] *)
  strings_Replace : string -> string -> string -> string;
  sort_Strings : list string -> list string;
  (** [base64.URLEncoding.EncodeToString(sha1(content))] *)
  sha1_base64 : list byte -> string;
  (** [encoding/gob] on [fieldParts] *)
  gob_Decode : list byte -> option fieldParts;
  gob_Encode : fieldParts -> option (list byte);
  (** [utf16.Encode([]rune(s))] *)
  utf16_Encode : string -> list Z;
  (** directories: [os.Mkdir], and [os.Open] with [Readdirnames(-1)] *)
  os_Mkdir : string -> Disk -> Disk * option error;
  Readdirnames : string -> Disk -> list string * option error;
  (** [temp.LinkOrCopy(src, dst)] of the library [tgulacsi/go/temp] *)
  LinkOrCopy : string -> string -> Disk -> Disk * option error;
  (** helpers of the package defined in other files *)
  fileExists : string -> Disk -> bool;
  fileContentHash : string -> Disk -> string + error;
  nakeFilename : string -> string;
  unlink : string -> string -> Disk -> Disk * option error;
  moveFile : string -> string -> Disk -> Disk * option error;
  copyFile : string -> string -> Disk -> Disk * option error
}.

(** *** File operations of the Go runtime on the disk *)

(** [ioutil.ReadFile(path)] *)
Definition ReadFile (path : string) (d : Disk) : list byte + error :=
  match d !! path with
  | Some b => inl b
  | None => inr (PathError "open" path)
  end.

(** [os.Rename(oldpath, newpath)] *)
Definition os_Rename (oldpath newpath : string) (d : Disk) : Disk * option error :=
  match d !! oldpath with
  | Some b => (<[newpath := b]> (delete oldpath d), None)
  | None => (d, Some (PathError "rename" oldpath))
  end.

(** [os.Remove(path)] *)
Definition os_Remove (path : string) (d : Disk) : Disk * option error :=
  match d !! path with
  | Some _ => (delete path d, None)
  | None => (d, Some (PathError "remove" path))
  end.

(** *** The state monad of the package *)

Definition M (A : Type) : Type := World -> World * A.

#[global] Instance M_ret : MRet M := fun A a w => (w, a).
#[global] Instance M_bind : MBind M :=
  fun A B f m w => let '(w', a) := m w in f a w'.

(** Append to the record of events. *)
Definition emit (e : Event) : M unit :=
  fun w => (set_trace (trace w ++ [e]) w, tt).

(** An operation on the disk alone. *)
Definition on_disk {A : Type} (f : Disk -> Disk * A) : M A :=
  fun w => let '(d, a) := f (files w) in (set_files d w, a).

(** A look at the disk. *)
Definition read_disk {A : Type} (f : Disk -> A) : M A :=
  fun w => (w, f (files w)).

Section WithEnv.
Variable env : Env.

(** Run a child process: [cmd.Run], [cmd.CombinedOutput], and the
    package's [runWithTimeout] and [runWithContext]. *)
Definition exec (c : Cmd) : M (list byte * option error) :=
  _ ← emit (EvRun c);
  on_disk (run env c).

(** [func execute(cmd *exec.Cmd) error] *)
Definition execute (c : Cmd) : M (option error) :=
  '(out, err) ← exec c;
  match err with
  | Some e => mret (Some (errors_Wrapf e ("while converting " +:+ GoBytes.to_string out)))
  | None => mret None
  end.

(** [func call(what string, args ...string) error] *)
Definition call (what : string) (args : list string) : M (option error) :=
  execute (Command what args).

(** [func callAt(what, where string, args ...string) error] *)
Definition callAt (what where_ : string) (args : list string) : M (option error) :=
  execute (mkCmd what args where_ []).

(** *** Page count *)

Definition newline : string := String "010" "".

(** The closure [getLine] of [pdfPageNum] *)
Definition getLine (hay : list byte) (needle : string) : string :=
  let i := GoBytes.Index hay (GoBytes.of_string (newline +:+ needle)) in
  if 0 <=? i then
    let line := GoBytes.slice_from hay (i + 1 + GoString.len needle) in
    let j := GoBytes.IndexByte line x0a%byte in
    if 0 <=? j then
      GoBytes.to_string
        (GoBytes.Trim (GoBytes.slice_to line j) [x20; x09; x0d; x0a]%byte)
    else ""
  else "".

(** [strconv.Atoi] on a 64-bit platform *)
Definition digit (c : ascii) : option Z :=
  let n := Z.of_N (N_of_ascii c) in
  if (48 <=? n) && (n <=? 57) then Some (n - 48) else None.

Fixpoint parse_digits (s : string) (acc : Z) : option Z :=
  match s with
  | EmptyString => Some acc
  | String c s' =>
      match digit c with
      | Some d => parse_digits s' (10 * acc + d)
      | None => None
      end
  end.

Definition Atoi (s : string) : Z * option error :=
  let syntax := (0, Some (errors_New ("strconv.Atoi: parsing " +:+ s +:+ ": invalid syntax"))) in
  let range := Some (errors_New ("strconv.Atoi: parsing " +:+ s +:+ ": value out of range")) in
  let '(neg, body) :=
    match s with
    | String "-" r => (true, r)
    | String "+" r => (false, r)
    | _ => (false, s)
    end in
  match body with
  | EmptyString => syntax
  | _ =>
      match parse_digits body 0 with
      | None => syntax
      | Some n =>
          let v := if neg then - n else n in
          if v <? - 2 ^ 63 then (- 2 ^ 63, range)
          else if 2 ^ 63 - 1 <? v then (2 ^ 63 - 1, range)
          else (v, None)
      end
  end.

(** [func pdfPageNum(srcfn string) (numberofpages int, encrypted bool,
    err error)] *)
Definition pdfPageNum (srcfn : string) : M (Z * bool * option error) :=
  _ ← emit (EvProbe srcfn);
  let pdfinfo := negb (String.eqb (popplerOk env "pdfinfo") "") in
  let cmd :=
    if pdfinfo then Command (popplerOk env "pdfinfo") [srcfn]
    else Command (ConfPdftk env) [srcfn; "dump_data_utf8"] in
  '(out, e) ← exec cmd;
  if GoBytes.len out =? 0 then mret (-1, false, e)
  else if pdfinfo then
    let encrypted := String.eqb (getLine out "Encrypted:") "yes" in
    let '(n, err) := Atoi (getLine out "Pages:") in
    mret (n, encrypted, err)
  else
    let encrypted := GoBytes.Contains out (GoBytes.of_string " password ") in
    let '(n, err) := Atoi (getLine out "NumberOfPages:") in
    mret (n, encrypted, err).

(** *** Cleaning *)

Definition pcNotChecked : Z := 0.
Definition pcNothing : Z := -1.
Definition pcPdfClean : Z := 1.
Definition pcMutool : Z := 2.

(** [func getHash(fn string) string] *)
Definition getHash (fn : string) (d : Disk) : string :=
  match d !! fn with
  | None => ""
  | Some content => sha1_base64 env content
  end.

(** [func isAlreadyCleaned(fn string) bool] *)
Definition isAlreadyCleaned (fn : string) : M bool :=
  let fn := if negb (GoString.IsAbs fn) then (filepath_Abs env fn).1 else fn in
  fun w =>
    match alreadyCleaned w !! fn with
    | Some _ => (w, true)
    | None =>
        let hsh := getHash fn (files w) in
        if String.eqb hsh "" then (w, false)
        else
          match alreadyCleaned w !! hsh with
          | Some _ => (w, true)
          | None => (w, false)
          end
    end.

(** The first-use check of [PdfClean], under [cleanMtx]: which cleaning
    tools exist.  The result is the local copy of [pdfCleanStatus]. *)
Definition check_cleaners : M Z :=
  fun w =>
    if pdfCleanStatus w =? pcNotChecked then
      let s := pcNothing in
      let s :=
        if negb (String.eqb (ConfPdfClean env) "") then
          if LookPath env (ConfPdfClean env) then pcPdfClean else s
        else s in
      let s :=
        if negb (String.eqb (ConfMutool env) "") then
          if LookPath env (ConfMutool env) then
            if s =? pcNothing then pcMutool else Z.lor s pcMutool
          else s
        else s in
      (set_pdfCleanStatus s w, s)
    else (w, pdfCleanStatus w).

(** The closing block of [PdfClean], under [cleanMtx]: record the path and
    the content hash in the memo, which is emptied first once it holds more
    than 1024 entries. *)
Definition remember_cleaned (fn : string) : M unit :=
  fun w =>
    let m := if 1024 <? Z.of_nat (size (alreadyCleaned w)) then ∅ else alreadyCleaned w in
    let m := <[fn := true]> m in
    let hsh := getHash fn (files w) in
    let m := if negb (String.eqb hsh "") then <[hsh := true]> m else m in
    (set_alreadyCleaned m w, tt).

(** [func xToX(destfn, srcfn string, tops bool) (err error)] *)
Definition xToX (destfn srcfn : string) (tops : bool) : M (option error) :=
  let gsOpts :=
    if tops then
      ["-q"; "-dNOPAUSE"; "-dBATCH"; "-P-"; "-dSAFER";
       "-sDEVICE=ps2write"; "-sOutputFile=" +:+ destfn; "-c"; "save"; "pop";
       "-f"; srcfn]
    else
      ["-P-"; "-dSAFER"; "-dNOPAUSE"; "-dCompatibilityLevel=1.4";
       "-dPDFSETTINGS=/printer"; "-dUseCIEColor=true";
       "-q"; "-dBATCH"; "-sDEVICE=pdfwrite"; "-sstdout=%stderr";
       "-sOutputFile=" +:+ destfn;
       "-P-"; "-dSAFER"; "-dCompatibilityLevel=1.4";
       "-c"; ".setpdfwrite"; "-f"; srcfn] in
  err ← call (ConfGs env) gsOpts;
  match err with
  | Some e =>
      mret (Some (errors_Wrapf e
        ("converting " +:+ srcfn +:+ " to " +:+ destfn +:+ " with " +:+ ConfGs env)))
  | None => mret None
  end.

(** [func PdfToPs(destfn, srcfn string) error] *)
Definition PdfToPs (destfn srcfn : string) : M (option error) := xToX destfn srcfn true.

(** [func PsToPdf(destfn, srcfn string) error] *)
Definition PsToPdf (destfn srcfn : string) : M (option error) := xToX destfn srcfn false.

(** [func PdfRewrite(destfn, srcfn string) error]; the deferred [unlink]
    runs on every return after it was registered. *)
Definition PdfRewrite (destfn srcfn : string) : M (option error) :=
  let psfn := nakeFilename env srcfn +:+ "-pp.ps" in
  err ← PdfToPs psfn srcfn;
  match err with
  | Some e => mret (Some e)
  | None =>
      let deferred : M unit :=
        if negb (LeaveTempFiles env)
        then (_ ← on_disk (unlink env psfn "rewritten"); mret tt)
        else mret tt in
      let pdffn2 := if String.eqb destfn srcfn then psfn +:+ ".pdf" else destfn in
      err ← PsToPdf pdffn2 psfn;
      match err with
      | Some e => _ ← deferred; mret (Some e)
      | None =>
          err ← on_disk (moveFile env pdffn2 destfn);
          _ ← deferred;
          mret err
      end
  end.

(** The cleaning step of [PdfClean]: the tool the status selects, or the
    rewrite when there is none.  It leaves the result in
    [fn + "-cleaned.pdf"]. *)
Definition run_cleaner (status : Z) (fn : string) : M (option error) :=
  if negb (status =? pcNothing) then
    let cleaner :=
      if negb (Z.land status pcPdfClean =? 0) then ConfPdfClean env
      else ConfMutool env in
    err ←
      (if negb (Z.land status pcPdfClean =? 0)
       then call cleaner ["-ggg"; fn; fn +:+ "-cleaned.pdf"]
       else call cleaner ["clean"; "-ggg"; fn; fn +:+ "-cleaned.pdf"]);
    match err with
    | Some e => mret (Some (errors_Wrapf e ("clean with " +:+ cleaner)))
    | None =>
        _ ← pdfPageNum (fn +:+ "-cleaned.pdf");
        mret None
    end
  else PdfRewrite (fn +:+ "-cleaned.pdf") fn.

(** [PdfClean] once the memo has been asked in vain. *)
Definition clean_uncached (fn : string) : M (option error) :=
  status ← check_cleaners;
  err ← run_cleaner status fn;
  match err with
  | Some e => mret (Some e)
  | None =>
      err ← on_disk (os_Rename (fn +:+ "-cleaned.pdf") fn);
      match err with
      | Some e => mret (Some e)
      | None => _ ← remember_cleaned fn; mret None
      end
  end.

(** The path [PdfClean] works on: [fn], made absolute if it is not. *)
Definition absolute (fn : string) : string * option error :=
  if negb (GoString.IsAbs fn) then filepath_Abs env fn else (fn, None).

(** [func PdfClean(fn string) (err error)] *)
Definition PdfClean (fn : string) : M (option error) :=
  _ ← emit (EvClean fn);
  match absolute fn with
  | (_, Some e) => mret (Some e)
  | (fn, None) =>
      ok ← isAlreadyCleaned fn;
      if ok : bool then mret None else clean_uncached fn
  end.

(** [func PdfPageNum(srcfn string) (numberofpages int, err error)] *)
Definition PdfPageNum (srcfn : string) : M (Z * option error) :=
  '(numberofpages, _, err) ← pdfPageNum srcfn;
  match err with
  | None => mret (numberofpages, None)
  | Some _ =>
      _ ← PdfClean srcfn;
      '(numberofpages, _, err) ← pdfPageNum srcfn;
      mret (numberofpages, err)
  end.

(** *** Split *)

(** A name [PdfSplit] keeps from the listing of its working directory. *)
Definition split_output (prefix fn : string) : bool :=
  GoString.HasPrefix fn prefix && GoString.HasSuffix fn ".pdf".

(** The loop [for i = len(filenames) - 1; i >= 0; i--] of [PdfSplit], which
    cuts the names of other files out of the listing; [n] is [i + 1]. *)
Fixpoint prune_loop (prefix : string) (n : nat) (filenames : list string)
    : list string :=
  match n with
  | O => filenames
  | S i =>
      let filenames :=
        match filenames !! i with
        | Some fn =>
            if negb (split_output prefix fn) then
              if (length filenames - 1 <=? i)%nat then take i filenames
              else take i filenames ++ drop (S i) filenames
            else filenames
        | None => filenames
        end in
      prune_loop prefix i filenames
  end.

(** [func PdfSplit(srcfn string) (filenames []string, err error)].
    The first branch of the source tests the named result [err], which is
    still nil there, not the error [e] of the probe: it is never taken. *)
Definition PdfSplit (srcfn : string) : M (list string * option error) :=
  '(n, e) ← PdfPageNum srcfn;
  if n =? 0 then mret ([], Some (errors_New ("0 pages in " +:+ srcfn)))
  else if n =? 1 then mret ([srcfn], None)
  else
    match absolute srcfn with
    | (_, Some e) => mret ([], Some e)
    | (srcfn, None) =>
        r ← (fun w => (set_seed (S (seed w)) w, rand_Int env (seed w)));
        let destdir :=
          filepath_Join env (Workdir env)
            (filepath_Base env srcfn +:+ "-" +:+ r +:+ "-split") in
        present ← read_disk (fileExists env destdir);
        err ← (if negb present then on_disk (os_Mkdir env destdir) else mret None);
        match err with
        | Some e => mret ([], Some e)
        | None =>
            let prefix :=
              strings_Replace env (filepath_Base env srcfn) "%" "!P!" +:+ "-" in
            err ←
              (if negb (String.eqb (popplerOk env "pdfseparate") "") then
                 err ← callAt (popplerOk env "pdfseparate") destdir
                         [srcfn; filepath_Join env destdir (prefix +:+ "%d.pdf")];
                 mret (wrap ("executing " +:+ popplerOk env "pdfseparate") err)
               else
                 err ← callAt (ConfPdftk env) destdir
                         [srcfn; "burst"; "output"; prefix +:+ "%03d.pdf"];
                 mret (wrap ("executing " +:+ ConfPdftk env) err));
            match err with
            | Some e => mret ([], Some e)
            | None =>
                '(filenames, err) ← read_disk (Readdirnames env destdir);
                match err with
                | Some e => mret (filenames, Some (errors_Wrapf e ("listing " +:+ destdir)))
                | None =>
                    let filenames := prune_loop prefix (length filenames) filenames in
                    let filenames := sort_Strings env filenames in
                    mret (filepath_Join env destdir <$> filenames, None)
                end
            end
        end
    end.

(** *** Merge *)

(** [func PdfMerge(ctx context.Context, destfn string, filenames ...string)
    error]; the context only carries cancellation. *)
Definition PdfMerge (destfn : string) (filenames : list string) : M (option error) :=
  match filenames with
  | [] => mret (Some (errors_New "filenames required!"))
  | [filename] => on_disk (LinkOrCopy env filename destfn)
  | _ =>
      let pdfunite := popplerOk env "pdfunite" in
      united ←
        (if negb (String.eqb pdfunite "") then
           '(_, err) ← exec (Command pdfunite (filenames ++ [destfn]));
           mret (bool_decide (err = None))
         else mret false);
      if united : bool then mret None
      else
        '(out, err) ← exec (Command (ConfPdftk env) (filenames ++ ["cat"; "output"; destfn]));
        mret (wrap (GoBytes.to_string out) err)
  end.

(** *** Form fill *)

(** [func PdfDumpFdf(destfn, inpfn string) error] *)
Definition PdfDumpFdf (destfn inpfn : string) : M (option error) :=
  err ← call (ConfPdftk env) [inpfn; "generate_fdf"; "output"; destfn];
  mret (wrap "pdftk generate_fdf" err).

(** The end of [getFdf]: keep the parsed template in the [.gob] file.  The
    file is created or truncated, then written if the encoding succeeds. *)
Definition store_gob (path : string) (fp : fieldParts) (d : Disk) : Disk * unit :=
  match gob_Encode env fp with
  | Some b => (<[path := b]> d, tt)
  | None => (<[path := []]> d, tt)
  end.

(** The zero value of [fieldParts] *)
Definition no_fieldParts : fieldParts := mkFieldParts [] [] ∅.

(** [func getFdf(inpfn string) (fieldParts, error)] *)
Definition getFdf (inpfn : string) : M (fieldParts * option error) :=
  h ← read_disk (fileContentHash env inpfn);
  match h with
  | inr e => mret (no_fieldParts, Some e)
  | inl hsh =>
      let fdfFn := filepath_Join env (Workdir env) (hsh +:+ ".fdf") in
      cached ← read_disk (fun d => d !! (fdfFn +:+ ".gob") ≫= gob_Decode env);
      match cached with
      | Some fp => mret (fp, None)
      | None =>
          r ← read_disk (ReadFile fdfFn);
          r ←
            match r with
            | inl fdf => mret (inl fdf)
            | inr (PathError _ _) =>
                err ← PdfDumpFdf fdfFn inpfn;
                match err with
                | Some e => mret (inr e)
                | None => read_disk (ReadFile fdfFn)
                end
            | inr _ => _ ← on_disk (os_Remove fdfFn); mret (inl [])
            end;
          match r with
          | inr e => mret (no_fieldParts, Some e)
          | inl fdf =>
              let fp := splitFdf fdf in
              _ ← on_disk (store_gob (fdfFn +:+ ".gob") fp);
              mret (fp, None)
          end
      end
  end.

(** The loop [for k, v := range values] of [PdfFillFdf], over the pairs in
    the order in which the runtime visits the map. *)
Fixpoint set_all (fp : fieldParts) (values : list (string * string))
    : fieldParts * option error :=
  match values with
  | [] => (fp, None)
  | (k, v) :: rest =>
      match Set_ fp k v with
      | (fp, None) => set_all fp rest
      | (fp, Some e) => (fp, Some e)
      end
  end.

(** [func PdfFillFdf(destfn, inpfn string, values map[string]string) error].
    [values] is the map as [range] visits it: its pairs in some order. *)
Definition PdfFillFdf (destfn inpfn : string) (values : list (string * string))
    : M (option error) :=
  if (length values =? 0)%nat then on_disk (copyFile env inpfn destfn)
  else
    '(fp, err) ← getFdf inpfn;
    match err with
    | Some e => mret (Some e)
    | None =>
        match set_all fp values with
        | (_, Some e) => mret (Some e)
        | (fp, None) =>
            match WriteTo (utf16_Encode env) fp with
            | None => mret (Some (RuntimePanic "index out of range"))
            | Some buf =>
                execute (mkCmd (ConfPdftk env)
                               [inpfn; "fill_form"; "-"; "output"; destfn] "" buf)
            end
        end
    end.

End WithEnv.

End Pdf.

(** ** Vocabulary for the statements about the pipeline *)

Module PdfSpec.
Import GoError Fdf Pdf.
Local Open Scope list_scope.

(** [filepath.Abs], when it succeeds, returns an absolute path. *)
Definition Abs_is_abs (env : Env) : Prop :=
  forall p q, filepath_Abs env p = (q, None) -> GoString.IsAbs q = true.

(** The contract of [temp.LinkOrCopy]: when it returns nil, the source was
    readable and the destination holds its bytes. *)
Definition links_or_copies (env : Env) : Prop :=
  forall src dst d d',
    LinkOrCopy env src dst d = (d', None) ->
    exists b, d !! src = Some b /\ d' !! dst = Some b.

(** The command of the page-count probe of [srcfn] *)
Definition probe_cmd (env : Env) (srcfn : string) : Cmd :=
  if negb (String.eqb (popplerOk env "pdfinfo") "")
  then Command (popplerOk env "pdfinfo") [srcfn]
  else Command (ConfPdftk env) [srcfn; "dump_data_utf8"].

(** The event is the start of a page-count probe of [srcfn]. *)
Definition is_probe_of (srcfn : string) (e : Event) : bool :=
  match e with
  | EvProbe p => String.eqb p srcfn
  | _ => false
  end.

(** The event is the start of a page-count probe, of whatever file. *)
Definition is_probe (e : Event) : bool :=
  match e with
  | EvProbe _ => true
  | _ => false
  end.

(** The event is the start of a clean pass. *)
Definition is_clean (e : Event) : bool :=
  match e with
  | EvClean _ => true
  | _ => false
  end.

(** The event is a child process. *)
Definition is_run (e : Event) : bool :=
  match e with
  | EvRun _ => true
  | _ => false
  end.

(** The event is a run of the form-fill tool, [pdftk ... fill_form ...]. *)
Definition is_fill_form (e : Event) : bool :=
  match e with
  | EvRun c => bool_decide (Args c !! 1%nat = Some "fill_form")
  | _ => false
  end.

(** How many events of a record satisfy [f] *)
Fixpoint tally (f : Event -> bool) (t : list Event) : nat :=
  match t with
  | [] => O
  | e :: t' => ((if f e then 1 else 0) + tally f t')%nat
  end.

(** Every event a computation adds to the record satisfies [P]. *)
Definition emits {A : Type} (P : Event -> Prop) (m : M A) : Prop :=
  forall w w' a, m w = (w', a) ->
    exists t, trace w' = trace w ++ t /\ Forall P t.

End PdfSpec.

(** ** Concrete surroundings used in examples *)

Module Scenario.
Import GoError GoBytes Fdf Pdf.
Local Open Scope list_scope.

(** *** Content sniffers *)

(** The signature of a ZIP container, ["PK\x03\x04"] *)
Definition zip_magic : list byte := [x50; x4b; x03; x04]%byte.

(** A sniffer that looks at the bytes only. *)
Definition magic_sniffer (guess : string) (data : list byte) : string :=
  if HasPrefix data zip_magic then "application/zip"
  else if HasPrefix data (of_string "%PDF-") then "application/pdf"
  else "".

(** The table [mime.TypeByExtension] starts from. *)
Definition builtin_TypeByExtension (ext : string) : string :=
  if String.eqb ext ".html" then "text/html; charset=utf-8"
  else if String.eqb ext ".json" then "application/json"
  else if String.eqb ext ".webp" then "image/webp"
  else "".

(** *** FDF inputs *)

Definition lines (ls : list string) : string :=
  String.concat Pdf.newline ls.

(** A form whose two fields are both empty. *)
Definition empty_form : list byte :=
  of_string
    (lines ["%FDF-1.2"; "<<"; "/V ()"; "/T (name)"; ">>";
            "<<"; "/V ()"; "/T (city)"; ">>]"]).

(** A form whose first field already has a value. *)
Definition prefilled_form : list byte :=
  of_string
    (lines ["%FDF-1.2"; "<<"; "/V (Ann)"; "/T (name)"; ">>";
            "<<"; "/V ()"; "/T (city)"; ">>]"]).

(** The UTF-16 code units of an ASCII string *)
Definition ascii_units (s : string) : list Z :=
  (fun c => Z.of_N (N_of_ascii c)) <$> String.list_ascii_of_string s.

(** *** Child processes *)

(** Every child process fails at once. *)
Definition failing_run (c : Cmd) (d : Disk) : Disk * (list byte * option error) :=
  (d, ([], Some (ExitError (Path c)))).

(** Tools that work: the info tool reports one page, the cleaner copies
    its input, the form tool dumps the empty form. *)
Definition working_run (c : Cmd) (d : Disk) : Disk * (list byte * option error) :=
  match Args c with
  | [_] =>
      (d, (of_string (lines ["Title: sample"; "Encrypted: no"; "Pages: 1"; ""]), None))
  | ["-ggg"; src; dst] =>
      match d !! src with
      | Some b => (<[dst := b]> d, ([], None))
      | None => (d, ([], Some (ExitError (Path c))))
      end
  | [_; "generate_fdf"; "output"; dst] => (<[dst := empty_form]> d, ([], None))
  | _ => (d, ([], None))
  end.

(** The info tool fails on every file; the cleaner works. *)
Definition blind_run (c : Cmd) (d : Disk) : Disk * (list byte * option error) :=
  match Args c with
  | [_] => (d, ([], Some (ExitError (Path c))))
  | _ => working_run c d
  end.

(** Linking or copying a file: the destination gets the bytes of the
    source, which must be readable. *)
Definition link_or_copy (src dst : string) (d : Disk) : Disk * option error :=
  match d !! src with
  | Some b => (<[dst := b]> d, None)
  | None => (d, Some (PathError "open" src))
  end.

(** A host with poppler's [pdfinfo] and [pdfclean], working from [/work]. *)
Definition host (run : Cmd -> Disk -> Disk * (list byte * option error)) : Env :=
  {| Pdf.run := run;
     popplerOk := fun name => if String.eqb name "pdfinfo" then "/usr/bin/pdfinfo" else "";
     ConfPdftk := "/usr/bin/pdftk";
     ConfPdfClean := "/usr/bin/pdfclean";
     ConfMutool := "";
     ConfGs := "/usr/bin/gs";
     Workdir := "/tmp";
     LeaveTempFiles := false;
     LookPath := fun _ => true;
     filepath_Abs := fun p => ("/work/" +:+ p, None);
     filepath_Base := fun p => p;
     filepath_Join := fun a b => a +:+ "/" +:+ b;
     rand_Int := fun n => "7";
     strings_Replace := fun s _ _ => s;
     sort_Strings := fun l => l;
     sha1_base64 := fun b => "sha1-" +:+ to_string b;
     gob_Decode := fun _ => None;
     gob_Encode := fun _ => None;
     utf16_Encode := ascii_units;
     os_Mkdir := fun _ d => (d, None);
     Readdirnames := fun _ _ => ([], None);
     fileExists := fun p d => bool_decide (is_Some (d !! p));
     fileContentHash := fun p d =>
       match d !! p with
       | Some b => inl ("sha1-" +:+ to_string b)
       | None => inr (PathError "open" p)
       end;
     LinkOrCopy := link_or_copy;
     nakeFilename := fun p => p;
     unlink := fun p _ d => (delete p d, None);
     moveFile := os_Rename;
     copyFile := link_or_copy |}.

(** A fresh process with one PDF on disk. *)
Definition one_pdf : World :=
  {| files := {[ "/work/a.pdf" := of_string "%PDF-1.4 a" ]};
     alreadyCleaned := ∅;
     pdfCleanStatus := 0;
     seed := 0;
     trace := [] |}.

End Scenario.

(** ** What a computation leaves alone *)

Module PdfFrame.
Import GoError Fdf Pdf.
Local Open Scope list_scope.

(** The computation does not touch the memo of cleaned files. *)
Definition keeps_memo {A : Type} (m : M A) : Prop :=
  forall w, alreadyCleaned (m w).1 = alreadyCleaned w.

(** The event is a run of [mutool clean -ggg ...]. *)
Definition is_mutool_clean (e : Event) : bool :=
  match e with
  | EvRun c =>
      match Args c with
      | a :: b :: _ => String.eqb a "clean" && String.eqb b "-ggg"
      | _ => false
      end
  | _ => false
  end.

End PdfFrame.

(** ** The HTTP front end: names of uploaded files *)

Module Server.
Import GoString.

(** The byte [c] is one of the bytes of [chars]. *)
Definition one_of (chars : string) (c : ascii) : bool :=
  existsb (Ascii.eqb c) (String.list_ascii_of_string chars).

(** [strings.LastIndexAny(s, chars)] for ASCII [chars]: the index of the
    last byte of [s] that is one of [chars], or -1.  [pos] is the index of
    the first byte of [s] in the whole string. *)
Fixpoint last_index_any (s chars : string) (pos : nat) : option nat :=
  match s with
  | EmptyString => None
  | String c s' =>
      match last_index_any s' chars (S pos) with
      | Some j => Some j
      | None => if one_of chars c then Some pos else None
      end
  end.

Definition LastIndexAny (s chars : string) : Z :=
  match last_index_any s chars 0 with
  | Some j => Z.of_nat j
  | None => -1
  end.

(** The Go literal ["/\\"]: a slash and a backslash *)
Definition separators : string := String "/" (String "\" EmptyString).

(** [func baseName(fileName string) string] *)
Definition baseName (fileName : string) : string :=
  if String.eqb fileName "" then ""
  else
    let i := LastIndexAny fileName separators in
    if 0 <=? i then slice_from fileName (Z.to_nat (i + 1)) else fileName.

End Server.

(** ** Converters that run an office suite or a browser engine *)

Module Convert.
Import GoError GoString Pdf.
Local Open Scope list_scope.

(** What the converters need besides the PDF tools. *)
Record Host : Type := mkHost {
  tools : Env;
  ConfLoffice : string;
  ConfWkhtmltopdf : string;
  (** [filepath.Dir] *)
  filepath_Dir : string -> string;
  (** [runtime.GOOS == "windows"] *)
  windows : bool;
  (** [os.Environ()] and [os.Getenv] *)
  os_Environ : list string;
  os_Getenv : string -> string;
  (** [runWithTimeout(cmd)] for a command whose [cmd.Env] is the given
      list ([None] is the nil slice: the child inherits the environment):
      the disk it leaves, what it wrote to its standard error, its error *)
  start : option (list string) -> Cmd -> Disk -> Disk * (list byte * option error)
}.

(** [bytes.HasSuffix(s, suffix)] *)
Definition bytes_HasSuffix (s suffix : list byte) : bool :=
  (length suffix <=? length s)%nat
  && bool_decide (drop (length s - length suffix) s = suffix).

(** The locale [lofficeConvert] passes on: that of [LC_ALL] with the
    encoding replaced if it is an English one, [en_US.UTF-8] otherwise. *)
Definition loffice_locale (lcAll : string) : string :=
  let i := Index lcAll "." in
  if (0 <? i) && HasPrefix lcAll "en_"
  then slice_to lcAll (Z.to_nat (i + 1)) +:+ "UTF-8"
  else "en_US.UTF-8".

(** The test of the loop over [os.Environ()]: [true] is [continue]. *)
Definition skipped (s : string) : bool :=
  HasPrefix s "LC_" || String.eqb s "LANG" || String.eqb s "LANGUAGE".

(** The loop [for _, s := range os.Environ()] of [lofficeConvert]. *)
Fixpoint env_loop (environ : list string) (cmd_Env : list string) : list string :=
  match environ with
  | [] => cmd_Env
  | s :: rest =>
      if skipped s then env_loop rest cmd_Env
      else env_loop rest (cmd_Env ++ [s])
  end.

(** An error message suffix for which [wkhtmltopdf] forgives the tool. *)
Definition forgiven (buf : list byte) : bool :=
  bytes_HasSuffix buf (GoBytes.of_string ("ContentNotFoundError" +:+ newline))
  || bytes_HasSuffix buf (GoBytes.of_string ("ProtocolUnknownError" +:+ newline))
  || bytes_HasSuffix buf (GoBytes.of_string ("HostNotFoundError" +:+ newline)).

Section WithHost.
Variable h : Host.

(** Run a child process with the given environment. *)
Definition run_with (envp : option (list string)) (c : Cmd)
    : M (list byte * option error) :=
  _ ← emit (EvRun c);
  on_disk (start h envp c).

(** [cmd.Env] as [lofficeConvert] sets it. *)
Definition loffice_Env : option (list string) :=
  if negb (windows h)
  then Some (env_loop (os_Environ h) [loffice_locale (os_Getenv h "LC_ALL")])
  else None.

(** The command line of [lofficeConvert] *)
Definition loffice_cmd (outDir inpfn : string) : Cmd :=
  mkCmd (ConfLoffice h)
        ["--headless"; "--convert-to"; "pdf"; "--outdir"; outDir; inpfn]
        (filepath_Dir h inpfn) [].

(** The file [lofficeConvert] expects the suite to write *)
Definition loffice_outfn (outDir inpfn : string) : string :=
  filepath_Join (tools h) outDir
    (filepath_Base (tools h) (nakeFilename (tools h) inpfn) +:+ ".pdf").

(** [func lofficeConvert(ctx context.Context, outDir, inpfn string) error];
    the locks make the calls take turns and the context carries the
    logger. *)
Definition lofficeConvert (outDir inpfn : string) : M (option error) :=
  if String.eqb outDir "" then mret (Some (errors_New "outDir is required!"))
  else
    '(_, err) ← run_with loffice_Env (loffice_cmd outDir inpfn);
    match err with
    | Some e => mret (Some e)
    | None =>
        let outfn := loffice_outfn outDir inpfn in
        st ← read_disk (fun d => d !! outfn);
        match st with
        | None =>
            mret (Some (errors_Wrapf (PathError "stat" outfn)
                          ("loffice no output for " +:+ filepath_Base (tools h) inpfn)))
        | Some _ => mret None
        end
    end.

(** The command line of [wkhtmltopdf] *)
Definition wkhtmltopdf_cmd (outfn inpfn : string) : Cmd :=
  mkCmd (ConfWkhtmltopdf h)
        ["--quiet"; inpfn; "--encoding"; "utf-8";
         "--load-error-handling"; "ignore";
         "--load-media-error-handling"; "ignore"; outfn]
        (filepath_Dir h inpfn) [].

(** [func wkhtmltopdf(ctx context.Context, outfn, inpfn string) error] *)
Definition wkhtmltopdf (outfn inpfn : string) : M (option error) :=
  '(buf, err) ← run_with None (wkhtmltopdf_cmd outfn inpfn);
  let err :=
    match err with
    | Some e =>
        if forgiven buf then None
        else Some (errors_Wrapf e (GoBytes.to_string buf))
    | None => None
    end in
  match err with
  | Some e => mret (Some e)
  | None =>
      st ← read_disk (fun d => d !! outfn);
      match st with
      | None =>
          mret (Some (errors_Wrapf (PathError "stat" outfn)
                        ("wkhtmltopdf no output for " +:+ filepath_Base (tools h) inpfn)))
      | Some b =>
          if GoBytes.len b =? 0
          then mret (Some (errors_New ("wkhtmltopdf empty output for "
                                       +:+ filepath_Base (tools h) inpfn)))
          else mret None
      end
  end.

End WithHost.

(** A Unix host with an English locale in another encoding. *)
Definition latin1_host : Host :=
  {| tools := Scenario.host Scenario.working_run;
     ConfLoffice := "/usr/bin/loffice";
     ConfWkhtmltopdf := "/usr/bin/wkhtmltopdf";
     filepath_Dir := fun _ => "/work";
     windows := false;
     os_Environ := ["PATH=/usr/bin"; "LC_ALL=en_GB.ISO-8859-1"; "LANG=hu_HU.UTF-8"];
     os_Getenv := fun k => if String.eqb k "LC_ALL" then "en_GB.ISO-8859-1" else "";
     start := fun _ c d => (d, ([], None)) |}.

End Convert.

(** ** Writing a template to an [io.Writer]: [countErrWriter] *)

Module Writer.
Import GoBytes GoError Fdf.
Local Open Scope list_scope.

(** Arithmetic of [int64]: the result wraps around. *)
Definition int64 (x : Z) : Z := (x + 2 ^ 63) mod 2 ^ 64 - 2 ^ 63.

Section Writer.
(** An [io.Writer] with its state: [Write(p)] leaves a new state and
    returns the number of bytes written and an error. *)
Variable St : Type.
Variable w_Write : list byte -> St -> St * (Z * option error).
Variable utf16_Encode : string -> list Z.

(** [type countErrWriter struct { w io.Writer; err error; n int64 }] *)
Record countErrWriter : Type := mkCew {
  w : St;
  err : option error;
  n : Z
}.

(** [func (cew *countErrWriter) Write(p []byte) (int, error)] *)
Definition Write (p : list byte) (cew : countErrWriter)
    : countErrWriter * (Z * option error) :=
  match err cew with
  | Some e => (cew, (0, Some e))
  | None =>
      let '(s, (k, e)) := w_Write p (w cew) in
      (mkCew s e (int64 (n cew + k)), (k, e))
  end.

(** [for _, u := range utf16.Encode([]rune(val))] of [WriteTo] *)
Fixpoint write_units (units : list Z) (cew : countErrWriter) : countErrWriter :=
  match units with
  | [] => cew
  | u :: rest =>
      write_units rest
        (Write [byte_of_Z (Z.shiftr u 8); byte_of_Z (Z.land u 255)] cew).1
  end.

(** What [WriteTo] writes after a part: the value of its field. *)
Definition write_field (val : string) (cew : countErrWriter) : countErrWriter :=
  let length := len fieldPartV in
  let fpv1 := slice_to fieldPartV (length - 2) in
  let fpv2 := slice_from fieldPartV (length - 2) in
  if GoString.len val =? 0 then (Write fieldPartV cew).1
  else
    let cew := (Write fpv1 cew).1 in
    let cew := (Write [xfe; xff]%byte cew).1 in
    let cew := write_units (utf16_Encode val) cew in
    (Write fpv2 cew).1.

(** The loop [for i, part := range fp.Parts] of [WriteTo], with its two
    [break]s; [None] is the panic of [fp.Fields[i]] out of range. *)
Fixpoint write_parts (fp : fieldParts) (length : Z) (i : nat)
    (parts : list (list byte)) (cew : countErrWriter) : option countErrWriter :=
  match parts with
  | [] => Some cew
  | part :: rest =>
      if Z.of_nat i =? length then Some cew
      else
        let cew := (Write part cew).1 in
        match Fields fp !! i with
        | None => None
        | Some field =>
            let val := default "" (Values fp !! field) in
            let cew := write_field val cew in
            match err cew with
            | Some _ => Some cew
            | None => write_parts fp length (S i) rest cew
            end
        end
  end.

(** [func (fp fieldParts) WriteTo(w io.Writer) (n int64, err error)]: the
    state the writer is left in, [n] and [err]; [None] when the call
    panics. *)
Definition WriteTo (fp : fieldParts) (s : St) : option (St * (Z * option error)) :=
  let length := Z.of_nat (length (Parts fp)) - 1 in
  match write_parts fp length 0 (Parts fp) (mkCew s None 0) with
  | None => None
  | Some cew =>
      if length <? 0 then None
      else
        match Parts fp !! Z.to_nat length with
        | None => None
        | Some last =>
            let cew := (Write last cew).1 in
            Some (w cew, (n cew, err cew))
        end
  end.

(** [cew.Write] on one piece after the other. *)
Fixpoint feed (chunks : list (list byte)) (cew : countErrWriter) : countErrWriter :=
  match chunks with
  | [] => cew
  | p :: rest => feed rest (Write p cew).1
  end.

(** The writes a writer receives one after the other, up to the first
    that fails: the state it is left in, the bytes it accepted in all, and
    the error of the failed write. *)
Fixpoint writes (chunks : list (list byte)) (s : St) : St * (Z * option error) :=
  match chunks with
  | [] => (s, (0, None))
  | p :: rest =>
      let '(s1, (k, e)) := w_Write p s in
      match e with
      | Some _ => (s1, (k, e))
      | None => let '(s2, (k2, e2)) := writes rest s1 in (s2, (k + k2, e2))
      end
  end.

(** The pieces the value of a field is written in. *)
Definition field_chunks (val : string) : list (list byte) :=
  if GoString.len val =? 0 then [fieldPartV]
  else
    [slice_to fieldPartV (len fieldPartV - 2); [xfe; xff]%byte]
    ++ ((fun u => [byte_of_Z (Z.shiftr u 8); byte_of_Z (Z.land u 255)])
          <$> utf16_Encode val)
    ++ [slice_from fieldPartV (len fieldPartV - 2)].

(** The pieces a template is written in: every part but the last with
    the value of its field, then the last part.  [None] when a part has no
    field or there is no part. *)
Fixpoint part_chunks (fp : fieldParts) (i : nat) (parts : list (list byte))
    : option (list (list byte)) :=
  match parts with
  | [] => None
  | [last] => Some [last]
  | part :: rest =>
      match Fields fp !! i with
      | None => None
      | Some field =>
          match part_chunks fp (S i) rest with
          | None => None
          | Some cs =>
              Some (part :: field_chunks (default "" (Values fp !! field)) ++ cs)
          end
      end
  end.

Definition chunks (fp : fieldParts) : option (list (list byte)) :=
  part_chunks fp 0 (Parts fp).

End Writer.

(** [bytes.Buffer] as a writer: it takes every byte and never fails. *)
Definition Buffer_Write (p : list byte) (buf : list byte)
    : list byte * (Z * option error) :=
  (buf ++ p, (len p, None)).

(** The [countErrWriter] over a buffer that has taken the bytes [b] from
    an empty start. *)
Definition buffered (b : list byte) : countErrWriter (list byte) :=
  mkCew (list byte) b None (int64 (len b)).

(** A writer that accepts [room] bytes and then fails, like a full disk:
    a write that does not fit is cut short and returns the error. *)
Definition limited_Write (e : error) (p : list byte) (s : nat * list byte)
    : (nat * list byte) * (Z * option error) :=
  let '(room, buf) := s in
  if (length p <=? room)%nat then (((room - length p)%nat, buf ++ p), (len p, None))
  else ((O, buf ++ take room p), (Z.of_nat room, Some e)).

End Writer.

(** ** Blank forms, as the form tool dumps them *)

Module FdfForm.
Import GoBytes Fdf.
Local Open Scope list_scope.

(** The text of a field after its marker: the name in brackets, then
    whatever stands before the next marker. *)
Definition field_text (f : string * list byte) : list byte :=
  field_open ++ of_string f.1 ++ field_close ++ f.2.

(** A blank form: a header, then every field behind a marker. *)
Definition blank_form (header : list byte) (fields : list (string * list byte))
    : list byte :=
  header ++ flat_map (fun f => fieldPartV ++ field_text f) fields.

(** In [s] followed by [sep], the first [sep] is the one that follows:
    none starts inside [s]. *)
Definition ends_first (s sep : list byte) : Prop :=
  Index (s ++ sep) sep = len s.

End FdfForm.

(** * Properties *)

(** ** Facts about Go string slicing and [filepath.Ext] *)

Module GoStringFacts.
Import GoString.

Local Arguments String.append !_ _ / : simpl nomatch.

Lemma get_append_r (pre s : string) (i : nat) :
  String.get (String.length pre + i) (pre ++ s) = String.get i s.
Proof. induction pre as [|c pre IH]; simpl; auto. Qed.

Lemma substring_all (s : string) :
  String.substring 0 (String.length s) s = s.
Proof. induction s as [|c s IH]; simpl; [reflexivity | now rewrite IH]. Qed.

Lemma substring_append_r (pre s : string) :
  String.substring (String.length pre) (String.length s) (pre ++ s) = s.
Proof. induction pre as [|c pre IH]; simpl; auto using substring_all. Qed.

Lemma length_append (a b : string) :
  String.length (a ++ b) = (String.length a + String.length b)%nat.
Proof. induction a as [|c a IH]; simpl; congruence. Qed.

Lemma length_substring (s : string) (i m : nat) :
  (i + m <= String.length s)%nat -> String.length (String.substring i m s) = m.
Proof.
  revert i m; induction s as [|c s IH]; intros [|i] [|m] H; simpl in *;
    try lia; try reflexivity.
  - rewrite (IH 0%nat m); [reflexivity | simpl; lia].
  - apply IH; lia.
  - apply IH; lia.
Qed.

Lemma substring_split (s : string) (i : nat) :
  (i <= String.length s)%nat ->
  s = String.substring 0 i s ++ String.substring i (String.length s - i) s.
Proof.
  revert i; induction s as [|c s IH]; intros [|i] H; simpl in *;
    try lia; try reflexivity.
  - f_equal. symmetry. apply substring_all.
  - f_equal. apply IH; lia.
Qed.

Lemma slice_from_append (pre s : string) :
  slice_from (pre ++ s) (String.length pre) = s.
Proof.
  unfold slice_from. rewrite length_append.
  replace (String.length pre + String.length s - String.length pre)%nat
    with (String.length s) by lia.
  apply substring_append_r.
Qed.

(** [strings.HasSuffix] is suffix-hood. *)
Lemma HasSuffix_true (s suf : string) :
  HasSuffix s suf = true <-> exists pre, s = pre ++ suf.
Proof.
  unfold HasSuffix. rewrite andb_true_iff, Nat.leb_le, String.eqb_eq. split.
  - intros [Hlen Heq].
    exists (slice_to s (String.length s - String.length suf)).
    rewrite <- Heq at 2. unfold slice_to, slice_from.
    apply substring_split. lia.
  - intros [pre ->]. rewrite length_append. split; [lia|].
    replace (String.length pre + String.length suf - String.length suf)%nat
      with (String.length pre) by lia.
    apply slice_from_append.
Qed.

Lemma plain_get (s : string) (i : nat) (c : ascii) :
  plain s = true -> String.get i s = Some c ->
  Ascii.eqb c "/" = false /\ Ascii.eqb c "." = false.
Proof.
  revert i; induction s as [|d s IH]; intros i Hp Hg; simpl in *; [discriminate|].
  apply andb_true_iff in Hp as [Hp1 Hp3]. apply andb_true_iff in Hp1 as [Hp1 Hp2].
  destruct i as [|i].
  - injection Hg as <-. split; apply negb_true_iff; assumption.
  - eapply IH; eauto.
Qed.

Lemma get_lt (s : string) (i : nat) :
  (i < String.length s)%nat -> exists c, String.get i s = Some c.
Proof.
  revert i; induction s as [|d s IH]; intros i H; simpl in *; [lia|].
  destruct i; [eauto | apply IH; lia].
Qed.

(** The extension of [pre ++ "." ++ rest] is ["." ++ rest] when [rest]
    holds neither a dot nor a separator. *)
Lemma Ext_append_dot (pre rest : string) :
  plain rest = true ->
  Ext (pre ++ String "." rest) = String "." rest.
Proof.
  intros Hp. unfold Ext. rewrite length_append. simpl String.length.
  assert (H : forall k, (k <= String.length rest)%nat ->
            Ext_loop (pre ++ String "." rest) (String.length pre + S k)
            = String "." rest).
  { induction k as [|k IH]; intros Hk.
    - replace (String.length pre + 1)%nat with (S (String.length pre + 0)) by lia.
      simpl Ext_loop. rewrite get_append_r. simpl.
      rewrite Nat.add_0_r. apply slice_from_append.
    - replace (String.length pre + S (S k))%nat
        with (S (String.length pre + S k)) by lia.
      simpl Ext_loop. rewrite get_append_r. simpl String.get.
      destruct (get_lt rest k ltac:(lia)) as [c Hc]. rewrite Hc.
      destruct (plain_get _ _ _ Hp Hc) as [-> ->]. apply IH. lia. }
  apply H. lia.
Qed.

(** [filepath.Ext] returns the empty string or a suffix of the path. *)
Lemma Ext_loop_suffix (path : string) (n : nat) :
  (n <= String.length path)%nat ->
  Ext_loop path n = "" \/
  exists i, (i < n)%nat /\ Ext_loop path n = slice_from path i.
Proof.
  induction n as [|n IH]; intros Hn; simpl; [left; reflexivity|].
  destruct (String.get n path) as [c|]; [|left; reflexivity].
  destruct (Ascii.eqb c "/"); [left; reflexivity|].
  destruct (Ascii.eqb c ".").
  - right. exists n. split; [lia | reflexivity].
  - destruct (IH ltac:(lia)) as [H | (i & Hi & H)]; [left; exact H|].
    right. exists i. split; [lia | exact H].
Qed.

Lemma Ext_HasSuffix (path : string) :
  Ext path <> "" -> HasSuffix path (Ext path) = true.
Proof.
  intros Hne. unfold Ext in *.
  destruct (Ext_loop_suffix path (String.length path) ltac:(lia))
    as [H | (i & Hi & H)]; [contradiction|].
  rewrite H. apply HasSuffix_true. exists (slice_to path i).
  unfold slice_to, slice_from. apply substring_split. lia.
Qed.

End GoStringFacts.

(** ** Converter dispatch and content-type resolution *)

Module ContentTypeFacts.
Import GoString GoStringFacts ContentType.

Example GetConverter_png : GetConverter "image/png" None = Some ImageToPdf.
Proof. reflexivity. Qed.

Example GetConverter_mpeg : GetConverter "audio/mpeg" None = None.
Proof. reflexivity. Qed.

Example GetConverter_odt :
  GetConverter "application/vnd.oasis.opendocument.text" None = Some OfficeToPdf.
Proof. reflexivity. Qed.

Example GetConverter_charset :
  GetConverter "text/plain" (Some {[ "charset" := "iso-8859-2" ]})
  = Some (NewTextConverter "iso-8859-2").
Proof. reflexivity. Qed.

Lemma not_exact_case (contentType s : string) :
  contentType ∉ exact_cases -> s ∈ exact_cases ->
  String.eqb contentType s = false.
Proof.
  intros Hn Hs. apply String.eqb_neq. intros ->. exact (Hn Hs).
Qed.

Lemma unknown_zip : unknown_type "application/zip".
Proof.
  split; [|split].
  - unfold exact_cases. intros H.
    repeat (apply elem_of_cons in H as [H|H]; [discriminate H|]).
    inversion H.
  - reflexivity.
  - intros m Hm. vm_compute in Hm. injection Hm as <-. intros H.
    repeat (apply elem_of_cons in H as [H|H]; [discriminate H|]).
    inversion H.
Qed.

(** C1, as stated, fails: ["application/zip"] is an unknown type in the
    sense of [unknown_type], and [GetConverter] answers [nil] for it, not
    the office converter. *)
Lemma GetConverter_unknown_not_office :
  unknown_type "application/zip" /\
  GetConverter "application/zip" None = None /\
  GetConverter "application/zip" None <> Some OfficeToPdf.
Proof. split; [exact unknown_zip | split; [reflexivity | discriminate]]. Qed.

(** C1 (amended): for every content type that matches none of the exact
    cases and none of the office vendor prefixes, and whose major type is
    not image, text, audio or video, [GetConverter] returns [nil]
    (no converter), whatever the media-type parameters. *)
Theorem GetConverter_unknown_is_nil (contentType : string)
    (mediaType : option (gmap string string)) :
  unknown_type contentType -> GetConverter contentType mediaType = None.
Proof.
  intros (Hexact & Hoffice & Hmajor). unfold GetConverter.
  rewrite !(not_exact_case contentType) by
    (assumption || (unfold exact_cases; set_solver)).
  rewrite Hoffice. unfold by_major_type.
  unfold major_type in Hmajor.
  destruct (0 <? Index contentType "/"); [|reflexivity].
  specialize (Hmajor _ eq_refl).
  set (m := slice_to contentType (Z.to_nat (Index contentType "/"))) in *.
  assert (Hi : String.eqb m "image" = false).
  { apply String.eqb_neq. intros E. apply Hmajor. rewrite E. set_solver. }
  assert (Ht : String.eqb m "text" = false).
  { apply String.eqb_neq. intros E. apply Hmajor. rewrite E. set_solver. }
  rewrite Hi, Ht. destruct (_ || _); reflexivity.
Qed.

Lemma GetConverter_unknown_is_nil_witness :
  unknown_type "application/zip" /\
  GetConverter "application/zip" (Some ∅) = None.
Proof.
  split; [exact unknown_zip|].
  apply (GetConverter_unknown_is_nil "application/zip" (Some ∅)).
  exact unknown_zip.
Defined.

Example fixCT_docx : fixCT "application/zip" "report.docx" = ct_docx.
Proof. reflexivity. Qed.

Example fixCT_zip_plain : fixCT "application/x-zip-compressed" "a.tar.zip" = "application/zip".
Proof. reflexivity. Qed.

Example fixCT_rar : fixCT "application/x-rar" "a.rar" = "application/rar".
Proof. reflexivity. Qed.

Lemma fixCT_zip_ext (contentType fileName : string) :
  contentType = "application/zip" \/
  contentType = "application/x-zip-compressed" ->
  fixCT contentType fileName =
    let ext := Ext fileName in
    if 3 <? len ext then
      if String.eqb ext ".docx" then ct_docx
      else if String.eqb ext ".xlsx" then ct_xlsx
      else if String.eqb ext ".pptx" then ct_pptx
      else "application/zip"
    else "application/zip".
Proof. intros [-> | ->]; reflexivity. Qed.

Lemma Ext_of_suffix (fileName rest : string) :
  plain rest = true ->
  HasSuffix fileName (String "." rest) = true ->
  Ext fileName = String "." rest.
Proof.
  intros Hp [pre ->]%HasSuffix_true. apply Ext_append_dot, Hp.
Qed.

Lemma suffix_of_Ext (fileName e : string) :
  e <> "" -> String.eqb (Ext fileName) e = true -> HasSuffix fileName e = true.
Proof.
  intros Hne <-%String.eqb_eq. apply Ext_HasSuffix, Hne.
Qed.

(** A declared [application/zip] (or [application/x-zip-compressed])
    whose file name ends in [.docx], [.xlsx] or [.pptx] is corrected by
    [fixCT] to the matching Office Open XML type; with any other file name
    it is corrected to plain [application/zip]. *)
Lemma fixCT_zip (contentType fileName : string) :
  contentType = "application/zip" \/
  contentType = "application/x-zip-compressed" ->
  (HasSuffix fileName ".docx" = true -> fixCT contentType fileName = ct_docx) /\
  (HasSuffix fileName ".xlsx" = true -> fixCT contentType fileName = ct_xlsx) /\
  (HasSuffix fileName ".pptx" = true -> fixCT contentType fileName = ct_pptx) /\
  (HasSuffix fileName ".docx" = false ->
   HasSuffix fileName ".xlsx" = false ->
   HasSuffix fileName ".pptx" = false ->
   fixCT contentType fileName = "application/zip").
Proof.
  intros Hct. rewrite (fixCT_zip_ext _ _ Hct). cbv zeta.
  repeat split.
  - intros H. rewrite (Ext_of_suffix fileName "docx" eq_refl H). reflexivity.
  - intros H. rewrite (Ext_of_suffix fileName "xlsx" eq_refl H). reflexivity.
  - intros H. rewrite (Ext_of_suffix fileName "pptx" eq_refl H). reflexivity.
  - intros Hd Hx Hp.
    destruct (3 <? len (Ext fileName)); [|reflexivity].
    destruct (String.eqb (Ext fileName) ".docx") eqn:Ed.
    { rewrite (suffix_of_Ext fileName ".docx") in Hd; [discriminate| discriminate | exact Ed]. }
    destruct (String.eqb (Ext fileName) ".xlsx") eqn:Ex.
    { rewrite (suffix_of_Ext fileName ".xlsx") in Hx; [discriminate| discriminate | exact Ex]. }
    destruct (String.eqb (Ext fileName) ".pptx") eqn:Ep.
    { rewrite (suffix_of_Ext fileName ".pptx") in Hp; [discriminate| discriminate | exact Ep]. }
    reflexivity.
Qed.

Example fixCT_zip_names :
  fixCT "application/zip" "dir/report.final.xlsx" = ct_xlsx /\
  fixCT "application/zip" "archive.zip" = "application/zip".
Proof. split; reflexivity. Qed.

(** With another file name the declared [application/zip] stays as it is
    under [fixCT], has no converter, and the later steps of the resolution
    take over: here the extension table. *)
Example FixContentType_zip_jpeg :
  fixCT "application/zip" "photo.jpeg" = "application/zip" /\
  FixContentType Scenario.magic_sniffer Scenario.builtin_TypeByExtension
    [] "application/zip" "photo.jpeg" = "image/jpeg".
Proof. split; vm_compute; reflexivity. Qed.

(** *** Idempotence of [FixContentType] *)

Lemma fixCT_idem (x fileName : string) :
  fixCT (fixCT x fileName) fileName = fixCT x fileName.
Proof.
  destruct (String.eqb x "application/zip" || String.eqb x "application/x-zip-compressed") eqn:Ez.
  { assert (E : fixCT x fileName = fixCT "application/zip" fileName)
      by (unfold fixCT; rewrite Ez; reflexivity).
    rewrite E, (fixCT_zip_ext "application/zip") by (left; reflexivity). cbv zeta.
    destruct (3 <? len (Ext fileName)) eqn:El.
    - destruct (String.eqb (Ext fileName) ".docx") eqn:Ed; [reflexivity|].
      destruct (String.eqb (Ext fileName) ".xlsx") eqn:Ex; [reflexivity|].
      destruct (String.eqb (Ext fileName) ".pptx") eqn:Ep; [reflexivity|].
      rewrite (fixCT_zip_ext "application/zip") by (left; reflexivity). cbv zeta.
      rewrite El, Ed, Ex, Ep. reflexivity.
    - rewrite (fixCT_zip_ext "application/zip") by (left; reflexivity). cbv zeta.
      rewrite El. reflexivity. }
  destruct (String.eqb x "application/x-rar-compressed" || String.eqb x "application/x-rar") eqn:Er.
  { assert (E : fixCT x fileName = "application/rar")
      by (unfold fixCT; rewrite Ez, Er; reflexivity).
    rewrite E. reflexivity. }
  destruct (String.eqb x "image/pdf") eqn:Ei.
  { assert (E : fixCT x fileName = "application/pdf")
      by (unfold fixCT; rewrite Ez, Er, Ei; reflexivity).
    rewrite E. reflexivity. }
  assert (E : fixCT x fileName = x)
    by (unfold fixCT; rewrite Ez, Er, Ei; reflexivity).
  rewrite E. exact E.
Qed.

Section Idempotence.
Variable mimemagic_Match : string -> list byte -> string.
Variable mime_TypeByExtension : string -> string.

Local Abbreviation Resolve := (FixContentType mimemagic_Match mime_TypeByExtension).
Local Abbreviation by_ext := (by_extension mime_TypeByExtension).
Local Abbreviation resolve_fixed :=
  (ContentType.resolve_fixed mimemagic_Match mime_TypeByExtension).
Local Abbreviation resolved :=
  (ContentType.resolved mimemagic_Match mime_TypeByExtension).

(** A sniffer that looks at the bytes only is stable. *)
Lemma hint_free_sniff_stable (body : list byte) (fileName : string) :
  (forall g g', mimemagic_Match g body = mimemagic_Match g' body) ->
  sniff_stable mimemagic_Match body fileName.
Proof.
  intros H. split.
  - intros g _. apply H.
  - intros g g' E. rewrite <- E. apply H.
Qed.

Lemma Resolve_unfold body ct fileName :
  Resolve body ct fileName = resolve_fixed body (fixCT ct fileName) fileName.
Proof. reflexivity. Qed.

Lemma by_ext_converter (r fileName : string) :
  is_nil (GetConverter r None) = false ->
  by_ext r fileName (GetConverter r None) = r.
Proof.
  intros Hc. unfold by_extension. rewrite Hc.
  destruct (String.eqb r "") eqn:E1.
  { apply String.eqb_eq in E1; subst r. discriminate Hc. }
  destruct (String.eqb r "application/octet-stream") eqn:E2.
  { apply String.eqb_eq in E2; subst r. discriminate Hc. }
  rewrite andb_false_r. reflexivity.
Qed.

(** The extension tables answer either the type they were asked about,
    or one corrected entry that depends on the file name alone; the
    second happens only for an empty or generic type or a missing
    converter. *)
Lemma by_ext_cases (ct1 fileName : string) (c : option Converter) :
  by_ext ct1 fileName c = ct1 \/
  ((String.eqb ct1 "" || String.eqb ct1 "application/octet-stream" || is_nil c) = true /\
   exists nct,
     by_ext ct1 fileName c = fixCT nct fileName /\
     forall r c', by_ext r fileName c' = r \/
                  by_ext r fileName c' = fixCT nct fileName).
Proof.
  destruct (negb (String.eqb fileName "")) eqn:Ef;
    [|left; unfold by_extension; rewrite Ef; reflexivity].
  destruct (String.eqb ct1 "" || String.eqb ct1 "application/octet-stream"
            || is_nil c) eqn:Ec;
    [|left; unfold by_extension; rewrite Ef, Ec; reflexivity].
  destruct (3 <? len (Ext fileName)) eqn:El;
    [|left; unfold by_extension; rewrite Ef, Ec, El; reflexivity].
  destruct (ExtContentType !! slice_from (Ext fileName) 1) as [nct|] eqn:Et.
  - right. split; [reflexivity|]. exists nct. split.
    + unfold by_extension. rewrite Ef, Ec, El, Et. reflexivity.
    + intros r c'. unfold by_extension. rewrite Ef, El, Et.
      destruct (String.eqb r "" || String.eqb r "application/octet-stream" || is_nil c');
        cbv beta iota delta [andb]; [right | left]; reflexivity.
  - destruct (negb (String.eqb (mime_TypeByExtension (Ext fileName)) "")) eqn:Em;
      [|left; unfold by_extension; rewrite Ef, Ec, El, Et, Em; reflexivity].
    right. split; [reflexivity|]. exists (mime_TypeByExtension (Ext fileName)).
    split.
    + unfold by_extension. rewrite Ef, Ec, El, Et, Em. reflexivity.
    + intros r c'. unfold by_extension. rewrite Ef, El, Et, Em.
      destruct (String.eqb r "" || String.eqb r "application/octet-stream" || is_nil c');
        cbv beta iota delta [andb]; [right | left]; reflexivity.
Qed.

Lemma resolve_fixed_resolved body ct1 fileName :
  resolved body ct1 fileName (resolve_fixed body ct1 fileName).
Proof.
  unfold resolve_fixed. cbv zeta.
  destruct (String.eqb (mimemagic_Match ct1 body) "") eqn:Em.
  - rewrite !andb_false_r. apply String.eqb_eq in Em.
    destruct (by_ext_cases ct1 fileName (GetConverter ct1 None))
      as [-> | (_ & nct & -> & Hall)].
    + apply res_kept.
    + apply res_table; assumption.
  - apply String.eqb_neq in Em. rewrite !andb_true_r.
    destruct (String.eqb (Ext fileName) ".pdf" && negb (String.eqb ct1 "application/pdf")).
    { apply res_sniffed, Em. }
    destruct (is_nil (GetConverter ct1 None)) eqn:Ec.
    { apply res_sniffed, Em. }
    rewrite by_ext_converter by exact Ec. apply res_kept.
Qed.


End Idempotence.

(** The whole resolution agrees on the three Office extensions: the
    corrected type has a converter, so neither sniffing nor the extension
    tables are consulted. *)
Lemma FixContentType_zip_office (mimemagic_Match : string -> list byte -> string)
    (mime_TypeByExtension : string -> string) (body : list byte)
    (contentType fileName rest : string) :
  contentType = "application/zip" \/
  contentType = "application/x-zip-compressed" ->
  rest = "docx" \/ rest = "xlsx" \/ rest = "pptx" ->
  HasSuffix fileName (String "." rest) = true ->
  FixContentType mimemagic_Match mime_TypeByExtension body contentType fileName
  = fixCT contentType fileName.
Proof.
  intros Hct Hrest Hsuf. unfold FixContentType.
  assert (Hp : plain rest = true) by (destruct Hrest as [-> | [-> | ->]]; reflexivity).
  pose proof (Ext_of_suffix fileName rest Hp Hsuf) as Hext.
  assert (Hfix : is_nil (GetConverter (fixCT contentType fileName) None) = false).
  { rewrite (fixCT_zip_ext _ _ Hct). cbv zeta. rewrite Hext.
    destruct Hrest as [-> | [-> | ->]]; reflexivity. }
  cbv zeta. rewrite Hext, Hfix.
  assert (Hpdf : String.eqb (String "." rest) ".pdf" = false)
    by (destruct Hrest as [-> | [-> | ->]]; reflexivity).
  rewrite Hpdf. cbn [andb]. apply by_ext_converter, Hfix.
Qed.




Lemma magic_sniffer_stable (body : list byte) (fileName : string) :
  sniff_stable Scenario.magic_sniffer body fileName.
Proof. apply hint_free_sniff_stable. reflexivity. Qed.


Example FixContentType_octet_docx :
  FixContentType Scenario.magic_sniffer Scenario.builtin_TypeByExtension
    Scenario.zip_magic "application/octet-stream" "report.docx" = ct_docx.
Proof. vm_compute. reflexivity. Qed.

Example FixContentType_by_extension :
  FixContentType Scenario.magic_sniffer Scenario.builtin_TypeByExtension
    [] "" "notes.txt" = "text/plain".
Proof. vm_compute. reflexivity. Qed.

End ContentTypeFacts.

(** ** FDF templates *)

Module FdfFacts.
Import GoBytes Fdf.
Local Open Scope list_scope.

Lemma HasPrefix_length (s pre : list byte) :
  HasPrefix s pre = true -> (length pre <= length s)%nat.
Proof.
  revert s; induction pre as [|p pre IH]; intros [|c s] H; simpl in *;
    try lia; try discriminate.
  apply andb_true_iff in H as [_ H]. apply IH in H. lia.
Qed.

Lemma HasPrefix_split (s pre : list byte) :
  HasPrefix s pre = true -> s = pre ++ drop (length pre) s.
Proof.
  revert s; induction pre as [|p pre IH]; intros [|c s] H; simpl in *;
    try reflexivity; try discriminate.
  apply andb_true_iff in H as [Hc H]. apply Byte.byte_dec_bl in Hc. subst c.
  f_equal. apply IH, H.
Qed.

Lemma index_from_Some (s sep : list byte) (n : nat) :
  index_from s sep = Some n ->
  (n + length sep <= length s)%nat /\ HasPrefix (drop n s) sep = true.
Proof.
  revert n; induction s as [|c s IH]; intros n H; cbn [index_from] in H.
  - destruct (HasPrefix [] sep) eqn:E; [|discriminate]. injection H as <-.
    split; [apply HasPrefix_length in E; simpl in *; lia | exact E].
  - destruct (HasPrefix (c :: s) sep) eqn:E.
    + injection H as <-. split; [apply HasPrefix_length in E; lia | exact E].
    + destruct (index_from s sep) as [m|] eqn:Em; [|discriminate].
      injection H as <-. destruct (IH m eq_refl) as [Hl Hp].
      split; [simpl; lia | exact Hp].
Qed.

(** A successful [bytes.Index] names a position where [sep] fits. *)
Lemma Index_found (s sep : list byte) :
  (Index s sep <? 0) = false ->
  exists n, Index s sep = Z.of_nat n /\
            (n + length sep <= length s)%nat /\
            s = take n s ++ sep ++ drop (n + length sep) s.
Proof.
  unfold Index. destruct (index_from s sep) as [n|] eqn:E; [|discriminate].
  intros _. exists n. destruct (index_from_Some _ _ _ E) as [Hl Hp].
  split; [reflexivity | split; [exact Hl|]].
  rewrite <- (take_drop n s) at 1. f_equal.
  rewrite (HasPrefix_split _ _ Hp) at 1. rewrite drop_drop. reflexivity.
Qed.

Lemma fieldPartV_length : length fieldPartV = 10%nat.
Proof. reflexivity. Qed.

(** The accumulator of the splitting loop is only ever extended. *)
Lemma split_loop_acc (fuel : nat) (fdf : list byte) (parts : list (list byte)) :
  split_loop fuel fdf parts = parts ++ split_loop fuel fdf [].
Proof.
  revert fdf parts; induction fuel as [|fuel IH]; intros fdf parts; simpl.
  - rewrite app_nil_r. reflexivity.
  - destruct (Index fdf fieldPartV <? 0); [reflexivity|].
    rewrite (IH _ (parts ++ _)), (IH _ [_]), app_assoc. reflexivity.
Qed.

(** With enough fuel the loop ends by its [break]: it yields one part more
    than [bytes.Count] finds markers. *)
Lemma split_loop_length (fuel fuel' : nat) (fdf : list byte) :
  (length fdf < fuel)%nat -> (length fdf <= fuel')%nat ->
  length (split_loop fuel fdf []) = S (count_loop fuel' fdf fieldPartV).
Proof.
  revert fuel' fdf; induction fuel as [|fuel IH]; intros fuel' fdf Hf Hf'; [lia|].
  cbn [split_loop]. destruct (Index fdf fieldPartV <? 0) eqn:Ei.
  - destruct fuel'; cbn [count_loop]; [reflexivity | rewrite Ei; reflexivity].
  - destruct (Index_found _ _ Ei) as (n & En & Hl & _).
    rewrite fieldPartV_length in Hl.
    destruct fuel' as [|fuel']; [lia|]. cbn [count_loop]. rewrite Ei.
    rewrite split_loop_acc. rewrite length_app. cbn [app length Nat.add]. f_equal.
    apply IH; unfold slice_from, len; rewrite length_drop, En, fieldPartV_length; lia.
Qed.

(** The parts, joined by the marker, are the input again. *)
Lemma split_loop_Join (fuel : nat) (fdf : list byte) :
  (length fdf < fuel)%nat ->
  split_loop fuel fdf [] <> [] /\
  Join (split_loop fuel fdf []) fieldPartV = fdf.
Proof.
  revert fdf; induction fuel as [|fuel IH]; intros fdf Hf; [lia|].
  cbn [split_loop]. destruct (Index fdf fieldPartV <? 0) eqn:Ei.
  - split; [discriminate | reflexivity].
  - destruct (Index_found _ _ Ei) as (n & En & Hl & Hs).
    rewrite fieldPartV_length in Hl.
    rewrite split_loop_acc. split; [discriminate|].
    assert (Hlt : (length (slice_from fdf (Index fdf fieldPartV + len fieldPartV)) < fuel)%nat).
    { unfold slice_from, len. rewrite length_drop, En, fieldPartV_length. lia. }
    destruct (IH _ Hlt) as [Hne Hj].
    destruct (split_loop fuel _ []) as [|p rest] eqn:Er; [contradiction|].
    cbn [app Join]. cbn [Join] in Hj. rewrite Hj.
    unfold slice_to, slice_from, len. rewrite En.
    rewrite Nat2Z.id. rewrite <- Nat2Z.inj_add, Nat2Z.id.
    symmetry. exact Hs.
Qed.

Lemma collect_fields_spec (parts : list (list byte)) (fields : list string)
    (values : gmap string string) :
  (collect_fields parts fields values).1 = fields ++ omap field_key parts /\
  (forall k, is_Some ((collect_fields parts fields values).2 !! k) <->
             is_Some (values !! k) \/ k ∈ omap field_key parts).
Proof.
  revert fields values; induction parts as [|part rest IH]; intros fields values; simpl.
  - rewrite app_nil_r. split; [reflexivity|]. intros k.
    split; [auto | intros [H|H]; [exact H | inversion H]].
  - destruct (field_key part) as [key|].
    + destruct (IH (fields ++ [key]) (<[key:=""]> values)) as [H1 H2].
      split; [rewrite H1, <- app_assoc; reflexivity|].
      intros k. rewrite H2, lookup_insert_is_Some, elem_of_cons.
      destruct (decide (key = k)) as [->|Hne]; intuition congruence.
    + apply IH.
Qed.

Lemma splitFdf_Parts (fdf : list byte) :
  Parts (splitFdf fdf) = split_loop (S (length fdf)) fdf [].
Proof. unfold splitFdf. destruct (collect_fields _ _ _). reflexivity. Qed.

(** [Fields] are the field names of the parts, in the order of the parts. *)
Lemma splitFdf_Fields (fdf : list byte) :
  Fields (splitFdf fdf) = omap field_key (Parts (splitFdf fdf)).
Proof.
  unfold splitFdf.
  pose proof (collect_fields_spec (split_loop (S (length fdf)) fdf []) [] ∅) as [H _].
  destruct (collect_fields _ _ _) as [fields values]. exact H.
Qed.

(** [Values] has exactly the keys listed in [Fields]. *)
Lemma splitFdf_Values (fdf : list byte) (k : string) :
  is_Some (Values (splitFdf fdf) !! k) <-> k ∈ Fields (splitFdf fdf).
Proof.
  rewrite splitFdf_Fields. unfold splitFdf.
  pose proof (collect_fields_spec (split_loop (S (length fdf)) fdf []) [] ∅) as [_ H].
  destruct (collect_fields _ _ _) as [fields values]. simpl in *.
  rewrite H, lookup_empty. split; [intros [[? ?]|?]; [discriminate | assumption] | auto].
Qed.

Lemma omap_length_le {A B : Type} (f : A -> option B) (l : list A) :
  (length (omap f l) <= length l)%nat.
Proof.
  induction l as [|x l IH]; [simpl; lia|].
  change (omap f (x :: l)) with (match f x with Some y => y :: omap f l | None => omap f l end).
  destruct (f x); simpl; lia.
Qed.

Lemma splitFdf_Fields_le (fdf : list byte) :
  (length (Fields (splitFdf fdf)) <= length (Parts (splitFdf fdf)))%nat.
Proof. rewrite splitFdf_Fields. apply omap_length_le. Qed.

(** The template is the input cut at the markers. *)
Lemma splitFdf_Join (fdf : list byte) :
  Join (Parts (splitFdf fdf)) fieldPartV = fdf.
Proof. rewrite splitFdf_Parts. apply split_loop_Join. lia. Qed.

(** C10: for every input, [splitFdf] returns a template with at least one
    part, one more than the number of markers [bytes.Count] finds in the
    input; so the index [len(fp.Parts) - 1] that [WriteTo] reads last is
    within bounds. *)
Theorem splitFdf_Parts_nonempty (fdf : list byte) :
  let fp := splitFdf fdf in
  Parts fp <> [] /\
  length (Parts fp) = S (Count fdf fieldPartV) /\
  0 <= Z.of_nat (length (Parts fp)) - 1 /\
  is_Some (Parts fp !! Z.to_nat (Z.of_nat (length (Parts fp)) - 1)).
Proof.
  cbv zeta. rewrite splitFdf_Parts.
  assert (Hlen : length (split_loop (S (length fdf)) fdf []) = S (Count fdf fieldPartV))
    by (apply split_loop_length; lia).
  split; [apply split_loop_Join; lia|]. split; [exact Hlen|].
  split; [lia|]. apply lookup_lt_is_Some. lia.
Qed.

(** Markers are counted as [bytes.Count] counts them, without overlap:
    two markers that share a newline are one marker and a rest. *)
Example splitFdf_overlapping_markers :
  let fdf := fieldPartV ++ drop 1 fieldPartV in
  Count fdf fieldPartV = 1%nat /\ Parts (splitFdf fdf) = [[]; drop 1 fieldPartV].
Proof. vm_compute. split; reflexivity. Qed.

(** For a form whose fields are all empty the template is aligned: one
    field per marker, in the order of the form. *)
Example splitFdf_empty_form :
  let fp := splitFdf Scenario.empty_form in
  length (Parts fp) = 3%nat /\ Fields fp = ["name"; "city"] /\
  Values fp = {[ "name" := ""; "city" := "" ]}.
Proof. vm_compute. repeat split. Qed.

(** C2, on a form whose first field already has a value: the name of that
    field is found in the first part, so the template has as many fields
    as parts, not one fewer. *)
Theorem splitFdf_prefilled_form :
  let fp := splitFdf Scenario.prefilled_form in
  length (Parts fp) = 2%nat /\
  Fields fp = ["name"; "city"] /\
  length (Parts fp) <> (length (Fields fp) + 1)%nat.
Proof. vm_compute. repeat split. discriminate. Qed.

(** On such a template [WriteTo] puts the value of the first field where
    the second field's value belongs. *)
Example WriteTo_prefilled_form :
  let fp := splitFdf Scenario.prefilled_form in
  to_string <$> WriteTo Scenario.ascii_units (Set_ fp "name" "Bob").1
  = Some (Scenario.lines
            ["%FDF-1.2"; "<<"; "/V (Ann)"; "/T (name)"; ">>"; "<<";
             String "/" (String "V" (String " " (String "("
               (String "254" (String "255" (String "000" (String "B"
                 (String "000" (String "o" (String "000" (String "b" ")")))))))))));
             "/T (city)"; ">>]"]).
Proof. vm_compute. reflexivity. Qed.

(** On a marker with nothing around it there are two parts and no field,
    and [WriteTo] panics on [fp.Fields[0]]. *)
Example splitFdf_marker_only :
  let fp := splitFdf fieldPartV in
  Parts fp = [[]; []] /\ Fields fp = [] /\
  forall utf16_Encode, WriteTo utf16_Encode fp = None.
Proof. vm_compute. repeat split. Qed.

End FdfFacts.

(** ** The PDF pipeline *)

Module PdfFacts.
Import GoError GoBytes Fdf Pdf PdfSpec Scenario.
Local Open Scope list_scope.

Ltac unfold_M := unfold mbind, M_bind, mret, M_ret in *.

(** *** Merge *)

(** C7: merging a single file is [temp.LinkOrCopy] of it and nothing else:
    no child process is run, and when the call returns nil the destination
    holds the bytes the source had.  Merging no file at all is an error. *)
Theorem PdfMerge_single_or_none (env : Env) (destfn src : string) (w : World) :
  links_or_copies env ->
  PdfMerge env destfn [src] w = on_disk (LinkOrCopy env src destfn) w /\
  trace (PdfMerge env destfn [src] w).1 = trace w /\
  ((PdfMerge env destfn [src] w).2 = None ->
   exists b, files w !! src = Some b /\
             files (PdfMerge env destfn [src] w).1 !! destfn = Some b) /\
  PdfMerge env destfn [] w = (w, Some (errors_New "filenames required!")).
Proof.
  intros Hlib. split; [reflexivity|]. split; [|split; [|reflexivity]].
  - unfold PdfMerge, on_disk. destruct (LinkOrCopy env src destfn (files w)). reflexivity.
  - unfold PdfMerge, on_disk.
    destruct (LinkOrCopy env src destfn (files w)) as [d' err] eqn:E.
    cbn [fst snd files set_files]. intros ->. exact (Hlib _ _ _ _ E).
Qed.

Lemma link_or_copy_contract (run : Cmd -> Disk -> Disk * (list byte * option error)) :
  links_or_copies (host run).
Proof.
  intros src dst d d'. cbn [LinkOrCopy host]. unfold link_or_copy.
  destruct (d !! src) as [b|] eqn:E; [|discriminate].
  intros [= <-]. exists b. split; [reflexivity | apply lookup_insert_eq].
Qed.

Lemma PdfMerge_single_or_none_witness :
  PdfMerge (host failing_run) "/work/out.pdf" ["/work/a.pdf"] one_pdf
  = on_disk (LinkOrCopy (host failing_run) "/work/a.pdf" "/work/out.pdf") one_pdf /\
  trace (PdfMerge (host failing_run) "/work/out.pdf" ["/work/a.pdf"] one_pdf).1
  = trace one_pdf /\
  ((PdfMerge (host failing_run) "/work/out.pdf" ["/work/a.pdf"] one_pdf).2 = None ->
   exists b, files one_pdf !! "/work/a.pdf" = Some b /\
             files (PdfMerge (host failing_run) "/work/out.pdf" ["/work/a.pdf"] one_pdf).1
               !! "/work/out.pdf" = Some b) /\
  PdfMerge (host failing_run) "/work/out.pdf" [] one_pdf
  = (one_pdf, Some (errors_New "filenames required!")).
Proof.
  apply (PdfMerge_single_or_none (host failing_run) "/work/out.pdf" "/work/a.pdf" one_pdf).
  apply link_or_copy_contract.
Defined.

Example PdfMerge_copies :
  let '(w', err) := PdfMerge (host failing_run) "/work/out.pdf" ["/work/a.pdf"] one_pdf in
  err = None /\ files w' !! "/work/out.pdf" = files one_pdf !! "/work/a.pdf".
Proof. vm_compute. split; reflexivity. Qed.

(** *** Split *)

(** C6: when the page-count probe reports one page, [PdfSplit] returns the
    input path alone and leaves the world as the probe left it: no file is
    made and no child process is run after the probe. *)
Theorem PdfSplit_one_page (env : Env) (srcfn : string) (w w1 : World)
    (e : option error) :
  PdfPageNum env srcfn w = (w1, (1, e)) ->
  PdfSplit env srcfn w = (w1, ([srcfn], None)).
Proof.
  intros H. unfold PdfSplit. unfold_M. rewrite H. reflexivity.
Qed.

Lemma PdfSplit_one_page_witness :
  PdfSplit (host working_run) "/work/a.pdf" one_pdf
  = ((PdfPageNum (host working_run) "/work/a.pdf" one_pdf).1, (["/work/a.pdf"], None)).
Proof.
  apply (PdfSplit_one_page (host working_run) "/work/a.pdf" one_pdf _ None).
  vm_compute. reflexivity.
Defined.

(** *** Form fill *)

(** [Set] on a known key keeps the set of keys. *)
Lemma Set_known (fp fp' : fieldParts) (k v k' : string) :
  Set_ fp k v = (fp', None) ->
  Values fp' !! k' = None <-> Values fp !! k' = None.
Proof.
  unfold Set_. destruct (Values fp !! k) as [old|] eqn:Ek; [|discriminate].
  intros [= <-]. simpl. destruct (decide (k = k')) as [->|Hne].
  - rewrite lookup_insert_eq, Ek. split; discriminate.
  - rewrite lookup_insert_ne by exact Hne. reflexivity.
Qed.

Lemma Set_cases (fp : fieldParts) (k v : string) :
  (Values fp !! k = None /\
   Set_ fp k v = (fp, Some (errors_New ("field " +:+ k +:+ " not exist")))) \/
  (exists fp', Set_ fp k v = (fp', None)).
Proof.
  unfold Set_. destruct (Values fp !! k); [right; eauto | left; auto].
Qed.

(** The loop over the values stops at the first key the template does not
    have, with the error of [Set] for that key. *)
Lemma set_all_unknown (values : list (string * string)) (fp : fieldParts) :
  (exists k v, (k, v) ∈ values /\ Values fp !! k = None) ->
  exists k v fp',
    (k, v) ∈ values /\ Values fp !! k = None /\
    set_all fp values = (fp', Some (errors_New ("field " +:+ k +:+ " not exist"))).
Proof.
  revert fp; induction values as [|[k0 v0] rest IH]; intros fp (k & v & Hin & Hk).
  - inversion Hin.
  - cbn [set_all]. destruct (Set_cases fp k0 v0) as [[Hk0 ->] | [fp' Hset]].
    + exists k0, v0, fp. split; [left | split; [exact Hk0 | reflexivity]].
    + rewrite Hset.
      apply elem_of_cons in Hin as [Heq | Hin].
      { injection Heq as <- <-. unfold Set_ in Hset. rewrite Hk in Hset. discriminate. }
      destruct (IH fp') as (k' & v' & fp'' & Hin' & Hk' & Hall).
      { exists k, v. split; [exact Hin|]. apply (Set_known _ _ _ _ _ Hset), Hk. }
      exists k', v', fp''. split; [right; exact Hin'|].
      split; [apply (Set_known _ _ _ _ _ Hset), Hk' | exact Hall].
Qed.

(** *** What a call adds to the record of events *)

Lemma emits_ret {A : Type} (P : Event -> Prop) (a : A) : emits P (mret a).
Proof.
  intros w w' a' [= <- <-]. exists []. rewrite app_nil_r. split; [reflexivity | constructor].
Qed.

Lemma emits_bind {A B : Type} (P : Event -> Prop) (m : M A) (f : A -> M B) :
  emits P m -> (forall a, emits P (f a)) -> emits P (m ≫= f).
Proof.
  intros Hm Hf w w' b H. unfold_M. destruct (m w) as [w1 a] eqn:E.
  destruct (Hm _ _ _ E) as (t1 & E1 & F1).
  destruct (Hf _ _ _ _ H) as (t2 & E2 & F2).
  exists (t1 ++ t2). rewrite E2, E1, app_assoc. split; [reflexivity|].
  apply Forall_app; auto.
Qed.

Lemma emits_silent {A : Type} (P : Event -> Prop) (m : M A) :
  (forall w, trace (m w).1 = trace w) -> emits P m.
Proof.
  intros Hm w w' a E. exists []. rewrite app_nil_r.
  split; [|constructor]. rewrite <- (Hm w), E. reflexivity.
Qed.

Lemma emits_emit (P : Event -> Prop) (e : Event) : P e -> emits P (emit e).
Proof.
  intros He w w' a [= <- <-]. exists [e]. split; [reflexivity|]. repeat constructor. exact He.
Qed.

Lemma emits_on_disk {A : Type} (P : Event -> Prop) (f : Disk -> Disk * A) :
  emits P (on_disk f).
Proof.
  apply emits_silent. intros w. unfold on_disk. destruct (f (files w)). reflexivity.
Qed.

Lemma emits_read_disk {A : Type} (P : Event -> Prop) (f : Disk -> A) :
  emits P (read_disk f).
Proof. apply emits_silent. reflexivity. Qed.

Ltac emits_auto :=
  repeat match goal with
    | |- emits _ (mret _) => apply emits_ret
    | |- emits _ (on_disk _) => apply emits_on_disk
    | |- emits _ (read_disk _) => apply emits_read_disk
    | |- emits _ (mbind _ _) => apply emits_bind; [|intros ?]
    | |- emits _ (match ?x with _ => _ end) => destruct x
    end.

Lemma emits_exec_one (env : Env) (P : Event -> Prop) (c : Cmd) :
  P (EvRun c) -> emits P (exec env c).
Proof. intros Hc. unfold exec. emits_auto. apply emits_emit, Hc. Qed.

Lemma emits_execute_one (env : Env) (P : Event -> Prop) (c : Cmd) :
  P (EvRun c) -> emits P (execute env c).
Proof. intros Hc. unfold execute. emits_auto. apply emits_exec_one, Hc. Qed.

Section Runs.
Variable env : Env.
Variable P : Event -> Prop.
Hypothesis P_run : forall c, P (EvRun c).

Lemma emits_exec (c : Cmd) : emits P (exec env c).
Proof. apply emits_exec_one, P_run. Qed.

Lemma emits_execute (c : Cmd) : emits P (execute env c).
Proof. apply emits_execute_one, P_run. Qed.

Lemma emits_call (what : string) (args : list string) : emits P (call env what args).
Proof. apply emits_execute. Qed.

Lemma emits_xToX (destfn srcfn : string) (tops : bool) :
  emits P (xToX env destfn srcfn tops).
Proof. unfold xToX. emits_auto; apply emits_call. Qed.

Lemma emits_PdfRewrite (destfn srcfn : string) : emits P (PdfRewrite env destfn srcfn).
Proof. unfold PdfRewrite, PdfToPs, PsToPdf. emits_auto; apply emits_xToX. Qed.

Lemma emits_isAlreadyCleaned (fn : string) : emits P (isAlreadyCleaned env fn).
Proof.
  apply emits_silent. intros w. unfold isAlreadyCleaned.
  repeat (match goal with |- context [match ?x with _ => _ end] => destruct x end);
    reflexivity.
Qed.

Lemma emits_check_cleaners : emits P (check_cleaners env).
Proof.
  apply emits_silent. intros w. unfold check_cleaners.
  destruct (pdfCleanStatus w =? pcNotChecked); reflexivity.
Qed.

Lemma emits_remember_cleaned (fn : string) : emits P (remember_cleaned env fn).
Proof. apply emits_silent. reflexivity. Qed.

Lemma emits_pdfPageNum (srcfn : string) :
  P (EvProbe srcfn) -> emits P (pdfPageNum env srcfn).
Proof.
  intros Hp. unfold pdfPageNum. emits_auto;
    first [apply emits_emit, Hp | apply emits_exec].
Qed.

Lemma emits_run_cleaner (status : Z) (fn : string) :
  P (EvProbe (fn +:+ "-cleaned.pdf")) -> emits P (run_cleaner env status fn).
Proof.
  intros Hp. unfold run_cleaner. emits_auto;
    first [apply emits_call | apply emits_pdfPageNum, Hp | apply emits_PdfRewrite].
Qed.

Lemma emits_clean_uncached (fn : string) :
  P (EvProbe (fn +:+ "-cleaned.pdf")) -> emits P (clean_uncached env fn).
Proof.
  intros Hp. unfold clean_uncached. emits_auto;
    first [apply emits_check_cleaners | apply emits_run_cleaner, Hp
          | apply emits_remember_cleaned].
Qed.

End Runs.

(** *** Clean *)

Lemma isAlreadyCleaned_world (env : Env) (fn : string) (w : World) :
  (isAlreadyCleaned env fn w).1 = w.
Proof.
  unfold isAlreadyCleaned.
  repeat (match goal with |- context [match ?x with _ => _ end] => destruct x end);
    reflexivity.
Qed.

(** The memo is asked about the disk and the memo, not about the record. *)
Lemma isAlreadyCleaned_trace (env : Env) (fn : string) (t : list Event) (w : World) :
  (isAlreadyCleaned env fn (set_trace t w)).2 = (isAlreadyCleaned env fn w).2.
Proof.
  unfold isAlreadyCleaned. cbn [files alreadyCleaned set_trace].
  repeat (match goal with |- context [match ?x with _ => _ end] => destruct x end);
    reflexivity.
Qed.

Lemma isAlreadyCleaned_memo (env : Env) (fn : string) (w : World) :
  GoString.IsAbs fn = true -> is_Some (alreadyCleaned w !! fn) ->
  (isAlreadyCleaned env fn w).2 = true.
Proof.
  intros Habs [v Hv]. unfold isAlreadyCleaned. rewrite Habs. cbn [negb].
  rewrite Hv. reflexivity.
Qed.

Lemma absolute_IsAbs (env : Env) (fn p : string) :
  Abs_is_abs env -> absolute env fn = (p, None) -> GoString.IsAbs p = true.
Proof.
  intros Habs. unfold absolute. destruct (GoString.IsAbs fn) eqn:E; cbn [negb].
  - intros [= <-]. exact E.
  - apply Habs.
Qed.

(** A clean pass that ran to its end has put the path in the memo. *)
Lemma clean_uncached_remembers (env : Env) (fn : string) (w w1 : World) :
  clean_uncached env fn w = (w1, None) -> alreadyCleaned w1 !! fn = Some true.
Proof.
  unfold clean_uncached. unfold_M.
  destruct (check_cleaners env w) as [wa status].
  destruct (run_cleaner env status fn wa) as [wb [e|]]; [discriminate|].
  destruct (on_disk (os_Rename (fn +:+ "-cleaned.pdf") fn) wb) as [wc [e|]]; [discriminate|].
  unfold remember_cleaned. intros [= <-]. cbn [alreadyCleaned set_alreadyCleaned].
  destruct (negb (String.eqb (getHash env fn (files wc)) "")).
  - destruct (decide (getHash env fn (files wc) = fn)) as [->|Hne].
    + apply lookup_insert_eq.
    + rewrite lookup_insert_ne by exact Hne. apply lookup_insert_eq.
  - apply lookup_insert_eq.
Qed.

(** C4, as stated, fails: when the cleaning tool fails, nothing is put in
    the memo, and a second call on the unchanged file runs the tool again
    and fails again. *)
Lemma PdfClean_twice_runs_twice :
  let '(w1, err1) := PdfClean (host failing_run) "/work/a.pdf" one_pdf in
  let '(w2, err2) := PdfClean (host failing_run) "/work/a.pdf" w1 in
  files w1 = files one_pdf /\
  tally is_run (trace w2) = 2%nat /\
  err2 <> None.
Proof. vm_compute. split; [reflexivity | split; [reflexivity | discriminate]]. Qed.

(** C4 (amended): after a call of [PdfClean] that returned nil, a second
    call on the same path returns nil at once: it finds the path in the
    memo, runs no child process and leaves disk and memo as they are (the
    record only gains the start of the second pass). *)
Theorem PdfClean_second_call (env : Env) (fn : string) (w w1 : World) :
  Abs_is_abs env ->
  PdfClean env fn w = (w1, None) ->
  PdfClean env fn w1 = (set_trace (trace w1 ++ [EvClean fn]) w1, None).
Proof.
  intros Habs. unfold PdfClean, emit. unfold_M.
  destruct (absolute env fn) as [p [e|]] eqn:Ea; [discriminate|].
  pose proof (absolute_IsAbs _ _ _ Habs Ea) as Hp.
  set (w0 := set_trace (trace w ++ [EvClean fn]) w).
  set (w2 := set_trace (trace w1 ++ [EvClean fn]) w1).
  pose proof (isAlreadyCleaned_world env p w0) as Hw0.
  pose proof (isAlreadyCleaned_world env p w2) as Hw2.
  destruct (isAlreadyCleaned env p w0) as [w0' ok] eqn:E0. cbn [fst] in Hw0. subst w0'.
  intros H1.
  assert (Hok : (isAlreadyCleaned env p w2).2 = true).
  { unfold w2. rewrite isAlreadyCleaned_trace. destruct ok.
    - injection H1 as <-. rewrite E0. reflexivity.
    - apply isAlreadyCleaned_memo; [exact Hp|].
      rewrite (clean_uncached_remembers _ _ _ _ H1). eauto. }
  destruct (isAlreadyCleaned env p w2) as [w2' ok2]. cbn [fst snd] in *.
  subst w2' ok2. reflexivity.
Qed.

Lemma host_Abs_is_abs (run : Cmd -> Disk -> Disk * (list byte * option error)) :
  Abs_is_abs (host run).
Proof. intros p q [= <-]. reflexivity. Qed.

Lemma PdfClean_second_call_witness :
  let w1 := (PdfClean (host working_run) "/work/a.pdf" one_pdf).1 in
  PdfClean (host working_run) "/work/a.pdf" w1
  = (set_trace (trace w1 ++ [EvClean "/work/a.pdf"]) w1, None).
Proof.
  apply (PdfClean_second_call (host working_run) "/work/a.pdf" one_pdf).
  - apply host_Abs_is_abs.
  - vm_compute. reflexivity.
Defined.

(** *** Form fill, continued *)

(** Fetching the template runs at most the dump of the form data, never
    the form-fill tool. *)
Lemma getFdf_no_fill_form (env : Env) (inpfn : string) :
  emits (fun e => is_fill_form e = false) (getFdf env inpfn).
Proof.
  unfold getFdf, PdfDumpFdf, call. emits_auto.
  apply emits_execute_one. reflexivity.
Qed.

(** C5: with values that name a key the template does not have,
    [PdfFillFdf] returns the "field ... not exist" error of [Set] for such a
    key and leaves the world as fetching the template left it: the
    destination is not written, and the form-fill tool is not run. *)
Theorem PdfFillFdf_unknown_field (env : Env) (destfn inpfn : string)
    (values : list (string * string)) (w w1 : World) (fp : fieldParts) :
  getFdf env inpfn w = (w1, (fp, None)) ->
  (exists k v, (k, v) ∈ values /\ Values fp !! k = None) ->
  exists k v t,
    (k, v) ∈ values /\ Values fp !! k = None /\
    PdfFillFdf env destfn inpfn values w
    = (w1, Some (errors_New ("field " +:+ k +:+ " not exist"))) /\
    trace w1 = trace w ++ t /\
    tally is_fill_form t = 0%nat.
Proof.
  intros Hget Hex.
  destruct (set_all_unknown values fp Hex) as (k & v & fp' & Hin & Hk & Hall).
  destruct (getFdf_no_fill_form env inpfn _ _ _ Hget) as (t & Ht & Hquiet).
  exists k, v, t. split; [exact Hin | split; [exact Hk|]].
  split; [|split; [exact Ht|]].
  - unfold PdfFillFdf. destruct values as [|kv rest]; [inversion Hin|].
    cbn [length Nat.eqb]. unfold_M. rewrite Hget, Hall. reflexivity.
  - clear Ht. induction Hquiet as [|e t He _ IH]; [reflexivity|].
    cbn [tally]. rewrite He, IH. reflexivity.
Qed.

Lemma PdfFillFdf_unknown_field_witness :
  exists k v t,
    (k, v) ∈ [("zip", "1")] /\ Values (splitFdf empty_form) !! k = None /\
    PdfFillFdf (host working_run) "/work/out.pdf" "/work/a.pdf" [("zip", "1")] one_pdf
    = ((getFdf (host working_run) "/work/a.pdf" one_pdf).1,
       Some (errors_New ("field " +:+ k +:+ " not exist"))) /\
    trace (getFdf (host working_run) "/work/a.pdf" one_pdf).1 = trace one_pdf ++ t /\
    tally is_fill_form t = 0%nat.
Proof.
  apply (PdfFillFdf_unknown_field (host working_run) "/work/out.pdf" "/work/a.pdf"
           [("zip", "1")] one_pdf _ (splitFdf empty_form)).
  - vm_compute. reflexivity.
  - exists "zip", "1". split; [left | vm_compute; reflexivity].
Defined.

(** *** Page count *)

Lemma tally_app (f : Event -> bool) (a b : list Event) :
  tally f (a ++ b) = (tally f a + tally f b)%nat.
Proof. induction a as [|e a IH]; cbn [tally app]; [reflexivity | rewrite IH; lia]. Qed.

Lemma tally_none (f : Event -> bool) (t : list Event) :
  Forall (fun e => f e = false) t -> tally f t = 0%nat.
Proof.
  induction 1 as [|e t He _ IH]; [reflexivity|]. cbn [tally]. rewrite He, IH. reflexivity.
Qed.

(** One probe: its start, then the info tool. *)
Lemma pdfPageNum_trace (env : Env) (srcfn : string) (w : World) :
  trace (pdfPageNum env srcfn w).1
  = trace w ++ [EvProbe srcfn; EvRun (probe_cmd env srcfn)].
Proof.
  unfold pdfPageNum, probe_cmd, exec, emit, on_disk. unfold_M.
  cbn [files trace set_trace].
  destruct (negb (String.eqb (popplerOk env "pdfinfo") ""));
    (destruct (run env _ _) as [d [out e]];
     repeat (match goal with |- context [match ?x with _ => _ end] => destruct x end);
     cbn [fst trace set_files]; rewrite <- app_assoc; reflexivity).
Qed.

(** When the first probe already reports one page, the info tool is the
    only child process of the whole [PdfSplit] call. *)
Lemma PdfSplit_first_probe_one (env : Env) (srcfn : string) (w w1 : World)
    (encrypted : bool) :
  pdfPageNum env srcfn w = (w1, (1, encrypted, None)) ->
  PdfSplit env srcfn w = (w1, ([srcfn], None)) /\
  trace w1 = trace w ++ [EvProbe srcfn; EvRun (probe_cmd env srcfn)].
Proof.
  intros H. split.
  - unfold PdfSplit, PdfPageNum. unfold_M. rewrite H. reflexivity.
  - rewrite <- (pdfPageNum_trace env srcfn w), H. reflexivity.
Qed.

Lemma bind_emit {A : Type} (e : Event) (m : M A) (w : World) :
  (emit e ≫= (fun _ => m)) w = m (set_trace (trace w ++ [e]) w).
Proof. reflexivity. Qed.

(** The file a clean pass writes is not the file it cleans. *)
Lemma cleaned_name_ne (env : Env) (srcfn p : string) :
  Abs_is_abs env -> absolute env srcfn = (p, None) ->
  String.eqb (p +:+ "-cleaned.pdf") srcfn = false.
Proof.
  intros Habs Ha. apply String.eqb_neq. intros E.
  pose proof (absolute_IsAbs _ _ _ Habs Ha) as Hp.
  unfold absolute in Ha. destruct (GoString.IsAbs srcfn) eqn:Es; cbn [negb] in Ha.
  - injection Ha as <-.
    apply (f_equal String.length) in E.
    rewrite GoStringFacts.length_append in E. simpl in E. lia.
  - subst srcfn. destruct p as [|c p']; [cbv in Hp; discriminate Hp|].
    unfold GoString.IsAbs, GoString.HasPrefix in Hp, Es.
    change ((String c p') +:+ "-cleaned.pdf") with (String c (p' +:+ "-cleaned.pdf")) in Es.
    cbn [String.prefix] in Hp, Es. destruct (ascii_dec "/" c); [|discriminate Hp].
    destruct (p' +:+ "-cleaned.pdf"); discriminate Es.
Qed.

(** A clean pass: its start, then events that are neither the start of a
    clean pass nor a probe of the file being cleaned. *)
Lemma PdfClean_trace (env : Env) (srcfn : string) (w : World) :
  Abs_is_abs env ->
  exists tc,
    trace (PdfClean env srcfn w).1 = trace w ++ EvClean srcfn :: tc /\
    tally (is_probe_of srcfn) tc = 0%nat /\
    tally is_clean tc = 0%nat.
Proof.
  intros Habs. unfold PdfClean.
  assert (Hrest : emits (fun e => is_probe_of srcfn e = false /\ is_clean e = false)
            (match absolute env srcfn with
             | (_, Some e) => mret (Some e)
             | (fn, None) =>
                 ok ← isAlreadyCleaned env fn;
                 if ok : bool then mret None else clean_uncached env fn
             end)).
  { destruct (absolute env srcfn) as [p [e|]] eqn:Ea; emits_auto.
    - apply emits_isAlreadyCleaned.
    - apply emits_clean_uncached; [intros c; split; reflexivity|].
      split; [|reflexivity]. cbn [is_probe_of].
      apply (cleaned_name_ne _ _ _ Habs Ea). }
  rewrite bind_emit.
  match goal with
  | |- context [trace (?x).1] => destruct x as [w' r] eqn:E
  end.
  destruct (Hrest _ _ _ E) as (tc & Ht & Hq).
  exists tc. cbn [fst]. rewrite Ht. cbn [trace set_trace].
  rewrite <- app_assoc. split; [reflexivity|].
  split; apply tally_none; eapply Forall_impl; try exact Hq; intros e [? ?]; assumption.
Qed.

(** The cleaning step probes at most once: the cleaned copy, after a
    cleaning tool has run. *)
Lemma run_cleaner_probes (env : Env) (status : Z) (fn : string) (w : World) :
  exists t, trace (run_cleaner env status fn w).1 = trace w ++ t /\
            (tally is_probe t <= 1)%nat.
Proof.
  assert (Hcall : forall what args,
            emits (fun e => is_probe e = false) (call env what args))
    by (intros; apply emits_call; reflexivity).
  unfold run_cleaner. destruct (negb (status =? pcNothing)).
  - set (m := if negb (Z.land status pcPdfClean =? 0)
              then call env (if negb (Z.land status pcPdfClean =? 0)
                             then ConfPdfClean env else ConfMutool env)
                        ["-ggg"; fn; fn +:+ "-cleaned.pdf"]
              else call env (if negb (Z.land status pcPdfClean =? 0)
                             then ConfPdfClean env else ConfMutool env)
                        ["clean"; "-ggg"; fn; fn +:+ "-cleaned.pdf"]).
    assert (Hm : emits (fun e => is_probe e = false) m)
      by (unfold m; destruct (negb (Z.land status pcPdfClean =? 0)); apply Hcall).
    cbv zeta. fold m. unfold_M.
    destruct (m w) as [w1 err] eqn:E1.
    destruct (Hm _ _ _ E1) as (t1 & Ht1 & Hq1). apply tally_none in Hq1.
    destruct err as [e|].
    + exists t1. cbn [fst]. split; [exact Ht1 | lia].
    + pose proof (pdfPageNum_trace env (fn +:+ "-cleaned.pdf") w1) as H2.
      destruct (pdfPageNum env (fn +:+ "-cleaned.pdf") w1) as [w2 r]. cbn [fst] in *.
      exists (t1 ++ [EvProbe (fn +:+ "-cleaned.pdf");
                     EvRun (probe_cmd env (fn +:+ "-cleaned.pdf"))]).
      split; [rewrite H2, Ht1, <- app_assoc; reflexivity|].
      rewrite tally_app, Hq1. cbn [tally is_probe]. lia.
  - destruct (PdfRewrite env (fn +:+ "-cleaned.pdf") fn w) as [w1 r] eqn:E.
    destruct (emits_PdfRewrite env (fun e => is_probe e = false)
                (fun _ => eq_refl) _ _ _ _ _ E) as (t & Ht & Hq).
    exists t. cbn [fst]. split; [exact Ht|]. rewrite (tally_none _ _ Hq). lia.
Qed.

Lemma clean_uncached_probes (env : Env) (fn : string) (w : World) :
  exists t, trace (clean_uncached env fn w).1 = trace w ++ t /\
            (tally is_probe t <= 1)%nat.
Proof.
  unfold clean_uncached. unfold_M.
  assert (Ha : trace (check_cleaners env w).1 = trace w)
    by (unfold check_cleaners; destruct (pdfCleanStatus w =? pcNotChecked); reflexivity).
  destruct (check_cleaners env w) as [wa status]. cbn [fst] in Ha.
  destruct (run_cleaner_probes env status fn wa) as (t & Ht & Hn).
  destruct (run_cleaner env status fn wa) as [wb [e|]]; cbn [fst] in Ht.
  { exists t. cbn [fst]. rewrite Ht, Ha. split; [reflexivity | exact Hn]. }
  unfold on_disk.
  destruct (os_Rename (fn +:+ "-cleaned.pdf") fn (files wb)) as [d [e|]];
    exists t; cbn [fst trace set_files remember_cleaned set_alreadyCleaned];
    rewrite Ht, Ha; (split; [reflexivity | exact Hn]).
Qed.

(** A clean pass probes at most once. *)
Lemma PdfClean_probes (env : Env) (srcfn : string) (w : World) :
  exists tc,
    trace (PdfClean env srcfn w).1 = trace w ++ EvClean srcfn :: tc /\
    (tally is_probe tc <= 1)%nat.
Proof.
  unfold PdfClean. rewrite bind_emit.
  set (w0 := set_trace (trace w ++ [EvClean srcfn]) w).
  assert (Ht0 : trace w0 = trace w ++ [EvClean srcfn]) by reflexivity.
  unfold_M.
  destruct (absolute env srcfn) as [p [e|]].
  { exists []. cbn [fst]. rewrite Ht0. split; [reflexivity | cbn; lia]. }
  pose proof (isAlreadyCleaned_world env p w0) as Hw.
  destruct (isAlreadyCleaned env p w0) as [w1 ok]. cbn [fst] in Hw. subst w1.
  destruct ok.
  { exists []. cbn [fst]. rewrite Ht0. split; [reflexivity | cbn; lia]. }
  destruct (clean_uncached_probes env p w0) as (t & Ht & Hn).
  exists t. rewrite Ht, Ht0, <- app_assoc. split; [reflexivity | exact Hn].
Qed.

(** C8 (amended): [PdfPageNum] probes the page count once and returns the
    answer if the probe succeeded.  Only if it failed, it runs one clean
    pass and probes once more, and what this second probe answers is what
    the call returns, whatever the clean pass returned.  The record of
    such a call is: the probe, the clean pass, the probe; it holds one
    clean pass, two probes of the file, and at most three probes in all,
    the third being the clean pass's own look at the cleaned copy. *)
Theorem PdfPageNum_retries_once (env : Env) (srcfn : string) (w : World) :
  Abs_is_abs env ->
  let probe := [EvProbe srcfn; EvRun (probe_cmd env srcfn)] in
  let first := pdfPageNum env srcfn w in
  match first.2.2 with
  | None =>
      PdfPageNum env srcfn w = (first.1, (first.2.1.1, None)) /\
      trace first.1 = trace w ++ probe
  | Some _ =>
      let cleaned := PdfClean env srcfn first.1 in
      let second := pdfPageNum env srcfn cleaned.1 in
      PdfPageNum env srcfn w = (second.1, (second.2.1.1, second.2.2)) /\
      exists t tc,
        trace second.1 = trace w ++ t /\
        t = probe ++ EvClean srcfn :: tc ++ probe /\
        tally is_clean t = 1%nat /\
        tally (is_probe_of srcfn) t = 2%nat /\
        (tally is_probe t <= 3)%nat
  end.
Proof.
  intros Habs. cbv zeta. unfold PdfPageNum. unfold_M.
  pose proof (pdfPageNum_trace env srcfn w) as H1.
  destruct (pdfPageNum env srcfn w) as [w1 [[n enc] [e|]]]; cbn [fst snd] in *.
  - destruct (PdfClean_trace env srcfn w1 Habs) as (tc & H2 & Hp & Hc).
    destruct (PdfClean_probes env srcfn w1) as (tc' & H2' & Hn).
    assert (tc' = tc) as ->.
    { rewrite H2 in H2'. apply app_inv_head in H2'. congruence. }
    destruct (PdfClean env srcfn w1) as [w2 r]; cbn [fst] in *.
    pose proof (pdfPageNum_trace env srcfn w2) as H3.
    destruct (pdfPageNum env srcfn w2) as [w3 [[n' enc'] e']]; cbn [fst snd] in *.
    split; [reflexivity|].
    exists ([EvProbe srcfn; EvRun (probe_cmd env srcfn)]
            ++ EvClean srcfn :: tc ++ [EvProbe srcfn; EvRun (probe_cmd env srcfn)]), tc.
    split; [rewrite H3, H2, H1; rewrite <- !app_assoc; reflexivity|].
    split; [reflexivity|].
    cbn [app tally is_clean is_probe_of is_probe].
    rewrite !tally_app, Hp, Hc. cbn [tally is_probe_of is_clean is_probe].
    rewrite String.eqb_refl. repeat split; lia.
  - split; [reflexivity | exact H1].
Qed.

Lemma PdfPageNum_retries_once_witness :
  let env := host blind_run in
  let probe := [EvProbe "a.pdf"; EvRun (probe_cmd env "a.pdf")] in
  let first := pdfPageNum env "a.pdf" one_pdf in
  let cleaned := PdfClean env "a.pdf" first.1 in
  let second := pdfPageNum env "a.pdf" cleaned.1 in
  PdfPageNum env "a.pdf" one_pdf = (second.1, (second.2.1.1, second.2.2)) /\
  exists t tc,
    trace second.1 = trace one_pdf ++ t /\
    t = probe ++ EvClean "a.pdf" :: tc ++ probe /\
    tally is_clean t = 1%nat /\
    tally (is_probe_of "a.pdf") t = 2%nat /\
    (tally is_probe t <= 3)%nat.
Proof.
  exact (PdfPageNum_retries_once (host blind_run) "a.pdf" one_pdf
           (host_Abs_is_abs blind_run)).
Defined.

(** C8, as stated, fails in its bound: when the info tool fails and the
    cleaning tool works, one call of [PdfPageNum] probes three times, twice
    the file and once the cleaned copy. *)
Lemma PdfPageNum_three_probes :
  let t := trace (PdfPageNum (host blind_run) "a.pdf" one_pdf).1 in
  tally is_probe t = 3%nat /\
  tally (is_probe_of "a.pdf") t = 2%nat /\
  tally (is_probe_of "/work/a.pdf-cleaned.pdf") t = 1%nat /\
  tally is_clean t = 1%nat.
Proof. vm_compute. repeat split. Qed.

End PdfFacts.

(** ** More on content types *)

Module ContentTypeMore.
Import GoString GoStringFacts ContentType ContentTypeFacts.

Local Arguments String.append !_ _ / : simpl nomatch.

(** X1: [fixCT] is idempotent: correcting a corrected type changes nothing. *)
Theorem fixCT_idempotent (contentType fileName : string) :
  fixCT (fixCT contentType fileName) fileName = fixCT contentType fileName.
Proof. apply fixCT_idem. Qed.

Lemma fixCT_zip_values (fileName : string) :
  fixCT "application/zip" fileName ∈
    [ct_docx; ct_xlsx; ct_pptx; "application/zip"].
Proof.
  rewrite (fixCT_zip_ext "application/zip") by (left; reflexivity). cbv zeta.
  destruct (3 <? len (Ext fileName)); [|set_solver].
  destruct (String.eqb (Ext fileName) ".docx"); [set_solver|].
  destruct (String.eqb (Ext fileName) ".xlsx"); [set_solver|].
  destruct (String.eqb (Ext fileName) ".pptx"); set_solver.
Qed.

Lemma fixCT_alias_moves (a fileName : string) :
  a ∈ aliases -> fixCT a fileName <> a.
Proof.
  unfold aliases. intros Ha.
  repeat (apply elem_of_cons in Ha as [-> | Ha]); try (inversion Ha; fail);
    try discriminate.
  pose proof (fixCT_zip_values fileName) as Hz.
  change (fixCT "application/x-zip-compressed" fileName)
    with (fixCT "application/zip" fileName).
  intros E. rewrite E in Hz.
  repeat (apply elem_of_cons in Hz as [Hz | Hz]; [discriminate Hz|]).
  inversion Hz.
Qed.

(** X2: [fixCT] never answers one of the aliases it corrects. *)
Theorem fixCT_never_alias (contentType fileName : string) :
  Forall (fun a => fixCT contentType fileName <> a) aliases.
Proof.
  apply Forall_forall. intros a Ha E. rewrite <- E in Ha.
  apply (fixCT_alias_moves _ fileName Ha). apply fixCT_idem.
Qed.

Lemma FixContentType_is_fixed (M : string -> list byte -> string)
    (T : string -> string) (body : list byte) (contentType fileName : string) :
  exists x, FixContentType M T body contentType fileName = fixCT x fileName.
Proof.
  unfold FixContentType, by_extension. cbv zeta.
  repeat match goal with
         | |- context [if ?b then _ else _] => destruct b
         | |- context [match ?o with Some _ => _ | None => _ end] => destruct o
         end; eauto.
Qed.

(** X3: Whatever the sniffer and the extension table of the runtime answer,
    the content type [FixContentType] settles on is in corrected form. *)
Theorem FixContentType_canonical (M : string -> list byte -> string)
    (T : string -> string) (body : list byte) (contentType fileName : string) :
  let ct := FixContentType M T body contentType fileName in
  fixCT ct fileName = ct /\ ct ∉ aliases.
Proof.
  cbv zeta.
  destruct (FixContentType_is_fixed M T body contentType fileName) as [x ->].
  split; [apply fixCT_idem|].
  intros Ha. apply (fixCT_alias_moves _ fileName Ha). apply fixCT_idem.
Qed.

Lemma prefix_nil (s : string) : String.prefix "" s = true.
Proof. destruct s; reflexivity. Qed.

(** X4: The major type decides for what has no rule of its own: every
    [image/...] type is converted as an image, every [text/...] type has a
    converter, and no [audio/...] or [video/...] type has one. *)
Theorem GetConverter_by_major (rest : string)
    (mediaType : option (gmap string string)) :
  GetConverter ("image/" +:+ rest) mediaType = Some ImageToPdf /\
  is_nil (GetConverter ("text/" +:+ rest) mediaType) = false /\
  GetConverter ("audio/" +:+ rest) mediaType = None /\
  GetConverter ("video/" +:+ rest) mediaType = None.
Proof.
  repeat split.
  - destruct rest; reflexivity.
  - unfold GetConverter.
    destruct (String.eqb ("text/" +:+ rest) "text/plain").
    { destruct mediaType as [mt|]; [|reflexivity].
      destruct (mt !! "charset") as [cs|]; [|reflexivity].
      destruct (negb (String.eqb cs "")); reflexivity. }
    destruct (String.eqb ("text/" +:+ rest) "text/html"); [reflexivity|].
    destruct rest; reflexivity.
  - destruct rest; reflexivity.
  - destruct rest; reflexivity.
Qed.

(** X5: A type that carries one of the office vendor prefixes goes to the
    office converter: no exact case stands before it. *)
Theorem GetConverter_office_like (contentType : string)
    (mediaType : option (gmap string string)) :
  office_like contentType = true ->
  GetConverter contentType mediaType = Some OfficeToPdf.
Proof.
  intros Ho. unfold GetConverter.
  repeat match goal with
         | |- context [String.eqb contentType ?c] =>
             destruct (String.eqb_spec contentType c) as [-> | _];
             [first [reflexivity | discriminate Ho]|]
         end.
  rewrite Ho. reflexivity.
Qed.

Lemma GetConverter_office_like_witness :
  office_like "application/vnd.ms-excel.sheet.macroEnabled.12" = true /\
  GetConverter "application/vnd.ms-excel.sheet.macroEnabled.12" None
  = Some OfficeToPdf.
Proof.
  split; [reflexivity|].
  apply (GetConverter_office_like
           "application/vnd.ms-excel.sheet.macroEnabled.12" None).
  reflexivity.
Defined.

(** X6: The media-type parameters never decide whether there is a converter,
    and they change the converter for [text/plain] only. *)
Theorem GetConverter_mediaType (contentType : string)
    (mediaType : option (gmap string string)) :
  is_nil (GetConverter contentType mediaType)
  = is_nil (GetConverter contentType None) /\
  (contentType <> "text/plain" ->
   GetConverter contentType mediaType = GetConverter contentType None).
Proof.
  unfold GetConverter.
  destruct (String.eqb contentType "application/pdf"); [tauto|].
  destruct (String.eqb contentType "application/rtf"); [tauto|].
  destruct (String.eqb_spec contentType "text/plain") as [-> | Hne]; [|tauto].
  split; [|congruence].
  destruct mediaType as [mt|]; [|reflexivity].
  destruct (mt !! "charset") as [cs|]; [|reflexivity].
  destruct (negb (String.eqb cs "")); reflexivity.
Qed.

Lemma ExtContentType_entries (ext ct : string) :
  ExtContentType !! ext = Some ct ->
  is_nil (GetConverter ct None) = false /\ forall fn, fixCT ct fn = ct.
Proof.
  intros H. unfold ExtContentType in H.
  apply elem_of_list_to_map_2 in H.
  repeat (apply elem_of_cons in H as [H | H];
          [injection H as -> ->; split; [reflexivity | intros fn; reflexivity]|]).
  inversion H.
Qed.

(** X7: Every content type of the extension table has a converter and is in
    corrected form, whatever the file is called. *)
Theorem ExtContentType_convertible (ext ct fileName : string) :
  ExtContentType !! ext = Some ct ->
  is_nil (GetConverter ct None) = false /\ fixCT ct fileName = ct.
Proof.
  intros H. destruct (ExtContentType_entries ext ct H) as [Hc Hf].
  split; [exact Hc | apply Hf].
Qed.

Lemma ExtContentType_convertible_witness :
  ExtContentType !! "ods" = Some "application/vnd.oasis.spreadsheet" /\
  is_nil (GetConverter "application/vnd.oasis.spreadsheet" None) = false /\
  fixCT "application/vnd.oasis.spreadsheet" "budget.zip"
  = "application/vnd.oasis.spreadsheet".
Proof.
  split; [reflexivity|].
  apply (ExtContentType_convertible "ods" "application/vnd.oasis.spreadsheet"
           "budget.zip").
  reflexivity.
Defined.

(** X8: A declared type that has a converter is trusted: the bytes are not
    sniffed and the file name is not consulted, except when the name ends
    in [.pdf] and the type is not PDF. *)
Theorem FixContentType_trusts_declared (M : string -> list byte -> string)
    (T : string -> string) (body : list byte) (contentType fileName : string) :
  let ct := fixCT contentType fileName in
  is_nil (GetConverter ct None) = false ->
  (Ext fileName = ".pdf" -> ct = "application/pdf") ->
  FixContentType M T body contentType fileName = ct.
Proof.
  cbv zeta. intros Hc Hp.
  assert (fixCT contentType fileName <> "") as He.
  { intros E. rewrite E in Hc. discriminate Hc. }
  assert (fixCT contentType fileName <> "application/octet-stream") as Ho.
  { intros E. rewrite E in Hc. discriminate Hc. }
  unfold FixContentType, by_extension. cbv zeta.
  assert (String.eqb (Ext fileName) ".pdf"
          && negb (String.eqb (fixCT contentType fileName) "application/pdf")
          = false) as ->.
  { destruct (String.eqb_spec (Ext fileName) ".pdf") as [E | _]; [|reflexivity].
    rewrite (Hp E). reflexivity. }
  rewrite Hc.
  destruct (String.eqb_spec (fixCT contentType fileName) "") as [E | _];
    [contradiction|].
  destruct (String.eqb_spec (fixCT contentType fileName)
              "application/octet-stream") as [E | _]; [contradiction|].
  cbn [andb orb]. rewrite andb_false_r. reflexivity.
Qed.

Lemma FixContentType_trusts_declared_witness :
  FixContentType Scenario.magic_sniffer Scenario.builtin_TypeByExtension
    Scenario.zip_magic "image/pdf" "scan.pdf" = "application/pdf".
Proof.
  apply (FixContentType_trusts_declared Scenario.magic_sniffer
           Scenario.builtin_TypeByExtension Scenario.zip_magic
           "image/pdf" "scan.pdf");
    [reflexivity | reflexivity].
Defined.

End ContentTypeMore.

(** ** More on FDF templates *)

Module FdfMore.
Import GoBytes GoError Fdf FdfFacts.
Local Open Scope list_scope.

Lemma HasPrefix_take (m : nat) (t sep : list byte) :
  HasPrefix (take m t) sep = true -> HasPrefix t sep = true.
Proof.
  revert m t; induction sep as [|p sep IH]; intros m t H;
    [destruct t; reflexivity|].
  destruct m as [|m]; destruct t as [|c t]; cbn in H; try discriminate.
  cbn. apply andb_true_iff in H as [Hc H]. rewrite Hc. cbn. exact (IH _ _ H).
Qed.

(** [bytes.Index] finds the first occurrence: [sep] fits nowhere before. *)
Lemma index_from_first (s sep : list byte) (n : nat) :
  index_from s sep = Some n ->
  forall j, (j < n)%nat -> HasPrefix (drop j s) sep = false.
Proof.
  revert n; induction s as [|c s IH]; intros n H j Hj; cbn [index_from] in H.
  - destruct (HasPrefix [] sep); [|discriminate]. injection H as <-. lia.
  - destruct (HasPrefix (c :: s) sep) eqn:E.
    + injection H as <-. lia.
    + destruct (index_from s sep) as [m|] eqn:Em; [|discriminate].
      injection H as <-. destruct j as [|j]; [exact E|].
      cbn [drop]. apply (IH m eq_refl). lia.
Qed.

Lemma Index_take_absent (s sep : list byte) (n : nat) :
  sep <> [] -> index_from s sep = Some n -> Index (take n s) sep = -1.
Proof.
  intros Hsep H. unfold Index.
  destruct (index_from (take n s) sep) as [j|] eqn:Ej; [|reflexivity].
  exfalso. destruct (index_from_Some _ _ _ Ej) as [Hl Hp].
  rewrite length_take in Hl.
  assert (0 < length sep)%nat by (destruct sep; [contradiction | simpl; lia]).
  assert (Hj : (j < n)%nat) by lia.
  pose proof (index_from_first _ _ _ H j Hj) as Hf.
  rewrite skipn_firstn_comm in Hp. apply HasPrefix_take in Hp. congruence.
Qed.

Lemma split_loop_marker_free (fuel : nat) (fdf : list byte) :
  (length fdf < fuel)%nat ->
  Forall (fun part => Contains part fieldPartV = false) (split_loop fuel fdf []).
Proof.
  revert fdf; induction fuel as [|fuel IH]; intros fdf Hf; [lia|].
  cbn [split_loop]. destruct (Index fdf fieldPartV <? 0) eqn:Ei.
  - constructor; [|constructor]. unfold Contains.
    apply Z.ltb_lt in Ei. apply Z.leb_gt. exact Ei.
  - rewrite split_loop_acc. constructor.
    + unfold Contains, slice_to. unfold Index in Ei |- *.
      destruct (index_from fdf fieldPartV) as [n|] eqn:En; [|discriminate].
      rewrite Nat2Z.id.
      change (match index_from (take n fdf) fieldPartV with
              | Some n0 => Z.of_nat n0 | None => -1 end)
        with (Index (take n fdf) fieldPartV).
      rewrite (Index_take_absent fdf fieldPartV n); [reflexivity | discriminate | exact En].
    + destruct (Index_found _ _ Ei) as (n & En & Hl & _).
      rewrite fieldPartV_length in Hl.
      apply IH. unfold slice_from, len.
      rewrite length_drop, En, fieldPartV_length. lia.
Qed.

(** X9: Round trip: the parts of a template, joined by the marker, are the
    form again, byte for byte; cutting loses nothing. *)
Theorem splitFdf_round_trip (fdf : list byte) :
  Join (Parts (splitFdf fdf)) fieldPartV = fdf.
Proof. rewrite splitFdf_Parts. apply split_loop_Join. lia. Qed.

(** X10: No part of a template contains the marker: [splitFdf] cuts the form
    at every one of them. *)
Theorem splitFdf_parts_marker_free (fdf : list byte) :
  Forall (fun part => Contains part fieldPartV = false) (Parts (splitFdf fdf)).
Proof. rewrite splitFdf_Parts. apply split_loop_marker_free. lia. Qed.

Lemma collect_fields_values (parts : list (list byte)) (fields : list string)
    (values : gmap string string) (k v : string) :
  (collect_fields parts fields values).2 !! k = Some v <->
  (k ∈ omap field_key parts /\ v = "") \/
  ((k ∉ omap field_key parts) /\ values !! k = Some v).
Proof.
  revert fields values; induction parts as [|part rest IH]; intros fields values.
  - cbn. split; [intros H; right; split; [intros Hin; inversion Hin | exact H]|].
    intros [[Hin _] | [_ H]]; [inversion Hin | exact H].
  - cbn [collect_fields].
    change (omap field_key (part :: rest))
      with (match field_key part with
            | Some y => y :: omap field_key rest
            | None => omap field_key rest
            end).
    destruct (field_key part) as [key|]; [|apply IH].
    rewrite IH, elem_of_cons. destruct (decide (k = key)) as [->|Hne].
    + rewrite lookup_insert_eq. split.
      * intros [[Hin ->] | [Hn Hv]]; left; split; auto; congruence.
      * intros [[_ ->] | [Hn _]]; [|exfalso; apply Hn; left; reflexivity].
        destruct (decide (key ∈ omap field_key rest)); [left | right]; auto.
    + rewrite lookup_insert_ne by congruence. intuition congruence.
Qed.

Lemma splitFdf_Values_blank (fdf : list byte) (k v : string) :
  Values (splitFdf fdf) !! k = Some v -> v = "".
Proof.
  unfold splitFdf.
  pose proof (collect_fields_values (split_loop (S (length fdf)) fdf []) [] ∅ k v)
    as H.
  destruct (collect_fields _ _ _) as [fields values]. cbn [Values snd] in *.
  rewrite H, lookup_empty. intros [[_ ?]|[_ ?]]; [assumption | discriminate].
Qed.

(** X11: A fresh template knows exactly the fields it lists, each with the
    empty value. *)
Theorem splitFdf_Values_empty (fdf : list byte) (k v : string) :
  Values (splitFdf fdf) !! k = Some v <-> k ∈ Fields (splitFdf fdf) /\ v = "".
Proof.
  rewrite splitFdf_Fields. unfold splitFdf.
  pose proof (collect_fields_values (split_loop (S (length fdf)) fdf []) [] ∅ k v)
    as H.
  destruct (collect_fields _ _ _) as [fields values]. cbn [Parts Values snd] in *.
  rewrite H, lookup_empty. split; [intros [?|[_ ?]]; [assumption | discriminate] | auto].
Qed.

Lemma write_loop_None (enc : string -> list Z) (fp : fieldParts)
    (parts : list (list byte)) (i : nat) (buf : list byte) :
  write_loop enc fp (Z.of_nat (i + length parts) - 1) i parts buf = None <->
  (2 <= length parts /\ length (Fields fp) + 2 <= i + length parts)%nat.
Proof.
  revert i buf; induction parts as [|part rest IH]; intros i buf.
  - cbn. split; [discriminate | lia].
  - cbn [write_loop length].
    destruct (Z.eqb_spec (Z.of_nat i) (Z.of_nat (i + S (length rest)) - 1)) as [E|E].
    + split; [discriminate | lia].
    + destruct (Fields fp !! i) as [field|] eqn:Ef.
      * replace (i + S (length rest))%nat with (S i + length rest)%nat by lia.
        rewrite IH. apply lookup_lt_Some in Ef. lia.
      * apply lookup_ge_None in Ef. split; [lia | reflexivity].
Qed.

Lemma WriteTo_aligned (enc : string -> list Z) (fp : fieldParts) :
  Parts fp <> [] -> (length (Parts fp) <= length (Fields fp) + 1)%nat ->
  is_Some (WriteTo enc fp).
Proof.
  intros Hne Hal. unfold WriteTo. cbv zeta.
  pose proof (write_loop_None enc fp (Parts fp) 0 []) as H. cbn [Nat.add] in H.
  assert (Hlen : (0 < length (Parts fp))%nat)
    by (destruct (Parts fp); [contradiction | cbn [length]; lia]).
  destruct (write_loop enc fp _ 0 (Parts fp) []) as [buf|];
    [|destruct H as [H _]; specialize (H eq_refl); lia].
  assert ((Z.of_nat (length (Parts fp)) - 1 <? 0) = false) as ->
    by (apply Z.ltb_ge; lia).
  destruct (lookup_lt_is_Some_2 (Parts fp) (Z.to_nat (Z.of_nat (length (Parts fp)) - 1)))
    as [lst ->]; [lia | eauto].
Qed.

(** X13: [WriteTo] panics exactly on a template without parts and on one that
    lists too few fields for its markers; otherwise it returns. *)
Theorem WriteTo_panics_iff (enc : string -> list Z) (fp : fieldParts) :
  WriteTo enc fp = None <->
  Parts fp = [] \/ (length (Fields fp) + 1 < length (Parts fp))%nat.
Proof.
  unfold WriteTo. cbv zeta.
  destruct (Parts fp) as [|p ps] eqn:Ep.
  { cbn. split; [auto | reflexivity]. }
  pose proof (write_loop_None enc fp (p :: ps) 0 []) as H.
  cbn [Nat.add] in H.
  destruct (write_loop enc fp _ 0 (p :: ps) []) as [buf|].
  - assert (Hl : (Z.of_nat (length (p :: ps)) - 1 <? 0) = false)
      by (apply Z.ltb_ge; cbn [length]; lia).
    rewrite Hl.
    destruct (lookup_lt_is_Some_2 (p :: ps) (Z.to_nat (Z.of_nat (length (p :: ps)) - 1)))
      as [last ->]; [cbn [length]; lia|].
    split; [discriminate|]. intros [Hn | Hlt]; [discriminate|].
    destruct H as [_ H].
    assert (Some buf = None) as Hnone by (apply H; cbn [length] in *; lia).
    discriminate Hnone.
  - split; [|reflexivity]. intros _. right. destruct H as [H _].
    specialize (H eq_refl). cbn [length] in *. lia.
Qed.

Lemma field_bytes_empty (enc : string -> list Z) : field_bytes enc "" = fieldPartV.
Proof. reflexivity. Qed.

Lemma Join_snoc (parts : list (list byte)) (last sep : list byte) :
  parts <> [] ->
  Join (parts ++ [last]) sep = Join parts sep ++ sep ++ last.
Proof.
  induction parts as [|p [|q rest] IH]; intros Hne; [contradiction | reflexivity|].
  change (Join ((p :: q :: rest) ++ [last]) sep)
    with (p ++ sep ++ Join ((q :: rest) ++ [last]) sep).
  rewrite IH by discriminate.
  change (Join (p :: q :: rest) sep) with (p ++ sep ++ Join (q :: rest) sep).
  rewrite <- !app_assoc. reflexivity.
Qed.

(** What the loop of [WriteTo] has written when no field has a value:
    every part but the last, each followed by the marker. *)
Lemma write_loop_unfilled (enc : string -> list Z) (fp : fieldParts)
    (parts : list (list byte)) (i : nat) (buf out : list byte) :
  (forall k v, Values fp !! k = Some v -> v = "") ->
  write_loop enc fp (Z.of_nat (i + length parts) - 1) i parts buf = Some out ->
  forall lst, last parts = Some lst ->
  out ++ lst = buf ++ Join parts fieldPartV.
Proof.
  intros Hv. revert i buf; induction parts as [|part rest IH]; intros i buf H lst Hl.
  - discriminate Hl.
  - cbn [write_loop length] in H.
    destruct (Z.eqb_spec (Z.of_nat i) (Z.of_nat (i + S (length rest)) - 1)) as [E|E].
    + injection H as <-. destruct rest; [|cbn [length] in E; lia].
      cbn in Hl. injection Hl as ->. reflexivity.
    + destruct (Fields fp !! i) as [field|] eqn:Ef; [|discriminate H].
      assert (default "" (Values fp !! field) = "") as Hd.
      { destruct (Values fp !! field) as [v|] eqn:Ev; [apply (Hv _ _ Ev) | reflexivity]. }
      rewrite Hd, field_bytes_empty in H.
      replace (i + S (length rest))%nat with (S i + length rest)%nat in H by lia.
      destruct rest as [|q rest]; [cbn [length] in E; lia|].
      rewrite (IH _ _ H lst) by exact Hl.
      change (Join (part :: q :: rest) fieldPartV)
        with (part ++ fieldPartV ++ Join (q :: rest) fieldPartV).
      rewrite <- !app_assoc. reflexivity.
Qed.

Lemma last_lookup_Z {A : Type} (l : list A) :
  l !! Z.to_nat (Z.of_nat (length l) - 1) = last l \/ l = [].
Proof.
  induction l as [|x [|y l] IH]; [right; reflexivity | left; reflexivity|].
  left. destruct IH as [IH | IH]; [|discriminate].
  replace (Z.to_nat (Z.of_nat (length (x :: y :: l)) - 1))
    with (S (Z.to_nat (Z.of_nat (length (y :: l)) - 1))) by (cbn [length]; lia).
  exact IH.
Qed.

(** Writing a template in which no field has a value gives back its parts
    joined by the marker, whenever [WriteTo] returns. *)
Lemma WriteTo_unfilled (enc : string -> list Z) (fp : fieldParts) (out : list byte) :
  (forall k v, Values fp !! k = Some v -> v = "") ->
  WriteTo enc fp = Some out -> out = Join (Parts fp) fieldPartV.
Proof.
  intros Hv. unfold WriteTo. cbv zeta.
  destruct (write_loop enc fp _ 0 (Parts fp) []) as [buf|] eqn:Ew; [|discriminate].
  destruct (Z.of_nat (length (Parts fp)) - 1 <? 0); [discriminate|].
  destruct (Parts fp !! _) as [lst|] eqn:El; [|discriminate].
  intros [= <-].
  destruct (last_lookup_Z (Parts fp)) as [Hl | Hn];
    [|rewrite Hn in El; discriminate El].
  rewrite El in Hl. symmetry in Hl.
  apply (write_loop_unfilled enc fp (Parts fp) 0 [] buf Hv Ew lst Hl).
Qed.

(** X14: Round trip: when the template of a form is aligned, one field at most
    per marker missing, writing it unfilled reproduces the form byte for
    byte. *)
Theorem WriteTo_splitFdf (enc : string -> list Z) (fdf : list byte) :
  (length (Parts (splitFdf fdf)) <= length (Fields (splitFdf fdf)) + 1)%nat ->
  WriteTo enc (splitFdf fdf) = Some fdf.
Proof.
  intros Hal.
  assert (Hne : Parts (splitFdf fdf) <> [])
    by (rewrite splitFdf_Parts; apply split_loop_Join; lia).
  destruct (WriteTo_aligned enc (splitFdf fdf) Hne Hal) as [out Ew].
  rewrite Ew. f_equal. rewrite (WriteTo_unfilled enc (splitFdf fdf) out);
    [rewrite splitFdf_Parts; apply split_loop_Join; lia | | exact Ew].
  intros k v Hk. exact (splitFdf_Values_blank fdf k v Hk).
Qed.

Lemma WriteTo_splitFdf_witness :
  WriteTo Scenario.ascii_units (splitFdf Scenario.empty_form)
  = Some Scenario.empty_form.
Proof.
  apply (WriteTo_splitFdf Scenario.ascii_units Scenario.empty_form).
  vm_compute. lia.
Defined.

Lemma index_from_None (s sep : list byte) :
  index_from s sep = None <-> forall j, HasPrefix (drop j s) sep = false.
Proof.
  induction s as [|c s IH]; cbn [index_from].
  - destruct (HasPrefix [] sep) eqn:E.
    + split; [discriminate|]. intros H. specialize (H O). rewrite drop_0 in H. congruence.
    + split; [|reflexivity]. intros _ j. rewrite drop_nil. exact E.
  - destruct (HasPrefix (c :: s) sep) eqn:E.
    + split; [discriminate|]. intros H. specialize (H O). rewrite drop_0 in H. congruence.
    + destruct (index_from s sep) as [m|].
      * split; [discriminate|]. intros H. destruct IH as [_ IH].
        discriminate IH. intros j. apply (H (S j)).
      * split; [|reflexivity]. intros _ [|j]; [exact E|].
        cbn [drop]. apply IH. reflexivity.
Qed.

Lemma Contains_false (s sep : list byte) :
  Contains s sep = false <-> index_from s sep = None.
Proof.
  unfold Contains, Index. destruct (index_from s sep) as [n|].
  - split; [|discriminate]. intros H. apply Z.leb_gt in H. lia.
  - split; reflexivity.
Qed.

Lemma Contains_drop (k : nat) (s sep : list byte) :
  Contains s sep = false -> Contains (drop k s) sep = false.
Proof.
  rewrite !Contains_false, !index_from_None. intros H j.
  rewrite drop_drop. apply H.
Qed.

Lemma Contains_take_first (s sep : list byte) (n : nat) :
  sep <> [] -> Index s sep = Z.of_nat n -> Contains (take n s) sep = false.
Proof.
  intros Hsep H. unfold Contains. rewrite (Index_take_absent s sep n Hsep); [reflexivity|].
  unfold Index in H. destruct (index_from s sep) as [m|]; [f_equal; lia | lia].
Qed.

Lemma to_string_length (b : list byte) :
  String.length (to_string b) = length b.
Proof. induction b as [|c b IH]; [reflexivity|]. cbn. f_equal. exact IH. Qed.

(** X12: The name [splitFdf] reads off a part lies between the first [/T (] and
    the first closing [)\n>>] after it.  The closing bracket is found at
    least four bytes after the opening one, so the slice
    [part[i+4 : j]] is within bounds, and the name is the shortest one
    that fits. *)
Theorem field_key_Some (part : list byte) (key : string) :
  field_key part = Some key ->
  exists pre post,
    part = pre ++ field_open ++ of_string key ++ field_close ++ post /\
    Index part field_open = len pre /\
    Index (slice_from part (len pre)) field_close = 4 + GoString.len key /\
    Contains pre field_open = false /\
    Contains (of_string key) field_close = false.
Proof.
  unfold field_key. cbv zeta.
  destruct (Index part field_open <? 0) eqn:Ei; [discriminate|].
  destruct (Index_found _ _ Ei) as (n & En & Hn & Hpart).
  rewrite En. unfold slice_from at 1 2. rewrite Nat2Z.id.
  destruct (Index (drop n part) field_close <? 0) eqn:Ej; [discriminate|].
  destruct (Index_found _ _ Ej) as (m & Em & Hm & HD).
  rewrite Em. intros [= <-].
  change (length field_open) with 4%nat in *.
  change (length field_close) with 4%nat in *.
  set (R := drop (n + 4) part) in *.
  assert (HDR : drop n part = field_open ++ R).
  { rewrite Hpart at 1. rewrite drop_app_length'; [reflexivity|].
    rewrite length_take. lia. }
  assert (Hm4 : (4 <= m)%nat).
  { assert (Hp : HasPrefix (drop m (drop n part)) field_close = true).
    { unfold Index in Em. destruct (index_from (drop n part) field_close) as [m'|] eqn:E';
        [|lia].
      assert (m' = m) by lia; subst m'. apply (index_from_Some _ _ _ E'). }
    rewrite HDR in Hp.
    destruct m as [|[|[|[|m]]]]; try (cbn in Hp; discriminate Hp). lia. }
  assert (Hkey : slice part (Z.of_nat n + 4) (Z.of_nat m + Z.of_nat n)
                 = take (m - 4) R).
  { unfold slice, R. f_equal; [lia|]. f_equal. lia. }
  rewrite Hkey.
  assert (Hof : of_string (to_string (take (m - 4) R)) = take (m - 4) R)
    by apply String.list_byte_of_string_of_list_byte.
  assert (Htake : take m (drop n part) = field_open ++ take (m - 4) R).
  { rewrite HDR. rewrite take_app. change (length field_open) with 4%nat.
    rewrite take_ge by (change (length field_open) with 4%nat; lia). reflexivity. }
  assert (Hlen : GoString.len (to_string (take (m - 4) R)) = Z.of_nat (m - 4)).
  { unfold GoString.len. rewrite to_string_length, length_take.
    assert (length (drop n part) = 4 + length R)%nat
      by (rewrite HDR, length_app; reflexivity).
    lia. }
  exists (take n part), (drop (m + 4) (drop n part)).
  assert (Hpre : len (take n part) = Z.of_nat n)
    by (unfold len; rewrite length_take; lia).
  rewrite Hof, Hpre, Hlen. unfold slice_from. rewrite Nat2Z.id.
  split; [|split; [reflexivity | split; [lia | split]]].
  - rewrite Hpart at 1. f_equal. fold R.
    rewrite <- HDR. rewrite HD at 1. rewrite Htake, <- app_assoc. reflexivity.
  - apply Contains_take_first; [discriminate | exact En].
  - assert (Hc : Contains (take m (drop n part)) field_close = false)
      by (apply Contains_take_first; [discriminate | exact Em]).
    rewrite Htake in Hc. apply (Contains_drop 4) in Hc. exact Hc.
Qed.

Lemma field_key_Some_witness :
  exists pre post,
    of_string "x /T (city)
>> y"
    = pre ++ field_open ++ of_string "city" ++ field_close ++ post /\
    Index (of_string "x /T (city)
>> y") field_open = len pre /\
    Index (slice_from (of_string "x /T (city)
>> y") (len pre)) field_close = 4 + GoString.len "city" /\
    Contains pre field_open = false /\
    Contains (of_string "city") field_close = false.
Proof.
  apply (field_key_Some (of_string "x /T (city)
>> y") "city").
  vm_compute. reflexivity.
Defined.

End FdfMore.

(** ** More on the PDF tools *)

Module PdfMore.
Import GoError GoBytes Fdf Pdf PdfSpec PdfFrame Scenario PdfFacts.
Local Open Scope list_scope.

(** *** Filling in values *)

Lemma Set_spec (fp : fieldParts) (k v : string) :
  is_Some (Values fp !! k) ->
  Set_ fp k v = (mkFieldParts (Parts fp) (Fields fp) (<[k := v]> (Values fp)), None).
Proof. intros [x Hx]. unfold Set_. rewrite Hx. reflexivity. Qed.

Lemma set_all_fold (values : list (string * string)) (fp : fieldParts) :
  (forall k, k ∈ values.*1 -> is_Some (Values fp !! k)) ->
  set_all fp values
  = (mkFieldParts (Parts fp) (Fields fp)
       (foldl (fun m kv => <[kv.1 := kv.2]> m) (Values fp) values), None).
Proof.
  revert fp; induction values as [|[k v] rest IH]; intros fp Hk.
  - destruct fp; reflexivity.
  - cbn [set_all]. rewrite Set_spec by (apply (Hk k); left).
    rewrite IH; [reflexivity|]. cbn [Values]. intros k' Hin.
    apply lookup_insert_is_Some'. right. apply (Hk k'). right. exact Hin.
Qed.

Lemma foldl_insert_union (values : list (string * string)) (m : gmap string string) :
  NoDup values.*1 ->
  foldl (fun m kv => <[kv.1 := kv.2]> m) m values = list_to_map values ∪ m.
Proof.
  revert m; induction values as [|[k v] rest IH]; intros m Hnd.
  - cbn. rewrite (left_id_L ∅ (∪)). reflexivity.
  - cbn [fmap list_fmap fst] in Hnd. apply NoDup_cons in Hnd as [Hk Hnd].
    cbn [foldl fst snd]. rewrite IH by exact Hnd.
    rewrite list_to_map_cons, <- insert_union_l. rewrite insert_union_r; [reflexivity|].
    apply not_elem_of_list_to_map_1. exact Hk.
Qed.

(** X15: Filling in values for fields the template knows never fails: the
    values given replace the old ones, the other fields keep theirs, and
    the parts and the order of the fields stay as they are. *)
Theorem set_all_known (values : list (string * string)) (fp : fieldParts) :
  NoDup values.*1 ->
  (forall k, k ∈ values.*1 -> is_Some (Values fp !! k)) ->
  set_all fp values
  = (mkFieldParts (Parts fp) (Fields fp) (list_to_map values ∪ Values fp), None).
Proof.
  intros Hnd Hk. rewrite set_all_fold by exact Hk.
  rewrite foldl_insert_union by exact Hnd. reflexivity.
Qed.

Lemma set_all_known_witness :
  let fp := splitFdf empty_form in
  set_all fp [("city", "Paris"); ("name", "Ann")]
  = (mkFieldParts (Parts fp) (Fields fp)
       (list_to_map [("city", "Paris"); ("name", "Ann")] ∪ Values fp), None).
Proof.
  apply (set_all_known [("city", "Paris"); ("name", "Ann")] (splitFdf empty_form)).
  - apply (bool_decide_unpack _). vm_compute. reflexivity.
  - intros k Hk. apply (bool_decide_unpack _) .
    cbn [fmap list_fmap fst] in Hk.
    apply elem_of_cons in Hk as [-> | Hk]; [vm_compute; reflexivity|].
    apply elem_of_cons in Hk as [-> | Hk]; [vm_compute; reflexivity|].
    inversion Hk.
Defined.

(** *** Split *)

Lemma prune_loop_take (prefix : string) (n : nat) (l : list string) :
  (n <= length l)%nat ->
  prune_loop prefix n l = List.filter (split_output prefix) (take n l) ++ drop n l.
Proof.
  revert l; induction n as [|i IH]; intros l Hn; [reflexivity|].
  cbn [prune_loop].
  destruct (lookup_lt_is_Some_2 l i) as [fn Hfn]; [lia|]. rewrite Hfn.
  rewrite (take_S_r l i fn Hfn), List.filter_app. cbn [List.filter].
  destruct (split_output prefix fn) eqn:E; cbn [negb].
  - rewrite IH by lia. rewrite (drop_S l fn i Hfn), <- app_assoc. reflexivity.
  - rewrite app_nil_r. destruct (length l - 1 <=? i)%nat eqn:Eb.
    + apply Nat.leb_le in Eb. rewrite IH by (rewrite length_take; lia).
      rewrite take_take, Nat.min_id.
      rewrite !drop_ge by (rewrite ?length_take; lia). reflexivity.
    + rewrite IH by (rewrite length_app, length_take; lia).
      rewrite take_app_length' by (rewrite length_take; lia).
      rewrite drop_app_length' by (rewrite length_take; lia). reflexivity.
Qed.

(** X16: The backward loop of [PdfSplit] over the directory listing keeps
    exactly the names that start with the prefix and end in [.pdf], in the
    order of the listing. *)
Theorem prune_loop_filter (prefix : string) (filenames : list string) :
  prune_loop prefix (length filenames) filenames
  = List.filter (split_output prefix) filenames.
Proof.
  rewrite prune_loop_take by lia.
  rewrite firstn_all, drop_all, app_nil_r. reflexivity.
Qed.

(** *** Merge *)

(** X17: Merging two files or more: [pdfunite] is tried first when it is
    available, and if it succeeds nothing else runs; when it is missing or
    fails, [pdftk ... cat output] runs on what is on disk then, and its
    failure is the error returned.  Both tools get the files in the order
    given. *)
Theorem PdfMerge_several (env : Env) (destfn f1 f2 : string) (rest : list string)
    (w : World) :
  let filenames := f1 :: f2 :: rest in
  let unite := Command (popplerOk env "pdfunite") (filenames ++ [destfn]) in
  let cat := Command (ConfPdftk env) (filenames ++ ["cat"; "output"; destfn]) in
  let r := PdfMerge env destfn filenames w in
  let u := run env unite (files w) in
  (popplerOk env "pdfunite" <> "" -> u.2.2 = None ->
   r = (set_files u.1 (set_trace (trace w ++ [EvRun unite]) w), None)) /\
  (popplerOk env "pdfunite" <> "" -> u.2.2 <> None ->
   r.1 = set_files (run env cat u.1).1
           (set_trace (trace w ++ [EvRun unite; EvRun cat]) w) /\
   (r.2 = None <-> (run env cat u.1).2.2 = None)) /\
  (popplerOk env "pdfunite" = "" ->
   r.1 = set_files (run env cat (files w)).1
           (set_trace (trace w ++ [EvRun cat]) w) /\
   (r.2 = None <-> (run env cat (files w)).2.2 = None)).
Proof.
  cbv zeta. unfold PdfMerge, exec, emit, on_disk. unfold_M.
  cbn [files set_trace set_files trace alreadyCleaned pdfCleanStatus seed].
  destruct (String.eqb_spec (popplerOk env "pdfunite") "") as [E | E]; cbn [negb].
  - split; [intros H; contradiction|]. split; [intros H; contradiction|]. intros _.
    destruct (run env _ (files w)) as [d [out [e|]]]; cbn [fst snd wrap];
      (split; [rewrite <- ?app_assoc; reflexivity|]); split; congruence.
  - destruct (run env _ (files w)) as [d [out [e|]]] eqn:Eu; cbn [fst snd].
    + split; [intros _ H; discriminate H|]. split; [|intros H; contradiction].
      intros _ _. rewrite bool_decide_false by discriminate.
      cbn [files set_trace set_files trace alreadyCleaned pdfCleanStatus seed].
      destruct (run env _ d) as [d' [out' [e'|]]]; cbn [fst snd wrap];
        (split; [rewrite <- ?app_assoc; reflexivity|]); split; congruence.
    + split; [|split; [intros _ H; contradiction | intros H; contradiction]].
      intros _ _. rewrite bool_decide_true by reflexivity. reflexivity.
Qed.

(** *** The memo of cleaned files *)

Lemma keeps_ret {A : Type} (a : A) : keeps_memo (mret a : M A).
Proof. intros w. reflexivity. Qed.

Lemma keeps_bind {A B : Type} (m : M A) (f : A -> M B) :
  keeps_memo m -> (forall a, keeps_memo (f a)) -> keeps_memo (m ≫= f).
Proof.
  intros Hm Hf w. unfold_M. specialize (Hm w). destruct (m w) as [w1 a].
  rewrite (Hf a w1). exact Hm.
Qed.

Lemma keeps_emit (e : Event) : keeps_memo (emit e).
Proof. intros w. reflexivity. Qed.

Lemma keeps_on_disk {A : Type} (f : Disk -> Disk * A) : keeps_memo (on_disk f).
Proof. intros w. unfold on_disk. destruct (f (files w)). reflexivity. Qed.

Lemma keeps_read_disk {A : Type} (f : Disk -> A) : keeps_memo (read_disk f).
Proof. intros w. reflexivity. Qed.

Ltac keeps_auto :=
  repeat match goal with
    | |- keeps_memo (mret _) => apply keeps_ret
    | |- keeps_memo (emit _) => apply keeps_emit
    | |- keeps_memo (on_disk _) => apply keeps_on_disk
    | |- keeps_memo (read_disk _) => apply keeps_read_disk
    | |- keeps_memo (mbind _ _) => apply keeps_bind; [|intros ?]
    | |- keeps_memo (match ?x with _ => _ end) => destruct x
    end.

Lemma keeps_exec (env : Env) (c : Cmd) : keeps_memo (exec env c).
Proof. unfold exec. keeps_auto. Qed.

Lemma keeps_call (env : Env) (what : string) (args : list string) :
  keeps_memo (call env what args).
Proof. unfold call, execute. keeps_auto. apply keeps_exec. Qed.

Lemma keeps_xToX (env : Env) (destfn srcfn : string) (tops : bool) :
  keeps_memo (xToX env destfn srcfn tops).
Proof. unfold xToX. keeps_auto; apply keeps_call. Qed.

Lemma keeps_PdfRewrite (env : Env) (destfn srcfn : string) :
  keeps_memo (PdfRewrite env destfn srcfn).
Proof. unfold PdfRewrite, PdfToPs, PsToPdf. keeps_auto; apply keeps_xToX. Qed.

Lemma keeps_pdfPageNum (env : Env) (srcfn : string) :
  keeps_memo (pdfPageNum env srcfn).
Proof. unfold pdfPageNum. keeps_auto. apply keeps_exec. Qed.

Lemma keeps_run_cleaner (env : Env) (status : Z) (fn : string) :
  keeps_memo (run_cleaner env status fn).
Proof.
  unfold run_cleaner. keeps_auto;
    first [apply keeps_call | apply keeps_pdfPageNum | apply keeps_PdfRewrite].
Qed.

Lemma keeps_check_cleaners (env : Env) : keeps_memo (check_cleaners env).
Proof.
  intros w. unfold check_cleaners.
  destruct (pdfCleanStatus w =? pcNotChecked); reflexivity.
Qed.

Lemma size_insert_le (m : gmap string bool) (k : string) (v : bool) :
  (size (<[k := v]> m) <= S (size m))%nat.
Proof.
  destruct (m !! k) eqn:E.
  - rewrite map_size_insert_Some by eauto. lia.
  - rewrite map_size_insert_None by exact E. lia.
Qed.

Lemma remember_cleaned_size (env : Env) (fn : string) (w : World) :
  (size (alreadyCleaned (remember_cleaned env fn w).1) <= 1026)%nat.
Proof.
  unfold remember_cleaned. cbn [fst alreadyCleaned set_alreadyCleaned].
  set (m0 := if 1024 <? Z.of_nat (size (alreadyCleaned w)) then ∅
             else alreadyCleaned w).
  assert (H0 : (size m0 <= 1024)%nat).
  { unfold m0. destruct (Z.ltb_spec 1024 (Z.of_nat (size (alreadyCleaned w)))).
    - rewrite map_size_empty. lia.
    - lia. }
  pose proof (size_insert_le m0 fn true) as H1.
  destruct (negb (String.eqb (getHash env fn (files w)) "")); [|lia].
  pose proof (size_insert_le (<[fn := true]> m0) (getHash env fn (files w)) true).
  lia.
Qed.

(** A clean pass touches the memo only at its very end. *)
Lemma clean_uncached_memo (env : Env) (fn : string) (w : World) :
  match clean_uncached env fn w with
  | (w', Some _) => alreadyCleaned w' = alreadyCleaned w
  | (w', None) => (size (alreadyCleaned w') <= 1026)%nat
  end.
Proof.
  unfold clean_uncached. unfold_M.
  pose proof (keeps_check_cleaners env w) as Ha.
  destruct (check_cleaners env w) as [wa status]. cbn [fst] in Ha.
  pose proof (keeps_run_cleaner env status fn wa) as Hb.
  destruct (run_cleaner env status fn wa) as [wb [e|]]; cbn [fst] in Hb;
    [congruence|].
  pose proof (keeps_on_disk (os_Rename (fn +:+ "-cleaned.pdf") fn) wb) as Hc.
  destruct (on_disk (os_Rename (fn +:+ "-cleaned.pdf") fn) wb) as [wc [e|]];
    cbn [fst] in Hc; [congruence|].
  pose proof (remember_cleaned_size env fn wc) as Hd.
  destruct (remember_cleaned env fn wc) as [wd []]. exact Hd.
Qed.

Lemma PdfClean_memo (env : Env) (fn : string) (w : World) :
  match PdfClean env fn w with
  | (w', Some _) => alreadyCleaned w' = alreadyCleaned w
  | (w', None) =>
      alreadyCleaned w' = alreadyCleaned w \/ (size (alreadyCleaned w') <= 1026)%nat
  end.
Proof.
  unfold PdfClean. rewrite bind_emit.
  set (w0 := set_trace (trace w ++ [EvClean fn]) w).
  change (alreadyCleaned w) with (alreadyCleaned w0).
  destruct (absolute env fn) as [p [e|]]; [reflexivity|]. unfold_M.
  pose proof (isAlreadyCleaned_world env p w0) as Hw.
  destruct (isAlreadyCleaned env p w0) as [w1 ok]. cbn [fst] in Hw. subst w1.
  destruct ok; [left; reflexivity|].
  pose proof (clean_uncached_memo env p w0) as H.
  destruct (clean_uncached env p w0) as [w' [e|]]; [exact H | right; exact H].
Qed.

(** X18: A call of [PdfClean] that returns an error leaves the memo of cleaned
    files as it was: a failure is never remembered as a success. *)
Theorem PdfClean_failure_keeps_memo (env : Env) (fn : string) (w : World) :
  (PdfClean env fn w).2 <> None ->
  alreadyCleaned (PdfClean env fn w).1 = alreadyCleaned w.
Proof.
  intros H. pose proof (PdfClean_memo env fn w) as Hm.
  destruct (PdfClean env fn w) as [w' [e|]]; [exact Hm | contradiction].
Qed.

Lemma PdfClean_failure_keeps_memo_witness :
  alreadyCleaned (PdfClean (host failing_run) "a.pdf" one_pdf).1
  = alreadyCleaned one_pdf.
Proof.
  apply (PdfClean_failure_keeps_memo (host failing_run) "a.pdf" one_pdf).
  vm_compute. discriminate.
Defined.

(** X19: The memo of cleaned files never grows beyond 1026 entries through
    [PdfClean]: it is emptied before an entry is added to more than 1024. *)
Theorem PdfClean_memo_bounded (env : Env) (fn : string) (w : World) :
  (size (alreadyCleaned (PdfClean env fn w).1)
   <= Nat.max (size (alreadyCleaned w)) 1026)%nat.
Proof.
  pose proof (PdfClean_memo env fn w) as Hm.
  destruct (PdfClean env fn w) as [w' [e|]]; cbn [fst].
  - rewrite Hm. lia.
  - destruct Hm as [-> | Hm]; lia.
Qed.

(** *** The choice of the cleaning tool *)

Lemma check_cleaners_first (env : Env) (w : World) :
  pdfCleanStatus w = pcNotChecked ->
  ConfPdfClean env <> "" -> LookPath env (ConfPdfClean env) = true ->
  exists s, check_cleaners env w = (set_pdfCleanStatus s w, s) /\ (s = 1 \/ s = 3).
Proof.
  intros Hs Hc Hl. unfold check_cleaners. rewrite Hs. cbn [Z.eqb pcNotChecked].
  destruct (String.eqb_spec (ConfPdfClean env) "") as [E | _]; [contradiction|].
  rewrite Hl. cbn [negb].
  destruct (negb (String.eqb (ConfMutool env) "")).
  - destruct (LookPath env (ConfMutool env)).
    + exists 3. split; [reflexivity | right; reflexivity].
    + exists 1. split; [reflexivity | left; reflexivity].
  - exists 1. split; [reflexivity | left; reflexivity].
Qed.

Lemma emits_pdfclean_pass (env : Env) (s : Z) (fn : string) :
  s = 1 \/ s = 3 ->
  emits (fun e => is_mutool_clean e = false)
    (err ← run_cleaner env s fn;
     match err with
     | Some e => mret (Some e)
     | None =>
         err ← on_disk (os_Rename (fn +:+ "-cleaned.pdf") fn);
         match err with
         | Some e => mret (Some e)
         | None => _ ← remember_cleaned env fn; mret None
         end
     end).
Proof.
  intros Hs. apply emits_bind.
  - unfold run_cleaner.
    assert (negb (s =? pcNothing) = true) as -> by (destruct Hs; subst; reflexivity).
    assert (negb (Z.land s pcPdfClean =? 0) = true) as ->
      by (destruct Hs; subst; reflexivity).
    emits_auto.
    + apply emits_execute_one. reflexivity.
    + unfold pdfPageNum. emits_auto.
      * apply emits_emit. reflexivity.
      * apply emits_exec_one.
        destruct (negb (String.eqb (popplerOk env "pdfinfo") ""));
          [reflexivity | apply andb_false_r].
  - intros a. emits_auto. apply emits_silent. reflexivity.
Qed.

(** X20: When [pdfclean] is configured and found at the first use, [PdfClean]
    never runs [mutool clean], whether or not [mutool] is there too. *)
Theorem PdfClean_prefers_pdfclean (env : Env) (fn : string) (w : World) :
  pdfCleanStatus w = pcNotChecked ->
  ConfPdfClean env <> "" -> LookPath env (ConfPdfClean env) = true ->
  exists t, trace (PdfClean env fn w).1 = trace w ++ t /\
            Forall (fun e => is_mutool_clean e = false) t.
Proof.
  intros Hs Hc Hl. unfold PdfClean. rewrite bind_emit.
  set (w0 := set_trace (trace w ++ [EvClean fn]) w).
  assert (Ht0 : trace w0 = trace w ++ [EvClean fn]) by reflexivity.
  destruct (absolute env fn) as [p [e|]].
  { exists [EvClean fn]. split; [exact Ht0 | repeat constructor]. }
  unfold_M.
  pose proof (isAlreadyCleaned_world env p w0) as Hw.
  destruct (isAlreadyCleaned env p w0) as [w1 ok]. cbn [fst] in Hw. subst w1.
  destruct ok.
  { exists [EvClean fn]. split; [exact Ht0 | repeat constructor]. }
  unfold clean_uncached. unfold_M.
  destruct (check_cleaners_first env w0 Hs Hc Hl) as (s & -> & Hs13).
  pose proof (emits_pdfclean_pass env s p Hs13) as He. unfold_M.
  match goal with
  | |- context [trace (?x).1] => destruct x as [w' r] eqn:E
  end.
  destruct (He _ _ _ E) as (t & Ht & HP).
  exists (EvClean fn :: t). cbn [fst]. rewrite Ht. cbn [trace set_pdfCleanStatus].
  rewrite Ht0, <- app_assoc. split; [reflexivity|].
  constructor; [reflexivity | exact HP].
Qed.

Lemma PdfClean_prefers_pdfclean_witness :
  exists t,
    trace (PdfClean (host working_run) "/work/a.pdf" one_pdf).1
    = trace one_pdf ++ t /\
    Forall (fun e => is_mutool_clean e = false) t.
Proof.
  apply (PdfClean_prefers_pdfclean (host working_run) "/work/a.pdf" one_pdf);
    [reflexivity | discriminate | reflexivity].
Defined.

(** *** Recognising a file by its content *)

Lemma clean_uncached_remembers_hash (env : Env) (fn : string) (w w1 : World)
    (b : list byte) :
  clean_uncached env fn w = (w1, None) ->
  files w1 !! fn = Some b -> sha1_base64 env b <> "" ->
  alreadyCleaned w1 !! sha1_base64 env b = Some true.
Proof.
  unfold clean_uncached. unfold_M.
  destruct (check_cleaners env w) as [wa status].
  destruct (run_cleaner env status fn wa) as [wb [e|]]; [discriminate|].
  destruct (on_disk (os_Rename (fn +:+ "-cleaned.pdf") fn) wb) as [wc [e|]];
    [discriminate|].
  unfold remember_cleaned. intros [= <-].
  cbn [files alreadyCleaned set_alreadyCleaned]. intros Hb Hh.
  unfold getHash. rewrite Hb.
  destruct (String.eqb_spec (sha1_base64 env b) "") as [E | _]; [contradiction|].
  cbn [negb]. apply lookup_insert_eq.
Qed.

(** X21: After a clean pass that ran and succeeded, a file with the same bytes
    under another absolute path counts as clean: [PdfClean] returns nil
    for it at once, without running anything. *)
Theorem PdfClean_recognises_copy (env : Env) (fn p : string) (w w1 : World)
    (b : list byte) :
  GoString.IsAbs fn = true -> GoString.IsAbs p = true ->
  (isAlreadyCleaned env fn w).2 = false ->
  PdfClean env fn w = (w1, None) ->
  files w1 !! fn = Some b -> files w1 !! p = Some b ->
  sha1_base64 env b <> "" ->
  PdfClean env p w1 = (set_trace (trace w1 ++ [EvClean p]) w1, None).
Proof.
  intros Hfn Hp Hmiss H1 Hb Hpb Hh.
  assert (Hmemo : alreadyCleaned w1 !! sha1_base64 env b = Some true).
  { revert H1. unfold PdfClean. rewrite bind_emit. unfold absolute.
    rewrite Hfn. cbn [negb]. unfold_M.
    set (w0 := set_trace (trace w ++ [EvClean fn]) w).
    pose proof (isAlreadyCleaned_world env fn w0) as Hw.
    pose proof (isAlreadyCleaned_trace env fn (trace w ++ [EvClean fn]) w) as Ht.
    fold w0 in Ht. rewrite Hmiss in Ht.
    destruct (isAlreadyCleaned env fn w0) as [w0' ok]. cbn [fst snd] in Hw, Ht.
    subst w0' ok. intros H1.
    exact (clean_uncached_remembers_hash env fn w0 w1 b H1 Hb Hh). }
  unfold PdfClean. rewrite bind_emit. unfold absolute. rewrite Hp. cbn [negb].
  unfold_M. unfold isAlreadyCleaned. rewrite Hp. cbn [negb].
  cbn [alreadyCleaned files set_trace].
  destruct (alreadyCleaned w1 !! p); [reflexivity|].
  unfold getHash. rewrite Hpb.
  destruct (String.eqb_spec (sha1_base64 env b) "") as [E | _]; [contradiction|].
  rewrite Hmemo. reflexivity.
Qed.

Lemma PdfClean_recognises_copy_witness :
  let w := set_files (<[ "/work/b.pdf" := of_string "%PDF-1.4 a" ]> (files one_pdf))
             one_pdf in
  let w1 := (PdfClean (host working_run) "/work/a.pdf" w).1 in
  PdfClean (host working_run) "/work/b.pdf" w1
  = (set_trace (trace w1 ++ [EvClean "/work/b.pdf"]) w1, None).
Proof.
  cbv zeta.
  apply (PdfClean_recognises_copy (host working_run) "/work/a.pdf" "/work/b.pdf"
           (set_files (<[ "/work/b.pdf" := of_string "%PDF-1.4 a" ]> (files one_pdf))
              one_pdf)
           _ (of_string "%PDF-1.4 a"));
    try (vm_compute; reflexivity).
  vm_compute. discriminate.
Defined.

(** *** Filling a form *)

(** X22: The way to a filled form: when the template of the PDF is aligned and
    knows every field that is given a value, [PdfFillFdf] renders the
    template with the values and runs [pdftk fill_form] once, with the
    rendering on its standard input; what that run returns is the result. *)
Theorem PdfFillFdf_known_fields (env : Env) (destfn inpfn : string)
    (values : list (string * string)) (w w1 : World) (fp : fieldParts) :
  values <> [] -> NoDup values.*1 ->
  getFdf env inpfn w = (w1, (fp, None)) ->
  (forall k, k ∈ values.*1 -> is_Some (Values fp !! k)) ->
  Parts fp <> [] -> (length (Parts fp) <= length (Fields fp) + 1)%nat ->
  exists buf,
    WriteTo (utf16_Encode env)
      (mkFieldParts (Parts fp) (Fields fp) (list_to_map values ∪ Values fp))
    = Some buf /\
    PdfFillFdf env destfn inpfn values w
    = execute env
        (mkCmd (ConfPdftk env) [inpfn; "fill_form"; "-"; "output"; destfn] "" buf)
        w1.
Proof.
  intros Hne Hnd Hget Hk Hparts Hal.
  set (fp' := mkFieldParts (Parts fp) (Fields fp) (list_to_map values ∪ Values fp)).
  destruct (FdfMore.WriteTo_aligned (utf16_Encode env) fp' Hparts Hal) as [buf Ew].
  exists buf. split; [exact Ew|].
  unfold PdfFillFdf. destruct values as [|kv values']; [contradiction|].
  cbn [length Nat.eqb]. unfold mbind at 1. unfold M_bind at 1. rewrite Hget.
  rewrite (set_all_fold (kv :: values') fp Hk).
  rewrite (foldl_insert_union (kv :: values') (Values fp) Hnd).
  fold fp'. rewrite Ew. reflexivity.
Qed.

Lemma PdfFillFdf_known_fields_witness :
  let env := host working_run in
  let w1 := (getFdf env "/work/a.pdf" one_pdf).1 in
  let fp := (getFdf env "/work/a.pdf" one_pdf).2.1 in
  exists buf,
    WriteTo (utf16_Encode env)
      (mkFieldParts (Parts fp) (Fields fp)
         (list_to_map [("name", "Bob")] ∪ Values fp))
    = Some buf /\
    PdfFillFdf env "/work/out.pdf" "/work/a.pdf" [("name", "Bob")] one_pdf
    = execute env
        (mkCmd (ConfPdftk env)
           ["/work/a.pdf"; "fill_form"; "-"; "output"; "/work/out.pdf"] "" buf)
        w1.
Proof.
  cbv zeta.
  apply (PdfFillFdf_known_fields (host working_run) "/work/out.pdf" "/work/a.pdf"
           [("name", "Bob")] one_pdf).
  - discriminate.
  - apply (bool_decide_unpack _). vm_compute. reflexivity.
  - vm_compute. reflexivity.
  - intros k Hk. apply (bool_decide_unpack _).
    cbn [fmap list_fmap fst] in Hk.
    apply elem_of_cons in Hk as [-> | Hk]; [vm_compute; reflexivity | inversion Hk].
  - vm_compute. discriminate.
  - vm_compute. lia.
Defined.

End PdfMore.

(** ** Names of uploaded files *)

Module ServerFacts.
Import GoString GoStringFacts Server.

Local Arguments String.append !_ _ / : simpl nomatch.

Lemma last_index_any_None (s chars : string) (pos pos' : nat) :
  last_index_any s chars pos = None -> last_index_any s chars pos' = None.
Proof.
  revert pos pos'; induction s as [|c s IH]; intros pos pos' H; [reflexivity|].
  cbn [last_index_any] in *.
  destruct (last_index_any s chars (S pos)) eqn:E; [discriminate|].
  rewrite (IH _ (S pos') E). destruct (one_of chars c); [discriminate | reflexivity].
Qed.

Lemma last_index_any_Some (s chars : string) (pos j : nat) :
  last_index_any s chars pos = Some j ->
  exists pre c post,
    s = pre +:+ String c post /\ j = (pos + String.length pre)%nat /\
    one_of chars c = true /\ last_index_any post chars 0 = None.
Proof.
  revert pos j; induction s as [|d s IH]; intros pos j H; [discriminate|].
  cbn [last_index_any] in H.
  destruct (last_index_any s chars (S pos)) as [k|] eqn:E.
  - injection H as <-. destruct (IH _ _ E) as (pre & c & post & -> & -> & Hc & Hn).
    exists (String d pre), c, post. simpl.
    split; [reflexivity | split; [lia | split; assumption]].
  - destruct (one_of chars d) eqn:Ed; [|discriminate]. injection H as <-.
    exists "", d, s. simpl.
    split; [reflexivity | split; [lia | split; [exact Ed|]]].
    apply (last_index_any_None _ _ _ _ E).
Qed.

Lemma last_index_any_last (pre post chars : string) (c : ascii) (pos : nat) :
  one_of chars c = true -> last_index_any post chars 0 = None ->
  last_index_any (pre +:+ String c post) chars pos
  = Some (pos + String.length pre)%nat.
Proof.
  intros Hc Hn. revert pos; induction pre as [|d pre IH]; intros pos; simpl.
  - rewrite (last_index_any_None _ _ _ (S pos) Hn), Hc. f_equal. lia.
  - rewrite IH. f_equal. lia.
Qed.

Lemma slice_from_after (pre post : string) (c : ascii) :
  slice_from (pre +:+ String c post) (String.length pre + 1) = post.
Proof.
  assert (pre +:+ String c post = (pre +:+ String c "") +:+ post) as ->.
  { induction pre as [|d pre IH]; simpl; [reflexivity | now rewrite IH]. }
  replace (String.length pre + 1)%nat with (String.length (pre +:+ String c ""))
    by (rewrite length_append; reflexivity).
  apply slice_from_append.
Qed.

Lemma baseName_plain (name : string) :
  LastIndexAny name separators = -1 -> baseName name = name.
Proof.
  intros H. unfold baseName. destruct (String.eqb_spec name "") as [-> | _];
    [reflexivity|].
  rewrite H. reflexivity.
Qed.

Lemma LastIndexAny_None (s chars : string) :
  LastIndexAny s chars = -1 <-> last_index_any s chars 0 = None.
Proof.
  unfold LastIndexAny. destruct (last_index_any s chars 0); split;
    intros H; try reflexivity; try discriminate; lia.
Qed.

Lemma baseName_cases (fileName : string) :
  baseName fileName
  = match last_index_any fileName separators 0 with
    | Some j => slice_from fileName (j + 1)
    | None => fileName
    end.
Proof.
  unfold baseName, LastIndexAny.
  destruct (String.eqb_spec fileName "") as [-> | _]; [reflexivity|].
  destruct (last_index_any fileName separators 0) as [j|]; [|reflexivity].
  cbv zeta. assert ((0 <=? Z.of_nat j) = true) as -> by (apply Z.leb_le; lia).
  f_equal. lia.
Qed.

(** X26: [baseName] cuts a name after its last slash or backslash: what is left
    has neither, and is what follows the last one.  A name without
    separators is returned as it is. *)
Theorem baseName_spec (fileName : string) :
  LastIndexAny (baseName fileName) separators = -1 /\
  (baseName fileName = fileName \/
   exists dir c, one_of separators c = true /\
                 fileName = dir +:+ String c (baseName fileName)).
Proof.
  rewrite baseName_cases.
  destruct (last_index_any fileName separators 0) as [j|] eqn:E.
  - destruct (last_index_any_Some _ _ _ _ E) as (pre & c & post & -> & -> & Hc & Hn).
    cbn [Nat.add]. rewrite slice_from_after.
    split; [apply LastIndexAny_None, Hn|].
    right. exists pre, c. split; [exact Hc | reflexivity].
  - split; [apply LastIndexAny_None, E | left; reflexivity].
Qed.

(** X27: Whatever directory part stands before a separator, [baseName] drops
    it: the name is the same from every directory, and an upload name that
    ends in a separator gives the empty name. *)
Theorem baseName_join (dir name : string) (c : ascii) :
  one_of separators c = true ->
  LastIndexAny name separators = -1 ->
  baseName (dir +:+ String c name) = name.
Proof.
  intros Hc Hn. apply LastIndexAny_None in Hn. rewrite baseName_cases.
  rewrite (last_index_any_last dir name separators c 0 Hc Hn).
  cbn [Nat.add]. apply slice_from_after.
Qed.

Lemma baseName_join_witness :
  baseName ("C:\Users\ann" +:+ String "\" "report.pdf") = "report.pdf".
Proof.
  apply (baseName_join "C:\Users\ann" "report.pdf" "\"); reflexivity.
Defined.

End ServerFacts.

(** ** The office suite and the browser engine *)

Module ConvertFacts.
Import GoError GoString GoStringFacts Pdf Convert.
Local Open Scope list_scope.

Local Arguments String.append !_ _ / : simpl nomatch.

Lemma substring_snoc (s : string) (k : nat) :
  String.substring 0 (S k) s
  = String.substring 0 k s +:+ String.substring k 1 s.
Proof.
  revert k; induction s as [|c s IH]; intros k.
  - destruct k; reflexivity.
  - destruct k as [|k].
    + simpl. destruct s; reflexivity.
    + change (String.substring 0 (S (S k)) (String c s))
        with (String c (String.substring 0 (S k) s)).
      rewrite IH. reflexivity.
Qed.

Lemma append_assoc (a b c : string) : (a +:+ b) +:+ c = a +:+ (b +:+ c).
Proof. induction a as [|x a IH]; simpl; [reflexivity | now rewrite IH]. Qed.

(** The locale handed to the office suite is always an English UTF-8
    one. *)
Lemma loffice_locale_shape (lcAll : string) :
  exists lang, loffice_locale lcAll = "en_" +:+ lang +:+ ".UTF-8".
Proof.
  unfold loffice_locale. cbv zeta.
  destruct ((0 <? Index lcAll ".") && HasPrefix lcAll "en_") eqn:E;
    [|exists "US"; reflexivity].
  apply andb_true_iff in E as [Hi Hp]. apply Z.ltb_lt in Hi.
  unfold Index in *. destruct (String.index 0 "." lcAll) as [i|] eqn:Ei; [|lia].
  pose proof (String.index_correct1 _ _ _ _ Ei) as Hdot.
  unfold HasPrefix in Hp. apply String.prefix_correct in Hp.
  change (String.length "en_") with 3%nat in Hp.
  change (String.length ".") with 1%nat in Hdot.
  destruct lcAll as [|a [|b [|c rest]]]; try discriminate Hp.
  cbn in Hp. injection Hp as -> -> ->.
  destruct i as [|[|[|k]]]; try discriminate Hdot.
  replace (Z.to_nat (Z.of_nat (S (S (S k))) + 1)) with (S (S (S (S k)))) by lia.
  unfold slice_to.
  change (String.substring 0 (S (S (S (S k)))) (String "e" (String "n" (String "_" rest))))
    with ("en_" +:+ String.substring 0 (S k) rest).
  change (String.substring (S (S (S k))) 1 (String "e" (String "n" (String "_" rest))))
    with (String.substring k 1 rest) in Hdot.
  rewrite substring_snoc, Hdot. exists (String.substring 0 k rest).
  rewrite !append_assoc. reflexivity.
Qed.

Lemma env_loop_filter (environ acc : list string) :
  env_loop environ acc = acc ++ List.filter (fun s => negb (skipped s)) environ.
Proof.
  revert acc; induction environ as [|s rest IH]; intros acc; cbn [env_loop List.filter].
  - rewrite app_nil_r. reflexivity.
  - destruct (skipped s); cbn [negb]; rewrite IH; [reflexivity|].
    rewrite <- app_assoc. reflexivity.
Qed.

(** X28: Off Windows, the office suite is started with an environment of its
    own: first the bare locale string, an English UTF-8 one, then the
    variables of the parent in their order, without those whose entry
    starts with [LC_].  An entry [LANG=...] is passed on: only an entry
    that is exactly [LANG] or [LANGUAGE] is left out. *)
Theorem loffice_Env_spec (h : Host) :
  windows h = false ->
  exists lang rest,
    loffice_Env h = Some (("en_" +:+ lang +:+ ".UTF-8") :: rest) /\
    rest = List.filter (fun s => negb (skipped s)) (os_Environ h) /\
    (forall s, In s rest -> HasPrefix s "LC_" = false) /\
    (forall v, In ("LANG=" +:+ v) (os_Environ h) -> In ("LANG=" +:+ v) rest).
Proof.
  intros Hw. unfold loffice_Env. rewrite Hw. cbn [negb].
  destruct (loffice_locale_shape (os_Getenv h "LC_ALL")) as [lang ->].
  exists lang, (List.filter (fun s => negb (skipped s)) (os_Environ h)).
  rewrite env_loop_filter. split; [reflexivity|]. split; [reflexivity|]. split.
  - intros s Hs. apply List.filter_In in Hs as [_ Hs]. unfold skipped in Hs.
    destruct (HasPrefix s "LC_"); [discriminate Hs | reflexivity].
  - intros v Hv. apply List.filter_In. split; [exact Hv|].
    unfold skipped, HasPrefix. simpl. destruct v; reflexivity.
Qed.

Lemma loffice_Env_spec_witness :
  exists lang rest,
    loffice_Env latin1_host = Some (("en_" +:+ lang +:+ ".UTF-8") :: rest) /\
    rest = List.filter (fun s => negb (skipped s)) (os_Environ latin1_host) /\
    (forall s, In s rest -> HasPrefix s "LC_" = false) /\
    (forall v, In ("LANG=" +:+ v) (os_Environ latin1_host) ->
               In ("LANG=" +:+ v) rest).
Proof. apply (loffice_Env_spec latin1_host). reflexivity. Defined.

(** On the host with [LC_ALL=en_GB.ISO-8859-1], the suite gets the locale
    with the encoding replaced, and [LANG] still set. *)
Example loffice_Env_latin1 :
  loffice_Env latin1_host
  = Some ["en_GB.UTF-8"; "PATH=/usr/bin"; "LANG=hu_HU.UTF-8"].
Proof. reflexivity. Qed.

(** X29: [lofficeConvert] returns nil exactly when it was given an output
    directory, the suite ran without error and the PDF it should have
    written is on disk.  Without an output directory nothing is run. *)
Theorem lofficeConvert_nil (h : Host) (outDir inpfn : string) (w : World) :
  let r := start h (loffice_Env h) (loffice_cmd h outDir inpfn) (files w) in
  ((lofficeConvert h outDir inpfn w).2 = None <->
   outDir <> "" /\ r.2.2 = None /\
   is_Some (r.1 !! loffice_outfn h outDir inpfn)) /\
  (outDir = "" ->
   lofficeConvert h outDir inpfn w = (w, Some (errors_New "outDir is required!"))).
Proof.
  cbv zeta. unfold lofficeConvert, run_with, emit, on_disk, read_disk.
  destruct (String.eqb_spec outDir "") as [E | E].
  { split; [|reflexivity]. split; [discriminate | intros [H _]; contradiction]. }
  split; [|contradiction]. unfold mbind, M_bind, mret, M_ret.
  cbn [files set_trace set_files trace alreadyCleaned pdfCleanStatus seed].
  destruct (start h _ _ (files w)) as [d [out [e|]]]; cbn [fst snd files set_files].
  - split; [discriminate | intros (_ & H & _); discriminate H].
  - destruct (d !! loffice_outfn h outDir inpfn) as [b|]; cbn [snd].
    + split; [intros _; repeat split; eauto | reflexivity].
    + split; [discriminate | intros (_ & _ & [x Hx]); discriminate Hx].
Qed.

(** X30: [wkhtmltopdf] returns nil exactly when the tool succeeded, or failed
    with one of the three forgiven load errors at the end of its messages,
    and in both cases left a non-empty output file. *)
Theorem wkhtmltopdf_nil (h : Host) (outfn inpfn : string) (w : World) :
  let r := start h None (wkhtmltopdf_cmd h outfn inpfn) (files w) in
  (wkhtmltopdf h outfn inpfn w).2 = None <->
  (r.2.2 = None \/ forgiven r.2.1 = true) /\
  exists b, r.1 !! outfn = Some b /\ b <> [].
Proof.
  cbv zeta. unfold wkhtmltopdf, run_with, emit, on_disk, read_disk.
  unfold mbind, M_bind, mret, M_ret.
  cbn [files set_trace set_files trace alreadyCleaned pdfCleanStatus seed].
  destruct (start h None _ (files w)) as [d [buf err]]; cbn [fst snd].
  change (files (set_files d
            (set_trace (trace w ++ [EvRun (wkhtmltopdf_cmd h outfn inpfn)]) w)))
    with d.
  assert (Hlen : forall b : list byte, (GoBytes.len b =? 0) = true <-> b = []).
  { intros b. unfold GoBytes.len. rewrite Z.eqb_eq. destruct b; cbn; split;
      intros H; try reflexivity; try discriminate; lia. }
  assert (Hpost :
    (match d !! outfn with
     | Some b => if GoBytes.len b =? 0 then false else true
     | None => false
     end = true) <-> exists b, d !! outfn = Some b /\ b <> []).
  { destruct (d !! outfn) as [b|].
    - destruct (GoBytes.len b =? 0) eqn:El.
      + apply Hlen in El. subst b. split; [discriminate|].
        intros (b & [= <-] & Hb). contradiction.
      + split; [|reflexivity]. intros _. exists b. split; [reflexivity|].
        intros ->. discriminate El.
    - split; [discriminate | intros (b & Hb & _); discriminate Hb]. }
  rewrite <- Hpost.
  destruct err as [e|]; [destruct (forgiven buf) eqn:Ef|]; cbn [snd];
    try change (files (set_files d _)) with d.
  - destruct (d !! outfn) as [b|]; [destruct (GoBytes.len b =? 0)|]; cbn [snd];
      (split;
       [intros H; first [discriminate H | split; [right|]; reflexivity]
       |intros [_ H]; first [discriminate H | reflexivity]]).
  - split; [discriminate|]. intros [[H | H] _]; discriminate H.
  - destruct (d !! outfn) as [b|]; [destruct (GoBytes.len b =? 0)|]; cbn [snd];
      (split;
       [intros H; first [discriminate H | split; [left|]; reflexivity]
       |intros [_ H]; first [discriminate H | reflexivity]]).
Qed.

End ConvertFacts.

(** ** Writing a template to a writer *)

Module WriterFacts.
Import GoBytes GoError Fdf FdfFacts FdfMore Writer.
Local Open Scope list_scope.

Lemma int64_add (x y : Z) : int64 (int64 x + y) = int64 (x + y).
Proof.
  unfold int64. f_equal.
  replace ((x + 2 ^ 63) mod 2 ^ 64 - 2 ^ 63 + y + 2 ^ 63)
    with ((x + 2 ^ 63) mod 2 ^ 64 + y) by lia.
  rewrite Zplus_mod_idemp_l. f_equal. lia.
Qed.

Section AnyWriter.
Variable St : Type.
Variable W : list byte -> St -> St * (Z * option error).
Variable enc : string -> list Z.

Local Abbreviation cew := (countErrWriter St).
Local Abbreviation Write := (Writer.Write St W).
Local Abbreviation feed := (Writer.feed St W).

(** Once a write has failed, [countErrWriter] passes nothing on. *)
Lemma Write_stuck (p : list byte) (c : cew) (e : error) :
  err St c = Some e -> Write p c = (c, (0, Some e)).
Proof. intros H. unfold Writer.Write. rewrite H. reflexivity. Qed.

Lemma feed_stuck (cs : list (list byte)) (c : cew) (e : error) :
  err St c = Some e -> feed cs c = c.
Proof.
  intros H. induction cs as [|p cs IH]; [reflexivity|].
  cbn [Writer.feed]. rewrite (Write_stuck p c e H). exact IH.
Qed.

Lemma feed_app (a b : list (list byte)) (c : cew) :
  feed (a ++ b) c = feed b (feed a c).
Proof. revert c; induction a as [|p a IH]; intros c; [reflexivity | apply IH]. Qed.

Lemma write_units_feed (units : list Z) (c : cew) :
  write_units St W units c
  = feed ((fun u => [byte_of_Z (Z.shiftr u 8); byte_of_Z (Z.land u 255)]) <$> units) c.
Proof. revert c; induction units as [|u us IH]; intros c; [reflexivity | apply IH]. Qed.

Lemma write_field_feed (val : string) (c : cew) :
  write_field St W enc val c = feed (field_chunks enc val) c.
Proof.
  unfold write_field, field_chunks. cbv zeta.
  destruct (GoString.len val =? 0); [reflexivity|].
  rewrite write_units_feed.
  change ([slice_to fieldPartV (len fieldPartV - 2); [xfe; xff]%byte] ++ ?x)
    with (slice_to fieldPartV (len fieldPartV - 2) :: [xfe; xff]%byte :: x).
  cbn [Writer.feed app]. rewrite feed_app. reflexivity.
Qed.

Lemma write_parts_feed (fp : fieldParts) (parts : list (list byte)) (i : nat)
    (cs : list (list byte)) (c : cew) :
  part_chunks enc fp i parts = Some cs ->
  exists c' lst,
    write_parts St W enc fp (Z.of_nat (i + length parts) - 1) i parts c = Some c' /\
    last parts = Some lst /\
    (Write lst c').1 = feed cs c.
Proof.
  revert i cs c; induction parts as [|p [|q rest] IH]; intros i cs c H.
  - discriminate H.
  - injection H as <-. exists c, p. cbn [write_parts length].
    assert ((Z.of_nat i =? Z.of_nat (i + 1) - 1) = true) as ->
      by (apply Z.eqb_eq; lia).
    repeat split.
  - change (part_chunks enc fp i (p :: q :: rest))
      with (match Fields fp !! i with
            | None => None
            | Some field =>
                match part_chunks enc fp (S i) (q :: rest) with
                | None => None
                | Some cs =>
                    Some (p :: field_chunks enc (default "" (Values fp !! field)) ++ cs)
                end
            end) in H.
    destruct (Fields fp !! i) as [field|] eqn:Ef; [|discriminate H].
    destruct (part_chunks enc fp (S i) (q :: rest)) as [cs'|] eqn:Ec; [|discriminate H].
    injection H as <-.
    change (write_parts St W enc fp (Z.of_nat (i + length (p :: q :: rest)) - 1) i
              (p :: q :: rest) c)
      with (if Z.of_nat i =? Z.of_nat (i + length (p :: q :: rest)) - 1 then Some c
            else
              match Fields fp !! i with
              | None => None
              | Some field =>
                  let c2 := write_field St W enc (default "" (Values fp !! field))
                              (Write p c).1 in
                  match err St c2 with
                  | Some _ => Some c2
                  | None =>
                      write_parts St W enc fp
                        (Z.of_nat (i + length (p :: q :: rest)) - 1) (S i) (q :: rest) c2
                  end
              end).
    assert ((Z.of_nat i =? Z.of_nat (i + length (p :: q :: rest)) - 1) = false) as ->
      by (apply Z.eqb_neq; cbn [length]; lia).
    rewrite Ef. cbv zeta. rewrite write_field_feed.
    set (c2 := feed (field_chunks enc (default "" (Values fp !! field))) (Write p c).1).
    assert (Hfeed : feed (p :: field_chunks enc (default "" (Values fp !! field)) ++ cs') c
                    = feed cs' c2).
    { cbn [Writer.feed]. rewrite feed_app. reflexivity. }
    rewrite Hfeed.
    destruct (IH (S i) cs' c2 Ec) as (c' & lst & Hw & Hl & Hf).
    destruct (err St c2) as [e|] eqn:Ee.
    + exists c2, lst. split; [reflexivity|]. split; [exact Hl|].
      rewrite (Write_stuck lst c2 e Ee), (feed_stuck cs' c2 e Ee). reflexivity.
    + exists c', lst.
      replace (i + length (p :: q :: rest))%nat with (S i + length (q :: rest))%nat
        by (cbn [length]; lia).
      split; [exact Hw|]. split; [exact Hl | exact Hf].
Qed.

Lemma WriteTo_feed (fp : fieldParts) (cs : list (list byte)) (s : St) :
  chunks enc fp = Some cs ->
  Writer.WriteTo St W enc fp s
  = Some (let c := feed cs (mkCew St s None 0) in (w St c, (n St c, err St c))).
Proof.
  unfold chunks. intros H.
  destruct (write_parts_feed fp (Parts fp) 0 cs (mkCew St s None 0) H)
    as (c' & lst & Hw & Hl & Hf).
  unfold Writer.WriteTo. cbv zeta. cbn [Nat.add] in Hw. rewrite Hw.
  destruct (last_lookup_Z (Parts fp)) as [Hlk | Hn];
    [|rewrite Hn in Hl; discriminate Hl].
  rewrite Hlk, Hl.
  assert ((Z.of_nat (length (Parts fp)) - 1 <? 0) = false) as ->.
  { apply Z.ltb_ge. destruct (Parts fp); [discriminate Hl | cbn [length]; lia]. }
  rewrite Hf. reflexivity.
Qed.

Lemma int64_idem (x : Z) : int64 (int64 x) = int64 x.
Proof.
  transitivity (int64 (int64 x + 0)); [f_equal; lia|].
  rewrite int64_add. f_equal. lia.
Qed.

(** [countErrWriter] turns a series of writes into writes up to the first
    failure. *)
Lemma feed_writes (cs : list (list byte)) (c : cew) :
  err St c = None -> int64 (n St c) = n St c ->
  let c' := feed cs c in
  let r := writes St W cs (w St c) in
  w St c' = r.1 /\ err St c' = r.2.2 /\ n St c' = int64 (n St c + r.2.1).
Proof.
  revert c; induction cs as [|p cs IH]; intros c He Hn; cbv zeta.
  - cbn. rewrite Z.add_0_r, Hn. repeat split. exact He.
  - cbn [Writer.feed writes]. unfold Writer.Write at 1 2 3. rewrite He.
    destruct (W p (w St c)) as [s1 [k [e|]]] eqn:Ew; cbn [fst snd].
    + rewrite (feed_stuck cs _ e) by reflexivity. cbn [w err n]. repeat split.
    + specialize (IH (mkCew St s1 None (int64 (n St c + k))) eq_refl (int64_idem _)).
      cbv zeta in IH. cbn [w err n] in IH.
      destruct (writes St W cs s1) as [s2 [k2 e2]]. cbn [fst snd] in *.
      destruct IH as (H1 & H2 & H3). rewrite H1, H2, H3, int64_add.
      repeat split. f_equal. lia.
Qed.

Lemma WriteTo_until_error (fp : fieldParts) (cs : list (list byte)) (s : St) :
  chunks enc fp = Some cs ->
  Writer.WriteTo St W enc fp s
  = Some (let r := writes St W cs s in (r.1, (int64 r.2.1, r.2.2))).
Proof.
  intros H. rewrite (WriteTo_feed fp cs s H). cbv zeta.
  destruct (feed_writes cs (mkCew St s None 0) eq_refl eq_refl) as (H1 & H2 & H3).
  cbn [w err n] in H1, H2, H3. rewrite H1, H2, H3. reflexivity.
Qed.

End AnyWriter.

(** *** Writing into a buffer *)

Section Buffer.
Variable enc : string -> list Z.

Lemma len_app (a b : list byte) : len (a ++ b) = len a + len b.
Proof. unfold len. rewrite length_app. lia. Qed.

Lemma Write_Buffer (p b : list byte) :
  (Writer.Write (list byte) Buffer_Write p (buffered b)).1 = buffered (b ++ p).
Proof.
  unfold Writer.Write, Buffer_Write, buffered. cbn [err w n fst].
  rewrite int64_add, len_app. reflexivity.
Qed.

Lemma feed_Buffer (cs : list (list byte)) (b : list byte) :
  Writer.feed (list byte) Buffer_Write cs (buffered b) = buffered (b ++ concat cs).
Proof.
  revert b; induction cs as [|p cs IH]; intros b; cbn [Writer.feed concat].
  - rewrite app_nil_r. reflexivity.
  - rewrite Write_Buffer, IH, <- app_assoc. reflexivity.
Qed.

Lemma field_chunks_concat (val : string) :
  concat (field_chunks enc val) = field_bytes enc val.
Proof.
  unfold field_chunks, field_bytes. cbv zeta.
  destruct (GoString.len val =? 0); [reflexivity|].
  rewrite !concat_app. cbn [concat app]. rewrite app_nil_r.
  rewrite flat_map_concat_map. reflexivity.
Qed.

Lemma write_parts_Buffer (fp : fieldParts) (length : Z) (parts : list (list byte))
    (i : nat) (b : list byte) :
  write_parts (list byte) Buffer_Write enc fp length i parts (buffered b)
  = buffered <$> write_loop enc fp length i parts b.
Proof.
  revert i b; induction parts as [|p parts IH]; intros i b; [reflexivity|].
  cbn [write_parts write_loop]. destruct (Z.of_nat i =? length); [reflexivity|].
  destruct (Fields fp !! i) as [field|]; [|reflexivity]. cbv zeta.
  rewrite Write_Buffer, write_field_feed, feed_Buffer, field_chunks_concat.
  cbn [err buffered]. rewrite IH, <- app_assoc. reflexivity.
Qed.

Lemma WriteTo_Buffer_render (fp : fieldParts) :
  Writer.WriteTo (list byte) Buffer_Write enc fp []
  = (fun out => (out, (int64 (len out), None))) <$> Fdf.WriteTo enc fp.
Proof.
  unfold Writer.WriteTo, Fdf.WriteTo. cbv zeta.
  change (mkCew (list byte) [] None 0) with (buffered []).
  rewrite write_parts_Buffer.
  destruct (write_loop enc fp _ 0 (Parts fp) []) as [out|]; [|reflexivity].
  cbn [fmap option_fmap option_map].
  destruct (Z.of_nat (length (Parts fp)) - 1 <? 0); [reflexivity|].
  destruct (Parts fp !! _) as [lst|]; [|reflexivity].
  rewrite Write_Buffer. reflexivity.
Qed.

(** X25: Into a [bytes.Buffer], [WriteTo] never returns an error: it either
    panics, or appends what the template renders to and returns the number
    of bytes as [n]. *)
Theorem WriteTo_Buffer (fp : fieldParts) :
  Writer.WriteTo (list byte) Buffer_Write enc fp []
  = (fun out => (out, (int64 (len out), None))) <$> Fdf.WriteTo enc fp.
Proof. apply WriteTo_Buffer_render. Qed.

(** The pieces, one after the other, are what the template renders to. *)
Lemma chunks_render (fp : fieldParts) (cs : list (list byte)) :
  chunks enc fp = Some cs -> Fdf.WriteTo enc fp = Some (concat cs).
Proof.
  intros H. pose proof (WriteTo_Buffer_render fp) as Hb.
  rewrite (WriteTo_feed (list byte) Buffer_Write enc fp cs [] H) in Hb.
  change (mkCew (list byte) [] None 0) with (buffered []) in Hb.
  rewrite feed_Buffer in Hb. cbv zeta in Hb. cbn [w buffered app] in Hb.
  destruct (Fdf.WriteTo enc fp) as [out|]; [|discriminate Hb].
  cbn [fmap option_fmap option_map] in Hb. injection Hb as Hb _. congruence.
Qed.

End Buffer.

(** X24: Whatever the writer, [WriteTo] hands it the pieces of the rendered
    template in order, as long as it accepts them, and stops at the first
    write that fails: the writer gets nothing after that, and the error
    returned is the error of that write.  The count returned is the total
    the writer reported, as an [int64]. *)
Theorem WriteTo_writes (St : Type) (W : list byte -> St -> St * (Z * option error))
    (enc : string -> list Z) (fp : fieldParts) (cs : list (list byte)) (s : St) :
  chunks enc fp = Some cs ->
  Fdf.WriteTo enc fp = Some (concat cs) /\
  Writer.WriteTo St W enc fp s
  = Some (let r := writes St W cs s in (r.1, (int64 r.2.1, r.2.2))).
Proof.
  intros H. split; [apply chunks_render, H | apply WriteTo_until_error, H].
Qed.

Lemma WriteTo_writes_witness :
  let fp := (Set_ (splitFdf Scenario.empty_form) "name" "Bob").1 in
  let cs := default [] (chunks Scenario.ascii_units fp) in
  Fdf.WriteTo Scenario.ascii_units fp = Some (concat cs) /\
  Writer.WriteTo (nat * list byte) (limited_Write (PathError "write" "out.fdf"))
    Scenario.ascii_units fp (20%nat, [])
  = Some (let r := writes (nat * list byte)
                     (limited_Write (PathError "write" "out.fdf")) cs (20%nat, []) in
          (r.1, (int64 r.2.1, r.2.2))).
Proof.
  cbv zeta.
  apply (WriteTo_writes (nat * list byte)
           (limited_Write (PathError "write" "out.fdf")) Scenario.ascii_units
           (Set_ (splitFdf Scenario.empty_form) "name" "Bob").1).
  vm_compute. reflexivity.
Defined.

(** On a writer with room for twenty bytes the template is cut after
    twenty bytes; the error of the writer and the count come back. *)
Example WriteTo_full_disk :
  let fp := (Set_ (splitFdf Scenario.empty_form) "name" "Bob").1 in
  Writer.WriteTo (nat * list byte) (limited_Write (PathError "write" "out.fdf"))
    Scenario.ascii_units fp (20%nat, [])
  = Some ((O, take 20 (default [] (Fdf.WriteTo Scenario.ascii_units fp))),
          (20, Some (PathError "write" "out.fdf"))).
Proof. vm_compute. reflexivity. Qed.

End WriterFacts.

(** ** Templates of blank forms *)

Module FdfFormFacts.
Import GoBytes Fdf FdfFacts FdfMore FdfForm.
Local Open Scope list_scope.

Lemma HasPrefix_app_long (s t sep : list byte) :
  (length sep <= length s)%nat -> HasPrefix (s ++ t) sep = HasPrefix s sep.
Proof.
  revert s; induction sep as [|p sep IH]; intros s H.
  - destruct s; destruct t; reflexivity.
  - destruct s as [|c s]; [cbn in H; lia|].
    cbn. rewrite IH by (cbn in H; lia). reflexivity.
Qed.

(** The first occurrence stays the first when bytes are appended. *)
Lemma index_from_app (s t sep : list byte) (n : nat) :
  index_from s sep = Some n -> index_from (s ++ t) sep = Some n.
Proof.
  revert n; induction s as [|c s IH]; intros n H.
  - cbn [index_from] in H. destruct sep as [|p sep]; [|discriminate H].
    injection H as <-. destruct t; reflexivity.
  - pose proof (index_from_Some _ _ _ H) as [Hl _].
    cbn [index_from] in H. cbn [app index_from].
    change (c :: s ++ t) with ((c :: s) ++ t).
    rewrite HasPrefix_app_long by lia.
    destruct (HasPrefix (c :: s) sep); [exact H|].
    destruct (index_from s sep) as [m|] eqn:Em; [|discriminate H].
    rewrite (IH m eq_refl). exact H.
Qed.

Lemma ends_first_index (s sep : list byte) :
  ends_first s sep -> index_from (s ++ sep) sep = Some (length s).
Proof.
  unfold ends_first, Index, len.
  destruct (index_from (s ++ sep) sep) as [n|]; intros H; [f_equal; lia | lia].
Qed.

Lemma ends_first_absent (s sep : list byte) :
  sep <> [] -> ends_first s sep -> Index s sep = -1.
Proof.
  intros Hsep H. apply ends_first_index in H. unfold Index.
  destruct (index_from s sep) as [n|] eqn:En; [|reflexivity]. exfalso.
  pose proof (index_from_Some _ _ _ En) as [Hl _].
  rewrite (index_from_app s sep sep n En) in H. injection H as ->.
  destruct sep; [contradiction | cbn in Hl; lia].
Qed.

Lemma split_loop_blank (texts : list (list byte)) (t : list byte) (fuel : nat) :
  Forall (fun t => ends_first t fieldPartV) (t :: texts) ->
  (length (t ++ flat_map (fun x => fieldPartV ++ x) texts) < fuel)%nat ->
  split_loop fuel (t ++ flat_map (fun x => fieldPartV ++ x) texts) [] = t :: texts.
Proof.
  revert t fuel; induction texts as [|t1 texts IH]; intros t fuel Hc Hf.
  - cbn [flat_map] in *. rewrite app_nil_r in *.
    destruct fuel as [|fuel]; [lia|]. cbn [split_loop].
    apply Forall_cons in Hc as [Ht _].
    rewrite (ends_first_absent t fieldPartV) by (discriminate || exact Ht).
    reflexivity.
  - apply Forall_cons in Hc as [Ht Hc].
    destruct fuel as [|fuel]; [lia|]. cbn [split_loop flat_map].
    assert (HfR : (length (t1 ++ flat_map (fun x => fieldPartV ++ x) texts) < fuel)%nat).
    { cbn [flat_map] in Hf. rewrite !length_app, fieldPartV_length in Hf.
      rewrite length_app. lia. }
    set (R := t1 ++ flat_map (fun x => fieldPartV ++ x) texts) in *.
    assert (Hi : Index (t ++ (fieldPartV ++ R)) fieldPartV = Z.of_nat (length t)).
    { unfold Index. rewrite app_assoc.
      rewrite (index_from_app (t ++ fieldPartV) R fieldPartV (length t));
        [reflexivity | apply ends_first_index, Ht]. }
    rewrite <- !app_assoc in *. change (fieldPartV ++ t1 ++ ?x) with (fieldPartV ++ R).
    rewrite Hi.
    assert ((Z.of_nat (length t) <? 0) = false) as -> by (apply Z.ltb_ge; lia).
    rewrite split_loop_acc. unfold slice_to, slice_from, len.
    rewrite Nat2Z.id, take_app_length.
    replace (Z.to_nat (Z.of_nat (length t) + Z.of_nat (length fieldPartV)))
      with (length t + length fieldPartV)%nat by lia.
    rewrite <- drop_drop, drop_app_length, drop_app_length.
    cbn [app]. f_equal. apply IH; [exact Hc | exact HfR].
Qed.

Lemma HasPrefix_self_app (pre s : list byte) : HasPrefix (pre ++ s) pre = true.
Proof.
  induction pre as [|p pre IH]; [destruct s; reflexivity|].
  cbn [app HasPrefix]. rewrite IH, (Byte.byte_dec_lb (eq_refl p)). reflexivity.
Qed.

Lemma index_from_skip (c : byte) (s sep : list byte) :
  HasPrefix (c :: s) sep = false ->
  index_from (c :: s) sep = S <$> index_from s sep.
Proof. intros H. cbn [index_from]. rewrite H. reflexivity. Qed.

Lemma field_key_text (name : string) (gap : list byte) :
  ends_first (of_string name) field_close ->
  field_key (field_text (name, gap)) = Some name.
Proof.
  intros H. apply ends_first_index in H.
  apply (index_from_app _ gap) in H. rewrite <- app_assoc in H.
  unfold field_key, field_text. cbn [fst snd].
  set (N := of_string name) in *. cbv zeta.
  assert (Hi : Index (field_open ++ N ++ field_close ++ gap) field_open = 0).
  { unfold Index. change (field_open ++ N ++ field_close ++ gap)
      with (x2f%byte :: ([x54; x20; x28]%byte ++ N ++ field_close ++ gap)).
    cbn [index_from].
    change (x2f%byte :: ([x54; x20; x28]%byte ++ N ++ field_close ++ gap))
      with (field_open ++ N ++ field_close ++ gap).
    rewrite HasPrefix_self_app. reflexivity. }
  rewrite Hi. cbn [Z.ltb Z.compare]. unfold slice_from.
  change (drop (Z.to_nat 0) (field_open ++ N ++ field_close ++ gap))
    with (field_open ++ N ++ field_close ++ gap).
  assert (Hj : Index (field_open ++ N ++ field_close ++ gap) field_close
               = Z.of_nat (4 + length N)).
  { unfold Index.
    change (field_open ++ N ++ field_close ++ gap)
      with (x2f%byte :: x54%byte :: x20%byte :: x28%byte
            :: (N ++ field_close ++ gap)).
    rewrite !index_from_skip by reflexivity. rewrite H. reflexivity. }
  rewrite Hj.
  assert ((Z.of_nat (4 + length N) <? 0) = false) as -> by (apply Z.ltb_ge; lia).
  f_equal. unfold slice.
  replace (Z.to_nat (Z.of_nat (4 + length N) + 0 - (0 + 4))) with (length N) by lia.
  change (Z.to_nat (0 + 4)) with (length field_open).
  rewrite drop_app_length, take_app_length. unfold N, to_string, of_string.
  apply String.string_of_list_byte_of_string.
Qed.

Lemma omap_cons_Some {A B : Type} (f : A -> option B) (x : A) (l : list A) (y : B) :
  f x = Some y -> omap f (x :: l) = y :: omap f l.
Proof.
  intros H.
  change (omap f (x :: l))
    with (match f x with Some y => y :: omap f l | None => omap f l end).
  rewrite H. reflexivity.
Qed.

Lemma omap_cons_None {A B : Type} (f : A -> option B) (x : A) (l : list A) :
  f x = None -> omap f (x :: l) = omap f l.
Proof.
  intros H.
  change (omap f (x :: l))
    with (match f x with Some y => y :: omap f l | None => omap f l end).
  rewrite H. reflexivity.
Qed.

Lemma omap_field_text (fields : list (string * list byte)) :
  Forall (fun f => ends_first (of_string f.1) field_close) fields ->
  omap field_key (field_text <$> fields) = fields.*1.
Proof.
  induction 1 as [|[name gap] fields Hf _ IH]; [reflexivity|].
  rewrite !fmap_cons. rewrite (omap_cons_Some _ _ _ name (field_key_text name gap Hf)).
  rewrite IH. reflexivity.
Qed.

(** X23: The template of a blank form is aligned: when the header names no
    field, no marker starts inside the header or inside the text of a
    field, and no name contains the closing bracket sequence, [splitFdf]
    finds one part for the header and one for every field, and lists the
    names of the fields in the order of the form, one fewer than parts. *)
Theorem splitFdf_blank_form (header : list byte)
    (fields : list (string * list byte)) :
  field_key header = None ->
  Forall (fun t => ends_first t fieldPartV) (header :: (field_text <$> fields)) ->
  Forall (fun f => ends_first (of_string f.1) field_close) fields ->
  let fp := splitFdf (blank_form header fields) in
  Parts fp = header :: (field_text <$> fields) /\
  Fields fp = fields.*1 /\
  length (Parts fp) = (length (Fields fp) + 1)%nat.
Proof.
  intros Hh Ht Hn. cbv zeta.
  assert (Hform : blank_form header fields
                  = header ++ flat_map (fun x => fieldPartV ++ x) (field_text <$> fields)).
  { unfold blank_form. f_equal. clear. induction fields as [|f fields IH];
      [reflexivity|]. cbn [flat_map fmap list_fmap]. rewrite IH. reflexivity. }
  assert (Hparts : Parts (splitFdf (blank_form header fields))
                   = header :: (field_text <$> fields)).
  { rewrite splitFdf_Parts, Hform. apply split_loop_blank; [exact Ht | lia]. }
  assert (Hfields : Fields (splitFdf (blank_form header fields)) = fields.*1).
  { rewrite splitFdf_Fields, Hparts, (omap_cons_None _ _ _ Hh).
    apply omap_field_text, Hn. }
  split; [exact Hparts|]. split; [exact Hfields|].
  rewrite Hparts, Hfields. cbn [length]. rewrite !length_fmap. lia.
Qed.

Lemma splitFdf_blank_form_witness :
  let header := of_string "%FDF-1.2" in
  let fields := [("name", []); ("city", of_string "]")] in
  let fp := splitFdf (blank_form header fields) in
  Parts fp = header :: (field_text <$> fields) /\
  Fields fp = fields.*1 /\
  length (Parts fp) = (length (Fields fp) + 1)%nat.
Proof.
  apply (splitFdf_blank_form (of_string "%FDF-1.2")
           [("name", []); ("city", of_string "]")]).
  - vm_compute. reflexivity.
  - repeat constructor; vm_compute; reflexivity.
  - repeat constructor; vm_compute; reflexivity.
Defined.

(** The form of the scenarios is such a blank form. *)
Example empty_form_blank :
  Scenario.empty_form
  = blank_form (of_string "%FDF-1.2") [("name", []); ("city", of_string "]")].
Proof. vm_compute. reflexivity. Qed.

End FdfFormFacts.
